(** * DbLog: buffered item logger of SmartHome.py (plugin [dblog])

    A shallow embedding of [dblog/__init__.py] and the properties of its
    statement formatter, timestamp encoding, buffering and flush engine.

    Conventions of the embedding:
    - Python [int] is [Z]; [str] is [string]; [None] in an optional slot is
      [None] of an [option].
    - Methods that touch the instance, the DB-API connection, the logger or
      the scheduler are computations in the monad [M] over a [world]; a
      computation returns, raises a Python exception, or blocks on a lock.
    - The DB-API driver and the host ([smarthome], items, [time.mktime],
      [float()], [str()], [bool()]) are external: the host is the classes
      [Types], [Builtins] and [Clock], the driver is the relational model [conn]
      below. *)

From Equations Require Import Equations.
From Stdlib Require Import String Ascii List ZArith QArith Qround Lia Bool.
From Stdlib Require Import DecimalString.
Import ListNotations.

Open Scope string_scope.
Open Scope Z_scope.

(* ===================================================================== *)
(** ** Python exceptions *)
(* ===================================================================== *)

(** Every constructor is a subclass of Python's [Exception], so each is
    caught by [except Exception]. *)
Inductive exn : Type :=
| AttributeError (attr : string)   (* self.<attr> was never assigned *)
| KeyError (key : string)          (* dict lookup on a missing key *)
| IndexError                       (* sequence index out of range *)
| TypeError (msg : string)
| ValueError (msg : string)
| RuntimeError (msg : string)      (* release of an unlocked lock *)
| DatabaseError (msg : string).    (* raised by the DB-API driver *)

(* ===================================================================== *)
(** ** Strings: the fragment of [str] used by the formatter *)
(* ===================================================================== *)

(** [str(n)] for an [int]. *)
Definition str_int (z : Z) : string := NilZero.string_of_int (Z.to_int z).

(** Number of occurrences of a character. *)
Fixpoint str_count (c : ascii) (s : string) : nat :=
  match s with
  | EmptyString => O
  | String a s' => if Ascii.eqb a c then S (str_count c s') else str_count c s'
  end.

(** [c in s] for a one-character [c]. *)
Fixpoint str_contains (c : ascii) (s : string) : bool :=
  match s with
  | EmptyString => false
  | String a s' => if Ascii.eqb a c then true else str_contains c s'
  end.

(** [s.replace(old, new[, count])] for a one-character [old]: the first
    [count] occurrences from the left are replaced, all of them when
    [count] is absent. *)
Fixpoint str_replace (old : ascii) (new : string) (count : option nat) (s : string)
  : string :=
  match s with
  | EmptyString => EmptyString
  | String a s' =>
      if Ascii.eqb a old then
        match count with
        | Some O => s
        | Some (S n) => new ++ str_replace old new (Some n) s'
        | None => new ++ str_replace old new None s'
        end
      else String a (str_replace old new count s')
  end.

Definition inspect {A : Type} (a : A) : {b : A | a = b} := exist _ a eq_refl.

(* ===================================================================== *)
(** ** Statement formatter: [DbLog._format] *)
(* ===================================================================== *)

(** [styles = ('qmark', 'format', 'numeric')] *)
Definition styles : list string := ["qmark"; "format"; "numeric"].

(** The loop of the ['numeric'] branch:
<<
    cnt = 1
    while '?' in stmt:
        stmt = stmt.replace('?', ':' + str(cnt), 1)
        cnt = cnt + 1
    return stmt
>>
    It terminates because every round removes one ['?'] and [':' + str(cnt)]
    brings none back. *)
Equations? numeric_loop (stmt : string) (cnt : Z) : string
  by wf (str_count "?" stmt) lt :=
  numeric_loop stmt cnt with inspect (str_contains "?" stmt) => {
    | exist _ true _ =>
        numeric_loop (str_replace "?" (":" ++ str_int cnt) (Some 1%nat) stmt) (cnt + 1);
    | exist _ false _ => stmt }.
Proof.
  assert (Hnew : str_count "?" (":" ++ str_int cnt) = O).
  { assert (Hu : forall d, str_count "?" (NilEmpty.string_of_uint d) = O)
      by (induction d; simpl; auto).
    assert (Hz : forall d, str_count "?" (NilZero.string_of_uint d) = O)
      by (destruct d; try reflexivity; apply (Hu (_ _))).
    unfold str_int, NilZero.string_of_int.
    destruct (Z.to_int cnt); simpl; apply Hz. }
  assert (Happ : forall c s t, str_count c (s ++ t)
                               = (str_count c s + str_count c t)%nat).
  { intros c; induction s as [|a s IH]; intros t; simpl; [reflexivity|].
    destruct (Ascii.eqb a c); rewrite IH; reflexivity. }
  assert (Hzero : forall c new s, str_replace c new (Some O) s = s).
  { intros c new; induction s as [|a s IH]; simpl; [reflexivity|].
    destruct (Ascii.eqb a c); [reflexivity|]. now rewrite IH. }
  clear numeric_loop.
  change (":" ++ str_int cnt) with (String ":" (str_int cnt)) in Hnew.
  revert e Hnew. generalize (String ":" (str_int cnt)). generalize "?"%char.
  intros c new Hc Hn.
  induction stmt as [|a s IH]; simpl in *; [discriminate|].
  destruct (Ascii.eqb a c) eqn:E.
  - rewrite Happ, Hn, Hzero. simpl. lia.
  - simpl. rewrite E. specialize (IH Hc). lia.
Qed.

(** [_format(self, stmt)], with [self.style] as first argument. The result
    is [None] when the Python function falls off its [if]/[elif] chain and
    returns [None]. *)
Definition _format (style : string) (stmt : string) : option string :=
  if String.eqb style "qmark" then Some stmt
  else if String.eqb style "format" then Some (str_replace "?" "%s" None stmt)
  else if String.eqb style "numeric" then Some (numeric_loop stmt 1)
  else None.

(* ===================================================================== *)
(** ** Timestamps: [DbLog._timestamp] *)
(* ===================================================================== *)

(** The fields of [datetime.datetime] read by [timetuple()] and by
    [_timestamp]. [dst] is the result of [dt.dst()]: [None] when the
    datetime is naive or its tzinfo does not know, otherwise the offset. *)
Record datetime : Type := {
  year : Z; month : Z; day : Z;
  hour : Z; minute : Z; second : Z;
  microsecond : Z;
  dst : option Z
}.

(** [time.struct_time]; [tm_wday] and [tm_yday] are ignored by
    [time.mktime] and are left out. *)
Record struct_time : Type := {
  tm_year : Z; tm_mon : Z; tm_mday : Z;
  tm_hour : Z; tm_min : Z; tm_sec : Z;
  tm_isdst : Z
}.

(** [dt.timetuple()]: the wall-clock fields without the microseconds. *)
Definition timetuple (dt : datetime) : struct_time :=
  {| tm_year := year dt; tm_mon := month dt; tm_mday := day dt;
     tm_hour := hour dt; tm_min := minute dt; tm_sec := second dt;
     tm_isdst := match dst dt with
                 | None => -1
                 | Some 0 => 0
                 | Some _ => 1
                 end |}.

(** Python floats in [_timestamp] are modelled by the rationals they
    denote: [a / b] is exact division and [int(x)] truncates toward zero. *)
Definition py_truediv (a b : Z) : Q := (inject_Z a / inject_Z b)%Q.
Definition py_int (x : Q) : Z := Z.quot (Qnum x) (Zpos (Qden x)).

(** The C library of the host: [time.mktime(t)], the seconds since the
    epoch of the local time [t], a whole number that Python returns as a
    float. *)
Class Clock : Type := {
  mktime : struct_time -> Z
}.

(** The Python types the plugin handles without looking inside: the
    objects an item can hold ([value], what [item()] returns) and Python
    floats ([pyfloat]). *)
Class Types : Type := {
  value : Type;
  pyfloat : Type
}.

(** Python's conversions on them. *)
Class Builtins {types : Types} : Type := {
  (** [float(v)], which raises on a value that is not a number *)
  py_float : value -> exn + pyfloat;
  (** [bool(v)] *)
  py_bool : value -> bool;
  (** [str(v)] *)
  py_str : value -> string
}.

(** [time.mktime(t)] as Python returns it. *)
Definition time_mktime {clock : Clock} (t : struct_time) : Q := inject_Z (mktime t).

(* ===================================================================== *)
(** ** Data model *)
(* ===================================================================== *)

Open Scope list_scope.

Section Model.
Context {types : Types}.

(** An item of the host, as the plugin sees it: [item.id()],
    [item.type()], [item()] and the keys of [item.conf]. An item object is
    identified by its id, the unique path of the item in the host. *)
Record item : Type := {
  item_id : string;
  item_type : string;
  item_value : value;
  item_conf : list string
}.

(** A buffered tuple [(timestamp, val_str, val_num, val_bool)]; the
    projections are [t[0]] .. [t[3]]. *)
Record obs : Type := {
  o_time : Z;
  o_str : option string;
  o_num : option pyfloat;
  o_bool : option bool
}.

(** Values bound to the placeholders of a statement. *)
Inductive sqlval : Type :=
| SNull
| SInt (z : Z)
| SText (s : string)
| SReal (f : pyfloat)
| SBool (b : bool).

Definition sql_int (x : option Z) : sqlval :=
  match x with Some z => SInt z | None => SNull end.
Definition sql_text (x : option string) : sqlval :=
  match x with Some s => SText s | None => SNull end.
Definition sql_real (x : option pyfloat) : sqlval :=
  match x with Some f => SReal f | None => SNull end.
Definition sql_bool (x : option bool) : sqlval :=
  match x with Some b => SBool b | None => SNull end.

(** ** Python dicts in insertion order *)

Fixpoint dict_get {V : Type} (k : string) (d : list (string * V)) : option V :=
  match d with
  | [] => None
  | (k', v) :: d' => if String.eqb k' k then Some v else dict_get k d'
  end.

(** [d[k] = v]: an existing key keeps its place, a new one goes last. *)
Fixpoint dict_set {V : Type} (k : string) (v : V) (d : list (string * V))
  : list (string * V) :=
  match d with
  | [] => [(k, v)]
  | (k', v') :: d' =>
      if String.eqb k' k then (k', v) :: d' else (k', v') :: dict_set k v d'
  end.

Definition dict_keys {V : Type} (d : list (string * V)) : list string :=
  map fst d.

(* ===================================================================== *)
(** ** The backing store behind the DB-API connection *)
(* ===================================================================== *)

(** Table [item (id, name, time, val_str, val_num, val_bool)]. Rows are
    only written by [INSERT INTO item(id, name)] with an integer and a
    string, so [id] and [name] are never null. *)
Record item_row : Type := {
  r_id : Z;
  r_name : string;
  r_time : option Z;
  r_val_str : option string;
  r_val_num : option pyfloat;
  r_val_bool : option bool
}.

(** Table [log (time, item_id, val_str, val_num, val_bool)]. *)
Record log_row : Type := {
  l_time : Z;
  l_item_id : Z;
  l_val_str : option string;
  l_val_num : option pyfloat;
  l_val_bool : option bool
}.

(** The schema objects of [_setup]; a table is [None] until created. *)
Record tables : Type := {
  item_tbl : option (list item_row);
  log_tbl : option (list log_row);
  log_item_id_idx : bool;
  item_name_idx : bool
}.

Definition set_item_tbl (x : option (list item_row)) (t : tables) : tables :=
  {| item_tbl := x; log_tbl := log_tbl t;
     log_item_id_idx := log_item_id_idx t; item_name_idx := item_name_idx t |}.
Definition set_log_tbl (x : option (list log_row)) (t : tables) : tables :=
  {| item_tbl := item_tbl t; log_tbl := x;
     log_item_id_idx := log_item_id_idx t; item_name_idx := item_name_idx t |}.
Definition set_log_item_id_idx (x : bool) (t : tables) : tables :=
  {| item_tbl := item_tbl t; log_tbl := log_tbl t;
     log_item_id_idx := x; item_name_idx := item_name_idx t |}.
Definition set_item_name_idx (x : bool) (t : tables) : tables :=
  {| item_tbl := item_tbl t; log_tbl := log_tbl t;
     log_item_id_idx := log_item_id_idx t; item_name_idx := x |}.

(** The statements of the plugin, as the driver understands them. *)
Inductive sql : Type :=
| CreateLog | CreateItem | CreateIndexLog | CreateIndexItem
| SelectId | SelectMaxId | InsertItem | InsertLog | UpdateItem.

(** [_setup], in the order of the class body. *)
Definition _setup : list (string * string) :=
  [ ("create_db_log",
     "CREATE TABLE log (time INTEGER, item_id INTEGER, val_str TEXT, val_num REAL, val_bool BOOLEAN);");
    ("create_db_item",
     "CREATE TABLE item (id INTEGER, name varchar(255), time INTEGER, val_str TEXT, val_num REAL, val_bool BOOLEAN);");
    ("create_index_log", "CREATE INDEX log_item_id ON log (item_id);");
    ("create_index_item", "CREATE INDEX item_name ON item (name);") ].

(** Statement texts accepted by a driver of each parameter style; the
    texts are written out, independently of [_format]. *)
Definition grammar (style : string) : list (string * sql) :=
  [ ("CREATE TABLE log (time INTEGER, item_id INTEGER, val_str TEXT, val_num REAL, val_bool BOOLEAN);",
     CreateLog);
    ("CREATE TABLE item (id INTEGER, name varchar(255), time INTEGER, val_str TEXT, val_num REAL, val_bool BOOLEAN);",
     CreateItem);
    ("CREATE INDEX log_item_id ON log (item_id);", CreateIndexLog);
    ("CREATE INDEX item_name ON item (name);", CreateIndexItem);
    ("SELECT MAX(id) FROM item;", SelectMaxId) ]
  ++
  if String.eqb style "qmark" then
    [ ("SELECT id FROM item where name = ?;", SelectId);
      ("INSERT INTO item(id, name) VALUES(?,?);", InsertItem);
      ("INSERT INTO log VALUES (?,?,?,?,?);", InsertLog);
      ("UPDATE item SET time = ?, val_str = ?, val_num = ?, val_bool = ? WHERE id = ?;",
       UpdateItem) ]
  else if String.eqb style "format" then
    [ ("SELECT id FROM item where name = %s;", SelectId);
      ("INSERT INTO item(id, name) VALUES(%s,%s);", InsertItem);
      ("INSERT INTO log VALUES (%s,%s,%s,%s,%s);", InsertLog);
      ("UPDATE item SET time = %s, val_str = %s, val_num = %s, val_bool = %s WHERE id = %s;",
       UpdateItem) ]
  else if String.eqb style "numeric" then
    [ ("SELECT id FROM item where name = :1;", SelectId);
      ("INSERT INTO item(id, name) VALUES(:1,:2);", InsertItem);
      ("INSERT INTO log VALUES (:1,:2,:3,:4,:5);", InsertLog);
      ("UPDATE item SET time = :1, val_str = :2, val_num = :3, val_bool = :4 WHERE id = :5;",
       UpdateItem) ]
  else [].

Definition parse_sql (style stmt : string) : option sql :=
  option_map snd (find (fun p => String.eqb (fst p) stmt) (grammar style)).

(** A result row; the plugin only ever selects the integer column [id]. *)
Definition row : Type := list (option Z).

Definition as_text (v : sqlval) : option (option string) :=
  match v with SNull => Some None | SText s => Some (Some s) | _ => None end.
Definition as_real (v : sqlval) : option (option pyfloat) :=
  match v with SNull => Some None | SReal f => Some (Some f) | _ => None end.
Definition as_bool (v : sqlval) : option (option bool) :=
  match v with SNull => Some None | SBool b => Some (Some b) | _ => None end.

(** [MAX(id)]: null on an empty table. *)
Definition max_id (items : list item_row) : option Z :=
  fold_left (fun acc r => match acc with
                          | None => Some (r_id r)
                          | Some m => Some (Z.max m (r_id r))
                          end) items None.

Definition name_is (name : string) (r : item_row) : bool :=
  String.eqb (r_name r) name.

(** [UPDATE item SET time, val_str, val_num, val_bool WHERE id = i] on one
    row. *)
Definition set_snapshot (i : Z) (t : Z) (s : option string)
  (n : option pyfloat) (b : option bool) (r : item_row) : item_row :=
  if Z.eqb (r_id r) i then
    {| r_id := r_id r; r_name := r_name r; r_time := Some t;
       r_val_str := s; r_val_num := n; r_val_bool := b |}
  else r.

Definition new_item_row (i : Z) (name : string) : item_row :=
  {| r_id := i; r_name := name; r_time := None;
     r_val_str := None; r_val_num := None; r_val_bool := None |}.

Definition no_table (t : string) : exn := DatabaseError ("no such table: " ++ t)%string.
Definition bad_binding : exn := DatabaseError "parameters do not fit the statement".

(** One statement against the tables: the new tables and the result set,
    or the driver's exception. *)
Definition run_sql (q : sql) (params : list sqlval) (t : tables)
  : exn + (tables * list row) :=
  match q, params with
  | CreateLog, [] =>
      match log_tbl t with
      | Some _ => inl (DatabaseError "table log already exists")
      | None => inr (set_log_tbl (Some []) t, [])
      end
  | CreateItem, [] =>
      match item_tbl t with
      | Some _ => inl (DatabaseError "table item already exists")
      | None => inr (set_item_tbl (Some []) t, [])
      end
  | CreateIndexLog, [] =>
      match log_tbl t with
      | None => inl (no_table "log")
      | Some _ =>
          if log_item_id_idx t
          then inl (DatabaseError "index log_item_id already exists")
          else inr (set_log_item_id_idx true t, [])
      end
  | CreateIndexItem, [] =>
      match item_tbl t with
      | None => inl (no_table "item")
      | Some _ =>
          if item_name_idx t
          then inl (DatabaseError "index item_name already exists")
          else inr (set_item_name_idx true t, [])
      end
  | SelectId, [SText name] =>
      match item_tbl t with
      | None => inl (no_table "item")
      | Some items =>
          inr (t, map (fun r => [Some (r_id r)]) (filter (name_is name) items))
      end
  | SelectMaxId, [] =>
      match item_tbl t with
      | None => inl (no_table "item")
      | Some items => inr (t, [[max_id items]])
      end
  | InsertItem, [SInt i; SText name] =>
      match item_tbl t with
      | None => inl (no_table "item")
      | Some items =>
          inr (set_item_tbl (Some (items ++ [new_item_row i name])) t, [])
      end
  | InsertLog, [SInt tm; SInt i; s; n; b] =>
      match log_tbl t, as_text s, as_real n, as_bool b with
      | None, _, _, _ => inl (no_table "log")
      | Some logs, Some s', Some n', Some b' =>
          inr (set_log_tbl
                 (Some (logs ++ [{| l_time := tm; l_item_id := i; l_val_str := s';
                                    l_val_num := n'; l_val_bool := b' |}])) t, [])
      | Some _, _, _, _ => inl bad_binding
      end
  | UpdateItem, [SInt tm; s; n; b; SInt i] =>
      match item_tbl t, as_text s, as_real n, as_bool b with
      | None, _, _, _ => inl (no_table "item")
      | Some items, Some s', Some n', Some b' =>
          inr (set_item_tbl (Some (map (set_snapshot i tm s' n' b') items)) t, [])
      | Some _, _, _, _ => inl bad_binding
      end
  | _, _ => inl bad_binding
  end.

(** A DB-API connection together with the store behind it.
    - [work] is the state seen through this connection, [durable] the
      state that a close leaves: that of the last commit or of the last
      statement that changed the schema;
    - [faults] schedules the failures of the backend: every call into the
      driver takes the head of the list, and [Some msg] makes that call
      raise [DatabaseError msg] without any other effect. A backend with
      no faults left answers every call. *)
Record conn : Type := {
  dialect : string;
  work : tables;
  durable : tables;
  closed : bool;
  faults : list (option string)
}.

Definition set_work (x : tables) (c : conn) : conn :=
  {| dialect := dialect c; work := x; durable := durable c;
     closed := closed c; faults := faults c |}.
Definition set_durable (x : tables) (c : conn) : conn :=
  {| dialect := dialect c; work := work c; durable := x;
     closed := closed c; faults := faults c |}.
Definition set_closed (x : bool) (c : conn) : conn :=
  {| dialect := dialect c; work := work c; durable := durable c;
     closed := x; faults := faults c |}.
Definition set_faults (x : list (option string)) (c : conn) : conn :=
  {| dialect := dialect c; work := work c; durable := durable c;
     closed := closed c; faults := x |}.

(** A cursor is the result set still to be fetched from it. *)
Definition cursor : Type := list row.

(** Entry of a call into the driver: consume one scheduled fault. *)
Definition driver_call {A : Type} (c : conn) (k : conn -> (exn + A) * conn)
  : (exn + A) * conn :=
  match faults c with
  | [] => k c
  | None :: fs => k (set_faults fs c)
  | Some msg :: fs => (inl (DatabaseError msg), set_faults fs c)
  end.

Definition if_open {A : Type} (c : conn) (r : (exn + A) * conn) : (exn + A) * conn :=
  if closed c then (inl (DatabaseError "connection is closed"), c) else r.

(** [conn.cursor()] *)
Definition conn_cursor (c : conn) : (exn + cursor) * conn :=
  driver_call c (fun c => if_open c (inr [], c)).

(** The statements that change the schema. *)
Definition is_ddl (q : sql) : bool :=
  match q with
  | CreateLog | CreateItem | CreateIndexLog | CreateIndexItem => true
  | _ => false
  end.

(** [cur.execute(stmt, params)]; the statement handed over may be Python's
    [None], which no driver accepts. A [CREATE] statement that succeeds
    is not held back until the next commit: what it creates is durable at
    once. (The plugin creates its schema on a connection that it has just
    opened, where no change of a row is pending; a pending change would
    become durable with it.) *)
Definition cursor_execute (stmt : option string) (params : list sqlval) (c : conn)
  : (exn + cursor) * conn :=
  driver_call c (fun c => if_open c
    match stmt with
    | None => (inl (TypeError "statement must be str, not None"), c)
    | Some s =>
        match parse_sql (dialect c) s with
        | None => (inl (DatabaseError "syntax error"), c)
        | Some q =>
            match run_sql q params (work c) with
            | inl e => (inl e, c)
            | inr (t, rows) =>
                (inr rows,
                 if is_ddl q then set_durable t (set_work t c) else set_work t c)
            end
        end
    end).

(** [cur.fetchone()]: the next row, or [None]. *)
Definition cursor_fetchone (cur : cursor) (c : conn)
  : (exn + (option row * cursor)) * conn :=
  driver_call c (fun c => (inr (hd_error cur, tl cur), c)).

(** [cur.close()] *)
Definition cursor_close (c : conn) : (exn + unit) * conn :=
  driver_call c (fun c => (inr tt, c)).

(** [conn.commit()] *)
Definition conn_commit (c : conn) : (exn + unit) * conn :=
  driver_call c (fun c => if_open c (inr tt, set_durable (work c) c)).

(** [conn.close()]: what was not committed is rolled back. *)
Definition conn_close (c : conn) : (exn + unit) * conn :=
  driver_call c (fun c => (inr tt, set_closed true (set_work (durable c) c))).

(** The DB-API module [self._sh.dbapi(db)]: its [paramstyle] and the
    outcome of its [connect] on the parsed parameters. *)
Record dbapi : Type := {
  paramstyle : string;
  connect : exn + conn
}.

(* ===================================================================== *)
(** ** The plugin instance and its world *)
(* ===================================================================== *)

(** The attributes of a [DbLog] instance. [_fdb_lock] and [_fdb] are
    [None] as long as [__init__] has not assigned them; a lock holds
    [true] while it is held. [_params] only feeds [connect] and is left
    out with the parsing of the [connect] argument. *)
Record DbLog : Type := {
  connected : bool;
  alive : option bool;
  _dump_cycle : Z;
  _buffer : list (string * list obs);
  _buffer_lock : bool;
  style : string;
  _fdb_lock : option bool;
  _fdb : option conn
}.

Definition set_connected (x : bool) (s : DbLog) : DbLog :=
  {| connected := x; alive := alive s; _dump_cycle := _dump_cycle s;
     _buffer := _buffer s; _buffer_lock := _buffer_lock s; style := style s;
     _fdb_lock := _fdb_lock s; _fdb := _fdb s |}.
Definition set_alive (x : option bool) (s : DbLog) : DbLog :=
  {| connected := connected s; alive := x; _dump_cycle := _dump_cycle s;
     _buffer := _buffer s; _buffer_lock := _buffer_lock s; style := style s;
     _fdb_lock := _fdb_lock s; _fdb := _fdb s |}.
Definition set_buffer (x : list (string * list obs)) (s : DbLog) : DbLog :=
  {| connected := connected s; alive := alive s; _dump_cycle := _dump_cycle s;
     _buffer := x; _buffer_lock := _buffer_lock s; style := style s;
     _fdb_lock := _fdb_lock s; _fdb := _fdb s |}.
Definition set_buffer_lock (x : bool) (s : DbLog) : DbLog :=
  {| connected := connected s; alive := alive s; _dump_cycle := _dump_cycle s;
     _buffer := _buffer s; _buffer_lock := x; style := style s;
     _fdb_lock := _fdb_lock s; _fdb := _fdb s |}.
Definition set_fdb_lock (x : option bool) (s : DbLog) : DbLog :=
  {| connected := connected s; alive := alive s; _dump_cycle := _dump_cycle s;
     _buffer := _buffer s; _buffer_lock := _buffer_lock s; style := style s;
     _fdb_lock := x; _fdb := _fdb s |}.
Definition set_fdb (x : option conn) (s : DbLog) : DbLog :=
  {| connected := connected s; alive := alive s; _dump_cycle := _dump_cycle s;
     _buffer := _buffer s; _buffer_lock := _buffer_lock s; style := style s;
     _fdb_lock := _fdb_lock s; _fdb := x |}.

(** What the plugin does to its surroundings, in order. *)
Inductive lock : Type := BufferLock | FdbLock.
Inductive level : Type := DEBUG | INFO | WARNING | ERROR.

(** The log messages, by their format string and arguments. *)
Inductive logmsg : Type :=
| MsgStyleNotSupported (style : string)
| MsgConnectFailed (e : exn)
| MsgConnected (style : string)
| MsgQueryFailed (n : string) (e : exn)
| MsgStartingDump
| MsgDumping (name : string) (id : option Z) (n : nat)
| MsgProblemUpdating (name : string) (e : exn).

(** Calls that reached the DB-API driver, whatever their outcome. *)
Inductive call : Type :=
| Connect
| Cursor
| Execute (stmt : option string) (params : list sqlval)
| Fetchone
| CursorClose
| Commit
| Close.

Inductive event : Type :=
| EvAcquire (l : lock)
| EvRelease (l : lock)
| EvLog (lv : level) (msg : logmsg)
| EvDriver (c : call)
| EvSchedule (name : string) (cycle prio : Z).

(** The instance, the host clock as read by [self._sh.now()], and the
    events so far, the most recent first. *)
Record world : Type := {
  self : DbLog;
  now : datetime;
  events : list event
}.

Definition on_self (f : DbLog -> DbLog) (w : world) : world :=
  {| self := f (self w); now := now w; events := events w |}.
Definition emit (e : event) (w : world) : world :=
  {| self := self w; now := now w; events := e :: events w |}.

(** The events in the order they happened. *)
Definition trace (w : world) : list event := rev (events w).

(* ===================================================================== *)
(** ** Computations *)
(* ===================================================================== *)

(** A Python call returns, raises, or blocks forever on a held lock. *)
Inductive outcome (A : Type) : Type :=
| Ret (a : A) (w : world)
| Raise (e : exn) (w : world)
| Hang (w : world).
Arguments Ret {A} a w.
Arguments Raise {A} e w.
Arguments Hang {A} w.

Definition M (A : Type) : Type := world -> outcome A.

Definition ret {A : Type} (a : A) : M A := fun w => Ret a w.
Definition raise {A : Type} (e : exn) : M A := fun w => Raise e w.
Definition bind {A B : Type} (m : M A) (k : A -> M B) : M B :=
  fun w => match m w with
           | Ret a w' => k a w'
           | Raise e w' => Raise e w'
           | Hang w' => Hang w'
           end.

(** [try: body / except Exception as e: handler e] *)
Definition try_except {A : Type} (body : M A) (handler : exn -> M A) : M A :=
  fun w => match body w with
           | Raise e w' => handler e w'
           | r => r
           end.

(** [try: body / finally: fin]: [fin] runs on both exits, and an exception
    of [fin] replaces the pending one. *)
Definition try_finally {A : Type} (body : M A) (fin : M unit) : M A :=
  fun w => match body w with
           | Ret a w' => match fin w' with
                         | Ret _ w'' => Ret a w''
                         | Raise e w'' => Raise e w''
                         | Hang w'' => Hang w''
                         end
           | Raise e w' => match fin w' with
                           | Ret _ w'' => Raise e w''
                           | Raise e' w'' => Raise e' w''
                           | Hang w'' => Hang w''
                           end
           | Hang w' => Hang w'
           end.

(** The world a call leaves behind. *)
Definition world_of {A : Type} (r : outcome A) : world :=
  match r with Ret _ w => w | Raise _ w => w | Hang w => w end.

End Model.

Arguments Ret {types A} a w.
Arguments Raise {types A} e w.
Arguments Hang {types A} w.

Declare Scope py_scope.
Delimit Scope py_scope with py.
Notation "x <- m ;; k" := (bind m (fun x => k))
  (at level 61, m at next level, right associativity) : py_scope.
Notation "m ;; k" := (bind m (fun _ => k))
  (at level 61, right associativity) : py_scope.

Section Plugin.
Context {types : Types} {clock : Clock} {builtins : Builtins}.
Local Open Scope py_scope.

Definition get_self : M DbLog := fun w => Ret (self w) w.
Definition modify (f : DbLog -> DbLog) : M unit := fun w => Ret tt (on_self f w).
Definition tell (e : event) : M unit := fun w => Ret tt (emit e w).
Definition log (lv : level) (msg : logmsg) : M unit := tell (EvLog lv msg).
Definition sh_now : M datetime := fun w => Ret (now w) w.
Definition lift {A : Type} (r : exn + A) : M A :=
  match r with inl e => raise e | inr a => ret a end.

(** [for x in l: body x] *)
Fixpoint for_each {A : Type} (l : list A) (body : A -> M unit) : M unit :=
  match l with
  | [] => ret tt
  | x :: l' => body x ;; for_each l' body
  end.

(** A loop that rebinds one local variable. *)
Fixpoint for_fold {A S : Type} (l : list A) (s : S) (body : S -> A -> M S) : M S :=
  match l with
  | [] => ret s
  | x :: l' => s' <- body s x ;; for_fold l' s' body
  end.

(** *** Locks *)

(** [self._buffer_lock.acquire()] / [.release()] *)
Definition buffer_lock_acquire : M unit :=
  s <- get_self ;;
  if _buffer_lock s then (fun w => Hang w)
  else modify (set_buffer_lock true) ;; tell (EvAcquire BufferLock).

Definition buffer_lock_release : M unit :=
  s <- get_self ;;
  if _buffer_lock s
  then modify (set_buffer_lock false) ;; tell (EvRelease BufferLock)
  else raise (RuntimeError "release unlocked lock").

(** [self._fdb_lock.acquire()] / [.release()] *)
Definition fdb_lock_acquire : M unit :=
  s <- get_self ;;
  match _fdb_lock s with
  | None => raise (AttributeError "_fdb_lock")
  | Some true => (fun w => Hang w)
  | Some false => modify (set_fdb_lock (Some true)) ;; tell (EvAcquire FdbLock)
  end.

Definition fdb_lock_release : M unit :=
  s <- get_self ;;
  match _fdb_lock s with
  | None => raise (AttributeError "_fdb_lock")
  | Some true => modify (set_fdb_lock (Some false)) ;; tell (EvRelease FdbLock)
  | Some false => raise (RuntimeError "release unlocked lock")
  end.

(** *** Calls into the driver through [self._fdb] *)

Definition on_fdb {A : Type} (cl : call) (op : conn -> (exn + A) * conn) : M A :=
  s <- get_self ;;
  match _fdb s with
  | None => raise (AttributeError "_fdb")
  | Some c =>
      tell (EvDriver cl) ;;
      modify (set_fdb (Some (snd (op c)))) ;;
      lift (fst (op c))
  end.

Definition fdb_cursor : M cursor := on_fdb Cursor conn_cursor.
Definition cur_execute (stmt : option string) (params : list sqlval) : M cursor :=
  on_fdb (Execute stmt params) (cursor_execute stmt params).
Definition cur_fetchone (cur : cursor) : M (option row * cursor) :=
  on_fdb Fetchone (cursor_fetchone cur).
Definition cur_close : M unit := on_fdb CursorClose cursor_close.
Definition fdb_commit : M unit := on_fdb Commit conn_commit.
Definition fdb_close : M unit := on_fdb Close conn_close.

(** *** [_execute] and [_fetchone] *)

(** [_execute(self, stmt, params, cur)]. The result is what
    [cur.execute] leaves in the cursor it ran on. *)
Definition _execute (stmt : string) (params : list sqlval) (cur : option cursor)
  : M cursor :=
  s <- get_self ;;
  let stmt := _format (style s) stmt in
  match cur with
  | None =>
      _ <- fdb_cursor ;;
      result <- cur_execute stmt params ;;
      cur_close ;;
      ret result
  | Some _ =>
      cur_execute stmt params
  end.

(** [_fetchone(self, stmt, params, cur)]: the argument [cur] is
    overwritten by a fresh cursor before it is used. *)
Definition _fetchone (stmt : string) (params : list sqlval) (cur : option cursor)
  : M (option row) :=
  cur <- fdb_cursor ;;
  cur <- _execute stmt params (Some cur) ;;
  r <- cur_fetchone cur ;;
  cur_close ;;
  ret (fst r).

(** [x[0]] on the result of [fetchone]. *)
Definition subscript0 (x : option row) : M (option Z) :=
  match x with
  | None => raise (TypeError "'NoneType' object is not subscriptable")
  | Some [] => raise IndexError
  | Some (v :: _) => ret v
  end.

(** [l[-1]] *)
Definition subscript_last {A : Type} (l : list A) : M A :=
  match List.rev l with
  | [] => raise IndexError
  | x :: _ => ret x
  end.

(** *** [__init__], [parse_item], [run] *)

(** [__init__(self, smarthome, db, connect, cycle)]: [api] is
    [smarthome.dbapi(db)], [cycle] is [int(cycle)]. *)
Definition __init__ (api : dbapi) (cycle : Z) : M unit :=
  modify (fun _ => {| connected := false; alive := None; _dump_cycle := cycle;
                      _buffer := []; _buffer_lock := false;
                      style := paramstyle api;
                      _fdb_lock := None; _fdb := None |}) ;;
  if negb (existsb (String.eqb (paramstyle api)) styles) then
    log ERROR (MsgStyleNotSupported (paramstyle api))
  else
    modify (set_fdb_lock (Some false)) ;;
    fdb_lock_acquire ;;
    tell (EvDriver Connect) ;;
    match connect api with
    | inl e =>
        log ERROR (MsgConnectFailed e) ;;
        fdb_lock_release
    | inr c =>
        modify (set_fdb (Some c)) ;;
        modify (set_connected true) ;;
        log INFO (MsgConnected (paramstyle api)) ;;
        _ <- fdb_cursor ;;
        for_each _setup (fun '(n, q) =>
          try_except (_ <- cur_execute (Some q) [] ;; ret tt)
                     (fun e => log WARNING (MsgQueryFailed n e))) ;;
        cur_close ;;
        fdb_lock_release ;;
        tell (EvSchedule "DbLog dump" cycle 5)
    end.

(** [parse_item(self, item)]: [true] when [update_item] is returned as
    the item's callback. *)
Definition parse_item (it : item) : M bool :=
  if existsb (String.eqb "dblog") (item_conf it) then
    modify (fun s => set_buffer (dict_set (item_id it) [] (_buffer s)) s) ;;
    ret true
  else ret false.

Definition run : M unit := modify (set_alive (Some true)).

(** *** [_timestamp] and [update_item] *)

(** [int(time.mktime(dt.timetuple())) * 1000 + int(dt.microsecond / 1000)] *)
Definition _timestamp (dt : datetime) : Z :=
  py_int (time_mktime (timetuple dt)) * 1000
  + py_int (py_truediv (microsecond dt) 1000).

(** [self._buffer[item]] *)
Definition buffer_get (name : string) : M (list obs) :=
  s <- get_self ;;
  match dict_get name (_buffer s) with
  | None => raise (KeyError name)
  | Some l => ret l
  end.

(** [update_item(self, item, caller, source, dest)]. The list object is
    looked up before the timestamp is taken, and the tuple is appended to
    it. *)
Definition update_item (it : item) : M unit :=
  vals <- (if String.eqb (item_type it) "num" then
             val_num <- lift (py_float (item_value it)) ;;
             ret (None, Some val_num, None)
           else if String.eqb (item_type it) "bool" then
             ret (None, None, Some (py_bool (item_value it)))
           else
             ret (Some (py_str (item_value it)), None, None)) ;;
  let '(val_str, val_num, val_bool) := vals in
  l <- buffer_get (item_id it) ;;
  dt <- sh_now ;;
  modify (fun s => set_buffer
            (dict_set (item_id it)
               (l ++ [{| o_time := _timestamp dt; o_str := val_str;
                         o_num := val_num; o_bool := val_bool |}])
               (_buffer s)) s).

(** *** [_dump] *)

(** Lines 150-159 of [_dump]: the id of an item name, created on first
    sight. *)
Definition resolve (name : string) : M (option Z) :=
  id <- _fetchone "SELECT id FROM item where name = ?;" [SText name] None ;;
  id <- match id with
        | None =>
            id <- _fetchone "SELECT MAX(id) FROM item;" [] None ;;
            cur <- fdb_cursor ;;
            m <- subscript0 id ;;
            cur <- _execute "INSERT INTO item(id, name) VALUES(?,?);"
                     [SInt (match m with None => 1 | Some m => m + 1 end); SText name]
                     (Some cur) ;;
            id <- _fetchone "SELECT id FROM item where name = ?;" [SText name]
                    (Some cur) ;;
            cur_close ;;
            ret id
        | Some _ => ret id
        end ;;
  subscript0 id.

(** Lines 149-176: what the [try] does for one item, once the connection
    lock is held, with the item's drained tuples. *)
Definition flush_locked (name : string) (tuples : list obs) : M unit :=
  id <- resolve name ;;
  log DEBUG (MsgDumping name id (length tuples)) ;;
  cur <- fdb_cursor ;;
  _ <- for_fold tuples cur (fun cur t =>
         _execute "INSERT INTO log VALUES (?,?,?,?,?);"
           [SInt (o_time t); sql_int id; sql_text (o_str t);
            sql_real (o_num t); sql_bool (o_bool t)]
           (Some cur)) ;;
  t <- subscript_last tuples ;;
  _ <- _execute
         "UPDATE item SET time = ?, val_str = ?, val_num = ?, val_bool = ? WHERE id = ?;"
         [SInt (o_time t); sql_text (o_str t); sql_real (o_num t);
          sql_bool (o_bool t); sql_int id]
         None ;;
  cur_close ;;
  fdb_commit.

(** Lines 147-176: the body of the [try]. *)
Definition flush_item (name : string) (tuples : list obs) : M unit :=
  fdb_lock_acquire ;;
  flush_locked name tuples.

(** Lines 140-143: take the list of an item out of the buffer and leave
    an empty one in its place, under the buffer lock. *)
Definition drain (name : string) : M (list obs) :=
  buffer_lock_acquire ;;
  tuples <- buffer_get name ;;
  modify (fun s => set_buffer (dict_set name [] (_buffer s)) s) ;;
  buffer_lock_release ;;
  ret tuples.

(** Lines 140-180: one round of the loop over [self._buffer]. *)
Definition dump_item (name : string) : M unit :=
  tuples <- drain name ;;
  match tuples with
  | [] => ret tt
  | _ :: _ =>
      try_finally
        (try_except (flush_item name tuples)
                    (fun e => log WARNING (MsgProblemUpdating name e)))
        fdb_lock_release
  end.

(** [_dump(self)]. The test of [self.connected] guards a [pass]. *)
Definition _dump : M unit :=
  s <- get_self ;;
  (if negb (connected s) then ret tt else ret tt) ;;
  log DEBUG MsgStartingDump ;;
  s <- get_self ;;
  for_each (dict_keys (_buffer s)) dump_item.

(** [stop(self)] *)
Definition stop : M unit :=
  modify (set_alive (Some false)) ;;
  _dump ;;
  fdb_lock_acquire ;;
  try_finally
    (try_except fdb_close (fun _ => ret tt))
    (modify (set_connected false) ;; fdb_lock_release).

(** *** Sessions

    What the host does with an instance after building it: the calls of
    the plugin's methods, and the passing of time. *)
Inductive op : Type :=
| OpParseItem (it : item)
| OpRun
| OpUpdateItem (it : item)
| OpDump
| OpStop
| OpClock (dt : datetime).

Definition exec_op (o : op) (w : world) : world :=
  match o with
  | OpParseItem it => world_of (parse_item it w)
  | OpRun => world_of (run w)
  | OpUpdateItem it => world_of (update_item it w)
  | OpDump => world_of (_dump w)
  | OpStop => world_of (stop w)
  | OpClock dt => {| self := self w; now := dt; events := events w |}
  end.

(** The world after [__init__] and the calls [ops], one after the other;
    a call that raises leaves the world as it was when it raised. *)
Definition session (api : dbapi) (cycle : Z) (ops : list op) (w : world) : world :=
  fold_left (fun w o => exec_op o w) ops (world_of (__init__ api cycle w)).

(** Exactly one of the three value fields of a tuple is set. *)
Definition one_field (o : obs) : bool :=
  match o_str o, o_num o, o_bool o with
  | Some _, None, None => true
  | None, Some _, None => true
  | None, None, Some _ => true
  | _, _, _ => false
  end.

End Plugin.

(* ===================================================================== *)
(** ** Vocabulary of the properties *)
(* ===================================================================== *)

Section Vocabulary.
Context {types : Types}.

(** Between two calls of the plugin's methods both locks exist and are
    free. *)
Definition locks_free (w : world) : Prop :=
  _buffer_lock (self w) = false /\ _fdb_lock (self w) = Some false.

(** [preserves P m]: whichever way [m] ends, [P] still holds. *)
Definition preserves (P : world -> Prop) {A : Type} (m : M A) : Prop :=
  forall w, P w -> P (world_of (m w)).

(** [total m]: [m] never blocks. *)
Definition total {A : Type} (m : M A) : Prop :=
  forall w, match m w with Hang _ => False | _ => True end.

(** [P] does not look at the events, or at what [f] changes. *)
Definition blind_to_events (P : world -> Prop) : Prop :=
  forall e w, P w -> P (emit e w).

Definition blind_to (P : world -> Prop) (f : DbLog -> DbLog) : Prop :=
  forall w, P w -> P (on_self f w).

(** Every tuple of every buffer has exactly one value field set. *)
Definition tuples_ok (d : list (string * list obs)) : Prop :=
  Forall (fun kv => Forall (fun o => one_field o = true) (snd kv)) d.

Definition buffer_ok (w : world) : Prop := tuples_ok (_buffer (self w)).

(** The three value fields of a tuple. *)
Definition fields (o : obs) : option string * option pyfloat * option bool :=
  (o_str o, o_num o, o_bool o).

(** The world after the drain of one item (lines 140-143). *)
Definition drained (name : string) (w : world) : world :=
  emit (EvRelease BufferLock)
    (on_self (set_buffer_lock false)
       (on_self (fun s => set_buffer (dict_set name [] (_buffer s)) s)
          (emit (EvAcquire BufferLock) (on_self (set_buffer_lock true) w)))).

(** The world after taking, and after giving back, the connection lock. *)
Definition fdb_locked (w : world) : world :=
  emit (EvAcquire FdbLock) (on_self (set_fdb_lock (Some true)) w).

Definition fdb_released (w : world) : world :=
  emit (EvRelease FdbLock) (on_self (set_fdb_lock (Some false)) w).

(** While the connection lock is held, the work on the connection leaves
    the buffer and both locks as they are. *)
Definition held (w0 w : world) : Prop :=
  _fdb_lock (self w) = Some true /\
  _buffer (self w) = _buffer (self w0) /\
  _buffer_lock (self w) = _buffer_lock (self w0).

(** Inside [__init__]: the connection lock is held and the buffer lock is
    free. *)
Definition during_init (w : world) : Prop :=
  _buffer_lock (self w) = false /\ _fdb_lock (self w) = Some true.

(** An instance that [__init__] left at its style check: its style is
    [sty], it has neither a connection nor a connection lock, and the
    buffer lock is free. *)
Definition unconnected (sty : string) (w : world) : Prop :=
  style (self w) = sty /\ _fdb (self w) = None /\
  _fdb_lock (self w) = None /\ _buffer_lock (self w) = false.

End Vocabulary.

(* ===================================================================== *)
(** ** The formatter as the specification words it *)
(* ===================================================================== *)

(** Printf style: each placeholder is replaced by the marker [%s]. *)
Fixpoint printf_markers (s : string) : string :=
  match s with
  | EmptyString => EmptyString
  | String a s' =>
      if Ascii.eqb a "?" then String "%" (String "s" (printf_markers s'))
      else String a (printf_markers s')
  end.

(** Numbered style: reading left to right, the placeholder met when [k-1]
    placeholders have been passed is replaced by [:k]. *)
Fixpoint numbered_markers (k : Z) (s : string) : string :=
  match s with
  | EmptyString => EmptyString
  | String a s' =>
      if Ascii.eqb a "?" then (":" ++ str_int k ++ numbered_markers (k + 1) s')%string
      else String a (numbered_markers k s')
  end.

(* ===================================================================== *)
(** ** A host for worked examples *)
(* ===================================================================== *)

(** Items hold integers, booleans or strings; floats are rationals; the
    local time zone is UTC. *)
Inductive pyval : Type :=
| PInt (z : Z)
| PBool (b : bool)
| PStr (s : string).

(** Days from 1970-01-01 to a date of the proleptic Gregorian calendar. *)
Definition days_from_civil (y m d : Z) : Z :=
  let y' := if m <=? 2 then y - 1 else y in
  let era := y' / 400 in
  let yoe := y' - era * 400 in
  let doy := (153 * (if 2 <? m then m - 3 else m + 9) + 2) / 5 + d - 1 in
  let doe := yoe * 365 + yoe / 4 - yoe / 100 + doy in
  era * 146097 + doe - 719468.

Definition utc_mktime (t : struct_time) : Z :=
  days_from_civil (tm_year t) (tm_mon t) (tm_mday t) * 86400
  + tm_hour t * 3600 + tm_min t * 60 + tm_sec t.

#[export] Instance utc_clock : Clock := {| mktime := utc_mktime |}.

#[export] Instance py_types : Types := {| value := pyval; pyfloat := Q |}.

#[export] Instance py_builtins : Builtins := {|
  py_float := fun v => match v with
                       | PInt z => inr (inject_Z z)
                       | PBool b => inr (if b then 1%Q else 0%Q)
                       | PStr _ => inl (ValueError "could not convert string to float")
                       end;
  py_bool := fun v => match v with
                      | PInt z => negb (z =? 0)
                      | PBool b => b
                      | PStr s => negb (String.eqb s "")
                      end;
  py_str := fun v => match v with
                     | PInt z => str_int z
                     | PBool b => if b then "True" else "False"
                     | PStr s => s
                     end
|}.

(** The host clock at 2021-01-01T00:00:00.250. *)
Definition new_year : datetime :=
  {| year := 2021; month := 1; day := 1; hour := 0; minute := 0; second := 0;
     microsecond := 250000; dst := None |}.

(** The world in which an instance is about to be built: the attributes
    are placeholders that [__init__] overwrites. *)
Definition boot : world :=
  {| self := {| connected := false; alive := None; _dump_cycle := 0;
                _buffer := []; _buffer_lock := false; style := "";
                _fdb_lock := None; _fdb := None |};
     now := new_year;
     events := [] |}.

(** A numeric item that opted in with [dblog] in its configuration. *)
Definition temp1 : item :=
  {| item_id := "temp1"; item_type := "num"; item_value := PInt 21;
     item_conf := ["dblog"] |}.

(* ===================================================================== *)
(** ** The flush as the specification words it *)
(* ===================================================================== *)

Section FlushSpec.
Context {types : Types}.

(** [resolve(name)]: the id stored for the name if there is one; else
    [1] on an empty table and [max + 1] otherwise, with a new row for the
    name. *)
Definition lookup_id (name : string) (items : list item_row) : option Z :=
  option_map r_id (find (name_is name) items).

Definition next_id (items : list item_row) : Z :=
  match items with
  | [] => 1
  | r :: rest => fold_left Z.max (map r_id rest) (r_id r) + 1
  end.

Definition resolve_spec (name : string) (items : list item_row)
  : Z * list item_row :=
  match lookup_id name items with
  | Some i => (i, items)
  | None => (next_id items, items ++ [new_item_row (next_id items) name])
  end.

(** The [log] row of an observation of the item with id [i]:
    [(timestamp, item_id, val_str, val_num, val_bool)]. *)
Definition log_row_of (i : Z) (t : obs) : log_row :=
  {| l_time := o_time t; l_item_id := i; l_val_str := o_str t;
     l_val_num := o_num t; l_val_bool := o_bool t |}.

(** The snapshot of the item with id [i] set to an observation. *)
Definition snapshot_of (i : Z) (t : obs) (r : item_row) : item_row :=
  set_snapshot i (o_time t) (o_str t) (o_num t) (o_bool t) r.

(** One item's flush on the two tables: one [log] row per observation, in
    order, and the snapshot of the last one. *)
Definition flush_tables (name : string) (tuples : list obs)
  (tb : list item_row * list log_row) : list item_row * list log_row :=
  match tuples with
  | [] => tb
  | t0 :: _ =>
      let '(i, items) := resolve_spec name (fst tb) in
      (map (snapshot_of i (last tuples t0)) items,
       snd tb ++ map (log_row_of i) tuples)
  end.

(** A whole flush cycle: the items in the order of the buffer. *)
Definition flush_all (buf : list (string * list obs))
  (tb : list item_row * list log_row) : list item_row * list log_row :=
  fold_left (fun tb kv => flush_tables (fst kv) (snd kv) tb) buf tb.

(** An instance on a backend that answers every call: both tables exist,
    the connection is open and speaks the instance's parameter style, and
    no failure is scheduled. The buffer lock is free; the connection lock
    exists, held (as inside a flush) or not. *)
Definition answering (w : world) (c : conn)
  (items : list item_row) (logs : list log_row) : Prop :=
  _buffer_lock (self w) = false /\
  _fdb_lock (self w) <> None /\
  In (style (self w)) styles /\
  _fdb (self w) = Some c /\
  dialect c = style (self w) /\
  closed c = false /\
  faults c = [] /\
  item_tbl (work c) = Some items /\
  log_tbl (work c) = Some logs.

(** The same between two calls of the plugin's methods: both locks are
    free. *)
Definition healthy (w : world) (c : conn)
  (items : list item_row) (logs : list log_row) : Prop :=
  _buffer_lock (self w) = false /\
  _fdb_lock (self w) = Some false /\
  In (style (self w)) styles /\
  _fdb (self w) = Some c /\
  dialect c = style (self w) /\
  closed c = false /\
  faults c = [] /\
  item_tbl (work c) = Some items /\
  log_tbl (work c) = Some logs.

(** *** Worlds and events written out

    Events are listed the most recent first, as in [events]. *)

(** A connection that answers, and a world on it, written out. *)
Definition hconn (sty : string) (items : list item_row) (logs : list log_row)
  (i1 i2 : bool) (du : tables) : conn :=
  {| dialect := sty;
     work := {| item_tbl := Some items; log_tbl := Some logs;
                log_item_id_idx := i1; item_name_idx := i2 |};
     durable := du; closed := false; faults := [] |}.

Definition hworld (cn : bool) (al : option bool) (cy : Z)
  (buf : list (string * list obs)) (fl : bool) (sty : string) (c : conn)
  (nw : datetime) (ev : list event) : world :=
  {| self := {| connected := cn; alive := al; _dump_cycle := cy; _buffer := buf;
                _buffer_lock := false; style := sty; _fdb_lock := Some fl;
                _fdb := Some c |};
     now := nw; events := ev |}.

(** [SELECT id FROM item where name = ?], first row. *)
Definition select_id (name : string) (items : list item_row) : option row :=
  hd_error (map (fun r => [Some (r_id r)]) (filter (name_is name) items)).

Definition select_stmt : string := "SELECT id FROM item where name = ?;".

Definition max_stmt : string := "SELECT MAX(id) FROM item;".

Definition item_stmt : string := "INSERT INTO item(id, name) VALUES(?,?);".

Definition insert_stmt : string := "INSERT INTO log VALUES (?,?,?,?,?);".

Definition update_stmt : string :=
  "UPDATE item SET time = ?, val_str = ?, val_num = ?, val_bool = ? WHERE id = ?;".

(** The parameters of the [INSERT INTO log] of one observation, and of
    the [UPDATE item] of the last one. *)
Definition insert_params (i : option Z) (t : obs) : list sqlval :=
  [SInt (o_time t); sql_int i; sql_text (o_str t); sql_real (o_num t);
   sql_bool (o_bool t)].

Definition update_params (i : option Z) (t : obs) : list sqlval :=
  [SInt (o_time t); sql_text (o_str t); sql_real (o_num t);
   sql_bool (o_bool t); sql_int i].

(** The driver calls of one [_fetchone], the most recent first. *)
Definition fetchone_events (sty : string) (stmt : string)
  (params : list sqlval) : list event :=
  [EvDriver CursorClose; EvDriver Fetchone;
   EvDriver (Execute (_format sty stmt) params); EvDriver Cursor].

(** The driver calls of [resolve], the most recent first. *)
Definition resolve_events (sty : string) (name : string)
  (items : list item_row) : list event :=
  match lookup_id name items with
  | Some _ => fetchone_events sty select_stmt [SText name]
  | None =>
      EvDriver CursorClose
      :: fetchone_events sty select_stmt [SText name]
      ++ EvDriver (Execute (_format sty item_stmt)
                     [SInt (next_id items); SText name])
      :: EvDriver Cursor
      :: fetchone_events sty max_stmt []
      ++ fetchone_events sty select_stmt [SText name]
  end.

(** The driver calls of the insert loop, the most recent first. *)
Definition insert_events (sty : string) (i : Z) (tuples : list obs)
  : list event :=
  rev (map (fun t => EvDriver (Execute (_format sty insert_stmt)
                                 (insert_params (Some i) t))) tuples).

(** The events of one item's work under the connection lock, the most
    recent first: the commit, the closing of the cursor, the update with
    its own cursor, the inserts, the opening of the cursor, the debug
    line, and the resolution of the id. *)
Definition flush_events (sty : string) (name : string) (tuples : list obs)
  (items : list item_row) : list event :=
  let i := fst (resolve_spec name items) in
  match tuples with
  | [] => []
  | t0 :: _ =>
      EvDriver Commit :: EvDriver CursorClose
      :: EvDriver CursorClose
      :: EvDriver (Execute (_format sty update_stmt)
                     (update_params (Some i) (last tuples t0)))
      :: EvDriver Cursor
      :: insert_events sty i tuples
      ++ EvDriver Cursor
      :: EvLog DEBUG (MsgDumping name (Some i) (length tuples))
      :: resolve_events sty name items
  end.

Definition tables_of (i1 i2 : bool) (items : list item_row)
  (logs : list log_row) : tables :=
  {| item_tbl := Some items; log_tbl := Some logs;
     log_item_id_idx := i1; item_name_idx := i2 |}.

(** The events of one round of the loop for an item with tuples. *)
Definition round_events (sty : string) (name : string) (tuples : list obs)
  (items : list item_row) : list event :=
  match tuples with
  | [] => [EvRelease BufferLock; EvAcquire BufferLock]
  | _ :: _ =>
      EvRelease FdbLock
      :: flush_events sty name tuples items
      ++ [EvAcquire FdbLock; EvRelease BufferLock; EvAcquire BufferLock]
  end.

(** The buffer once [_dump] has been through the given keys. *)
Definition cleared (ks : list string) (buf : list (string * list obs))
  : list (string * list obs) :=
  fold_left (fun b k => dict_set k [] b) ks buf.

(** Some buffer holds a tuple. *)
Definition any_tuples (buf : list (string * list obs)) : bool :=
  existsb (fun kv => match snd kv with [] => false | _ :: _ => true end) buf.

(** Number of rows of the [item] table that carry a name. *)
Definition rows_named (name : string) (items : list item_row) : nat :=
  length (filter (name_is name) items).

End FlushSpec.

(* ===================================================================== *)
(** ** Threads: the buffer under concurrent callers *)
(* ===================================================================== *)

(** [update_item] runs in the threads of the host's item events while
    [_dump] runs in the scheduler's thread. The lists of the buffer are
    shared objects: they live in a heap, [self._buffer] maps an item to the
    address of its list, and a thread keeps the address it has loaded in a
    local. A thread can be preempted between any two accesses to the
    shared objects; each instruction below is one such access. *)

Section Threads.
Context {types : Types}.

Inductive instr : Type :=
| IAcquire                 (* self._buffer_lock.acquire() *)
| IRelease                 (* self._buffer_lock.release() *)
| ILoad (name : string)    (* local = self._buffer[item] *)
| IStoreNew (name : string) (* self._buffer[item] = [] *)
| IAppend (o : obs)        (* local.append(o) *)
| IFlush (name : string).  (* if len(local): ... for t in local: INSERT INTO log *)

(** Line 129 of [update_item]: the receiver [self._buffer[item]] of
    [.append] is evaluated first; then the argument, which calls
    [self._sh.now()] and [self._timestamp]; then the list is appended to.
    No lock is taken. *)
Definition update_item_code (name : string) (o : obs) : list instr :=
  [ILoad name; IAppend o].

(** Lines 139-176 of [_dump], for the keys of the buffer: the swap of the
    list under the buffer lock, then the flush of what was taken. *)
Definition dump_code (names : list string) : list instr :=
  flat_map (fun n => [IAcquire; ILoad n; IStoreNew n; IRelease; IFlush n]) names.

Record thread : Type := {
  code : list instr;
  local : option nat
}.

Record shared : Type := {
  heap : list (list obs);
  buffer_of : list (string * nat);
  lock_owner : option nat;
  logged : list (string * obs)   (* rows handed to the database, in order *)
}.

(** [h[a].append(o)] *)
Fixpoint heap_append (a : nat) (o : obs) (h : list (list obs)) : list (list obs) :=
  match h, a with
  | [], _ => []
  | l :: h', O => (l ++ [o]) :: h'
  | l :: h', S a' => l :: heap_append a' o h'
  end.

(** One instruction of thread [tid]; [None] when the thread cannot move:
    it waits for the lock, or the access is an error. *)
Definition exec (tid : nat) (i : instr) (s : shared) (loc : option nat)
  : option (shared * option nat) :=
  match i with
  | IAcquire =>
      match lock_owner s with
      | Some _ => None
      | None => Some ({| heap := heap s; buffer_of := buffer_of s;
                         lock_owner := Some tid; logged := logged s |}, loc)
      end
  | IRelease =>
      Some ({| heap := heap s; buffer_of := buffer_of s;
               lock_owner := None; logged := logged s |}, loc)
  | ILoad name =>
      match dict_get name (buffer_of s) with
      | Some a => Some (s, Some a)
      | None => None
      end
  | IStoreNew name =>
      Some ({| heap := heap s ++ [[]];
               buffer_of := dict_set name (length (heap s)) (buffer_of s);
               lock_owner := lock_owner s; logged := logged s |}, loc)
  | IAppend o =>
      match loc with
      | Some a => Some ({| heap := heap_append a o (heap s);
                           buffer_of := buffer_of s;
                           lock_owner := lock_owner s; logged := logged s |}, loc)
      | None => None
      end
  | IFlush name =>
      match loc with
      | Some a => Some ({| heap := heap s; buffer_of := buffer_of s;
                           lock_owner := lock_owner s;
                           logged := logged s
                                     ++ map (pair name) (nth a (heap s) []) |}, loc)
      | None => None
      end
  end.

(** Thread [tid] of [ts] takes its next instruction. *)
Fixpoint step_thread (tid n : nat) (s : shared) (ts : list thread)
  : option (shared * list thread) :=
  match ts, n with
  | [], _ => None
  | t :: ts', O =>
      match code t with
      | [] => None
      | i :: rest =>
          match exec tid i s (local t) with
          | Some (s', loc) => Some (s', {| code := rest; local := loc |} :: ts')
          | None => None
          end
      end
  | t :: ts', S n' =>
      match step_thread tid n' s ts' with
      | Some (s', ts'') => Some (s', t :: ts'')
      | None => None
      end
  end.

(** A schedule names the thread that moves at each step. *)
Fixpoint run_schedule (sched : list nat) (s : shared) (ts : list thread)
  : option (shared * list thread) :=
  match sched with
  | [] => Some (s, ts)
  | tid :: sched' =>
      match step_thread tid tid s ts with
      | Some (s', ts') => run_schedule sched' s' ts'
      | None => None
      end
  end.

Definition finished (ts : list thread) : bool :=
  forallb (fun t => match code t with [] => true | _ => false end) ts.

(** The list an item's buffer points to. *)
Definition buffered (name : string) (s : shared) : list obs :=
  match dict_get name (buffer_of s) with
  | Some a => nth a (heap s) []
  | None => []
  end.

End Threads.

(* ===================================================================== *)
(** ** Worked examples: drivers and sessions *)
(* ===================================================================== *)

(** A database in which nothing has been created yet, behind a driver of
    the given parameter style and with the given schedule of failures. *)
Definition no_tables : tables :=
  {| item_tbl := None; log_tbl := None;
     log_item_id_idx := false; item_name_idx := false |}.

(** The schema of [_setup], with both tables empty. *)
Definition empty_schema : tables :=
  {| item_tbl := Some []; log_tbl := Some [];
     log_item_id_idx := true; item_name_idx := true |}.

Definition fresh_db (sty : string) (fl : list (option string)) : conn :=
  {| dialect := sty; work := no_tables; durable := no_tables;
     closed := false; faults := fl |}.

(** A driver with [paramstyle = 'qmark'] that answers every call. *)
Definition qmark_api : dbapi :=
  {| paramstyle := "qmark"; connect := inr (fresh_db "qmark" []) |}.


(** A driver of a style the plugin does not know. *)
Definition pyformat_api : dbapi :=
  {| paramstyle := "pyformat"; connect := inr (fresh_db "pyformat" []) |}.

Definition at_second (s : Z) : datetime :=
  {| year := 2021; month := 1; day := 1; hour := 0; minute := 0; second := s;
     microsecond := 250000; dst := None |}.

(** [temp1] is registered and updated three times, a second apart. *)
Definition three_updates : list op :=
  [ OpParseItem temp1;
    OpUpdateItem temp1;
    OpClock (at_second 1); OpUpdateItem temp1;
    OpClock (at_second 2); OpUpdateItem temp1 ].

Definition reading (ts : Z) : obs :=
  {| o_time := ts; o_str := None; o_num := Some (inject_Z 21); o_bool := None |}.

(* ===================================================================== *)
(** ** The connection parameters of [__init__] (lines 52-64) *)
(* ===================================================================== *)

(** [s.partition(sep)] for a one-character [sep]: the text before the
    first [sep], [sep] itself and the text after it; the whole string and
    two empty strings when [sep] does not occur. *)
Fixpoint str_partition (sep : ascii) (s : string) : string * string * string :=
  match s with
  | EmptyString => (EmptyString, EmptyString, EmptyString)
  | String a s' =>
      if Ascii.eqb a sep then (EmptyString, String sep EmptyString, s')
      else let '(h, m, t) := str_partition sep s' in (String a h, m, t)
  end.

(** [int(s)] and [float(s)] on a string: the number, or [None] when the
    call raises. *)
Class Parsers {types : Types} : Type := {
  int_of_str : string -> option Z;
  float_of_str : string -> option pyfloat
}.

Section ConnectParams.
Context {types : Types} {parsers : Parsers}.

(** A value of [self._params]. *)
Inductive param : Type :=
| ParInt (z : Z)
| ParFloat (f : pyfloat)
| ParStr (s : string).

(** The loop [for t in int, float, str] with its bare [except]: the first
    conversion that does not raise gives the value; [str] never raises. *)
Definition coerce (value : string) : param :=
  match int_of_str value with
  | Some z => ParInt z
  | None =>
      match float_of_str value with
      | Some f => ParFloat f
      | None => ParStr value
      end
  end.

(** [connect] is a list of arguments, or one argument that is wrapped in a
    list. *)
Definition connect_list (connect : string + list string) : list string :=
  match connect with
  | inl arg => [arg]
  | inr args => args
  end.

(** [self._params] after the loop over [connect]. *)
Definition parse_connect (connect : string + list string)
  : list (string * param) :=
  fold_left
    (fun params arg =>
       let '(key, _, value) := str_partition ":" arg in
       dict_set key (coerce value) params)
    (connect_list connect) [].

(** The key and the text of the value of one argument. *)
Definition arg_key (arg : string) : string :=
  fst (fst (str_partition ":" arg)).

Definition arg_value (arg : string) : string :=
  snd (str_partition ":" arg).

End ConnectParams.

(** Parsers for the worked examples: [int] reads a plain decimal literal
    with an optional minus sign and raises on everything else, the empty
    string included; [float] reads these literals and no others. *)
Definition decimal_int (s : string) : option Z :=
  option_map Z.of_int (NilZero.int_of_string s).

#[export] Instance decimal_parsers : Parsers := {|
  int_of_str := decimal_int;
  float_of_str := fun s => option_map inject_Z (decimal_int s)
|}.

Section SetupVocabulary.
Context {types : Types}.




(** A call into the driver is the most recent event. *)
Definition last_call (cl : call) (w : world) : Prop :=
  exists rest, events w = EvDriver cl :: rest.

(** The world in which [__init__] asks for its cursor, and the world
    after that call. *)
Definition init_connected (api : dbapi) (cycle : Z) (c : conn) (w0 : world)
  (ev : list event) : world :=
  {| self := {| connected := true; alive := None; _dump_cycle := cycle;
                _buffer := []; _buffer_lock := false; style := paramstyle api;
                _fdb_lock := Some true; _fdb := Some c |};
     now := now w0;
     events := ev ++ [ EvLog INFO (MsgConnected (paramstyle api));
                       EvDriver Connect; EvAcquire FdbLock ] ++ events w0 |}.

(** The setup loop and what follows it in [__init__]. *)
Definition setup_loop : M unit :=
  for_each _setup (fun '(n, q) =>
    try_except (bind (cur_execute (Some q) []) (fun _ => ret tt))
               (fun e => log WARNING (MsgQueryFailed n e))).

(** During the setup the connection is there, the instance is connected
    and holds the connection lock. *)
Definition in_setup (w : world) : Prop :=
  _fdb (self w) <> None /\ connected (self w) = true /\ during_init w.

(** The fields that a buffered tuple and a row of the [log] table
    share. *)
Definition obs_fields (t : obs) : Z * option string * option pyfloat * option bool :=
  (o_time t, o_str t, o_num t, o_bool t).

Definition log_fields (r : log_row) : Z * option string * option pyfloat * option bool :=
  (l_time r, l_val_str r, l_val_num r, l_val_bool r).

End SetupVocabulary.

(* ===================================================================== *)
(** ** More worked examples *)
(* ===================================================================== *)

(** A driver whose [connect] raises. *)
Definition down_api : dbapi :=
  {| paramstyle := "qmark";
     connect := inl (DatabaseError "unable to open database file") |}.

(** A driver with [paramstyle = 'numeric'] that answers every call. *)
Definition numeric_api : dbapi :=
  {| paramstyle := "numeric"; connect := inr (fresh_db "numeric" []) |}.

(** A driver that refuses the first statement of the setup. *)
Definition busy_api : dbapi :=
  {| paramstyle := "qmark";
     connect := inr (fresh_db "qmark" [None; Some "database is locked"]) |}.

(** A driver that answers the six calls of [__init__] and the
    twenty-three calls of the flush of three tuples of a new item that come
    before the commit, and fails at the commit. *)
Definition commit_fails_api : dbapi :=
  {| paramstyle := "qmark";
     connect := inr (fresh_db "qmark" (repeat None 29 ++ [Some "disk full"])) |}.

(** An item that did not opt in, and a boolean item that did. *)
Definition hall : item :=
  {| item_id := "hall"; item_type := "str"; item_value := PStr "on";
     item_conf := ["knx_dpt"] |}.

Definition door : item :=
  {| item_id := "door"; item_type := "bool"; item_value := PBool true;
     item_conf := ["dblog"] |}.

(** After the three readings of [temp1] have been flushed, [door] is
    registered; then both items are updated. *)
Definition two_items : list op :=
  three_updates
  ++ [ OpDump; OpParseItem door; OpClock (at_second 3);
       OpUpdateItem door; OpUpdateItem temp1 ].

Definition temp1_row : item_row :=
  {| r_id := 1; r_name := "temp1"; r_time := Some 1609459202250;
     r_val_str := None; r_val_num := Some (inject_Z 21); r_val_bool := None |}.

Definition temp1_logs : list log_row :=
  [ log_row_of 1 (reading 1609459200250);
    log_row_of 1 (reading 1609459201250);
    log_row_of 1 (reading 1609459202250) ].

(** The connection after the first flush of [two_items]: the row and the
    three log rows of [temp1], committed. *)
Definition two_items_conn : conn :=
  hconn "qmark" [temp1_row] temp1_logs true true
    {| item_tbl := Some [temp1_row]; log_tbl := Some temp1_logs;
       log_item_id_idx := true; item_name_idx := true |}.

Definition opened : obs :=
  {| o_time := 1609459203250; o_str := None; o_num := None; o_bool := Some true |}.

(* ===================================================================== *)
(** * Properties *)
(* ===================================================================== *)

(** ** The statement formatter *)

Section Formatter.

Lemma numeric_loop_step (stmt : string) (cnt : Z) :
  numeric_loop stmt cnt =
  if str_contains "?" stmt
  then numeric_loop (str_replace "?" (":" ++ str_int cnt) (Some 1%nat) stmt) (cnt + 1)
  else stmt.
Proof.
  funelim (numeric_loop stmt cnt);
    match goal with E : str_contains _ _ = _ |- _ => rewrite E end; reflexivity.
Qed.

Lemma str_app_assoc (a b c : string) : ((a ++ b) ++ c = a ++ (b ++ c))%string.
Proof. induction a as [|x a IH]; simpl; [reflexivity|]. now rewrite IH. Qed.

Lemma str_count_app (c : ascii) (s t : string) :
  str_count c (s ++ t) = (str_count c s + str_count c t)%nat.
Proof.
  induction s as [|a s IH]; simpl; [reflexivity|].
  destruct (Ascii.eqb a c); rewrite IH; reflexivity.
Qed.

Lemma str_contains_count (c : ascii) (s : string) :
  str_contains c s = negb (Nat.eqb (str_count c s) 0).
Proof.
  induction s as [|a s IH]; simpl; [reflexivity|].
  destruct (Ascii.eqb a c); [reflexivity | exact IH].
Qed.

Lemma str_replace_zero (c : ascii) (new s : string) :
  str_replace c new (Some O) s = s.
Proof.
  induction s as [|a s IH]; simpl; [reflexivity|].
  destruct (Ascii.eqb a c); [reflexivity|]. now rewrite IH.
Qed.

(** A prefix without the character is skipped by [replace]. *)
Lemma str_replace_skip (c : ascii) (new : string) (n : option nat) (p s : string) :
  str_count c p = O ->
  str_replace c new n (p ++ s) = (p ++ str_replace c new n s)%string.
Proof.
  induction p as [|a p IH]; simpl; [reflexivity|].
  destruct (Ascii.eqb a c); [discriminate|]. intros Hp. now rewrite IH.
Qed.

Lemma str_int_no_qmark (z : Z) : str_count "?" (str_int z) = O.
Proof.
  assert (Hu : forall d, str_count "?" (NilEmpty.string_of_uint d) = O)
    by (induction d; simpl; auto).
  assert (Hz : forall d, str_count "?" (NilZero.string_of_uint d) = O)
    by (destruct d; try reflexivity; apply (Hu (_ _))).
  unfold str_int, NilZero.string_of_int.
  destruct (Z.to_int z); simpl; apply Hz.
Qed.

Lemma numbered_markers_clean (k : Z) (s : string) :
  str_count "?" s = O -> numbered_markers k s = s.
Proof.
  revert k; induction s as [|a s IH]; intros k; simpl; [reflexivity|].
  destruct (Ascii.eqb a "?"); [discriminate|]. intros Hs. now rewrite IH.
Qed.

(** The loop, started behind a prefix that holds no placeholder, numbers
    the placeholders of the rest from left to right. *)
Lemma numeric_loop_numbers (n : nat) :
  forall (p s : string) (k : Z),
    str_count "?" s = n -> str_count "?" p = O ->
    numeric_loop (p ++ s) k = (p ++ numbered_markers k s)%string.
Proof.
  induction n as [|n IH]; intros p s k Hs Hp.
  - rewrite numeric_loop_step, str_contains_count, str_count_app, Hs, Hp.
    simpl. now rewrite numbered_markers_clean.
  - rewrite numeric_loop_step, str_contains_count, str_count_app, Hs, Hp.
    simpl negb. cbv iota.
    revert p Hp. induction s as [|a s IHs]; intros p Hp; [discriminate|].
    simpl in Hs. simpl numbered_markers.
    destruct (Ascii.eqb a "?") eqn:Ea.
    + injection Hs as Hs.
      rewrite str_replace_skip by assumption.
      simpl. rewrite Ea, str_replace_zero.
      replace (p ++ String ":" (str_int k ++ s))%string
        with ((p ++ ":" ++ str_int k) ++ s)%string
        by (rewrite !str_app_assoc; reflexivity).
      rewrite IH; [rewrite !str_app_assoc; reflexivity | assumption |].
      rewrite !str_count_app, Hp, str_int_no_qmark. reflexivity.
    + replace (p ++ String a s)%string with ((p ++ String a "") ++ s)%string
        by (rewrite str_app_assoc; reflexivity).
      rewrite IHs; [rewrite str_app_assoc; reflexivity | assumption |].
      rewrite str_count_app, Hp. simpl. now rewrite Ea.
Qed.

Lemma str_replace_all_printf (s : string) :
  str_replace "?" "%s" None s = printf_markers s.
Proof.
  induction s as [|a s IH]; simpl; [reflexivity|].
  destruct (Ascii.eqb a "?"); now rewrite IH.
Qed.

(** C6. [_format] is a function of the style and the statement alone.
    With style [qmark] the statement comes back unchanged; with [format]
    every [?] becomes [%s]; with [numeric] the k-th [?] from the left
    becomes [:k]. On [INSERT INTO t VALUES (?,?,?)] the three styles give
    the statement itself, [(%s,%s,%s)] and [(:1,:2,:3)]. *)
Theorem format_styles (stmt : string) :
  _format "qmark" stmt = Some stmt /\
  _format "format" stmt = Some (printf_markers stmt) /\
  _format "numeric" stmt = Some (numbered_markers 1 stmt) /\
  _format "qmark" "INSERT INTO t VALUES (?,?,?)"
    = Some "INSERT INTO t VALUES (?,?,?)" /\
  _format "format" "INSERT INTO t VALUES (?,?,?)"
    = Some "INSERT INTO t VALUES (%s,%s,%s)" /\
  _format "numeric" "INSERT INTO t VALUES (?,?,?)"
    = Some "INSERT INTO t VALUES (:1,:2,:3)".
Proof.
  repeat split; try reflexivity.
  - unfold _format; simpl. now rewrite str_replace_all_printf.
  - unfold _format; simpl.
    pose proof (numeric_loop_numbers _ "" stmt 1 eq_refl eq_refl) as E.
    change ("" ++ stmt)%string with stmt in E.
    change ("" ++ numbered_markers 1 stmt)%string with (numbered_markers 1 stmt) in E.
    now rewrite E.
Qed.

(** Outside the three styles [_format] falls off its chain of tests. *)
Lemma format_unsupported_style (sty stmt : string) :
  ~ In sty styles -> _format sty stmt = None.
Proof.
  intros Hn. unfold _format.
  destruct (String.eqb_spec sty "qmark") as [->|_]; [exfalso; apply Hn; simpl; tauto|].
  destruct (String.eqb_spec sty "format") as [->|_]; [exfalso; apply Hn; simpl; tauto|].
  destruct (String.eqb_spec sty "numeric") as [->|_]; [exfalso; apply Hn; simpl; tauto|].
  reflexivity.
Qed.

End Formatter.

(** ** Timestamps *)

Section Timestamp.
Context {clock : Clock}.

Lemma py_int_whole (z : Z) : py_int (inject_Z z) = z.
Proof. unfold py_int; simpl. apply Z.quot_1_r. Qed.

Lemma py_truediv_1000 (m : Z) : py_truediv m 1000 = (m * 1 # 1000)%Q.
Proof. reflexivity. Qed.

Lemma py_int_millis (m : Z) : 0 <= m -> py_int (py_truediv m 1000) = m / 1000.
Proof.
  intros Hm. rewrite py_truediv_1000. unfold py_int; simpl.
  rewrite Z.mul_1_r. apply Z.quot_div_nonneg; lia.
Qed.

(** C7. For a datetime [dt] (whose [microsecond] is not negative),
    [_timestamp dt] is [floor(epoch_seconds) * 1000 + floor(microsecond / 1000)],
    where [epoch_seconds] is [time.mktime(dt.timetuple())]: whole
    milliseconds since the epoch. At a quarter of a second past a whole
    second the result is [epoch_seconds * 1000 + 250]. *)
Theorem timestamp_epoch_millis (dt : datetime) :
  0 <= microsecond dt ->
  _timestamp dt
    = Qfloor (time_mktime (timetuple dt)) * 1000
      + Qfloor (py_truediv (microsecond dt) 1000)
  /\ _timestamp dt = mktime (timetuple dt) * 1000 + microsecond dt / 1000
  /\ (microsecond dt = 250000 ->
      _timestamp dt = mktime (timetuple dt) * 1000 + 250).
Proof.
  intros Hm.
  assert (E : _timestamp dt = mktime (timetuple dt) * 1000 + microsecond dt / 1000).
  { unfold _timestamp, time_mktime. now rewrite py_int_whole, py_int_millis. }
  split; [|split].
  - rewrite E. unfold time_mktime. rewrite Qfloor_Z, py_truediv_1000.
    unfold Qfloor. now rewrite Z.mul_1_r.
  - exact E.
  - intros Hq. rewrite E, Hq. reflexivity.
Qed.

End Timestamp.

(** The host time 2021-01-01T00:00:00.250 on a host whose local time is
    UTC. *)
Lemma timestamp_epoch_millis_witness :
  let dt := {| year := 2021; month := 1; day := 1; hour := 0; minute := 0;
               second := 0; microsecond := 250000; dst := None |} in
  0 <= microsecond dt /\
  _timestamp dt = 1609459200 * 1000 + 250.
Proof.
  intros dt. split; [vm_compute; discriminate|].
  destruct (timestamp_epoch_millis dt) as (_ & _ & E); [vm_compute; discriminate|].
  exact (E eq_refl).
Defined.

(** ** Running computations, and what they leave untouched *)

Section Frames.
Context {types : Types} {clock : Clock} {builtins : Builtins}.

Lemma bind_ret {A B : Type} (m : M A) (k : A -> M B) (w w' : world) (a : A) :
  m w = Ret a w' -> bind m k w = k a w'.
Proof. unfold bind; intros ->; reflexivity. Qed.

Lemma bind_raise {A B : Type} (m : M A) (k : A -> M B) (w w' : world) (e : exn) :
  m w = Raise e w' -> bind m k w = Raise e w'.
Proof. unfold bind; intros ->; reflexivity. Qed.

Section Preserves.
Variable P : world -> Prop.

Lemma preserves_ret {A : Type} (a : A) : preserves P (ret a).
Proof. intros w Hw; exact Hw. Qed.

Lemma preserves_raise {A : Type} (e : exn) : preserves P (@raise _ A e).
Proof. intros w Hw; exact Hw. Qed.

Lemma preserves_hang {A : Type} : preserves P (fun w => @Hang _ A w).
Proof. intros w Hw; exact Hw. Qed.

Lemma preserves_bind {A B : Type} (m : M A) (k : A -> M B) :
  preserves P m -> (forall a, preserves P (k a)) -> preserves P (bind m k).
Proof.
  intros Hm Hk w Hw. unfold bind. specialize (Hm w Hw).
  destruct (m w) as [a w'|e w'|w']; simpl in *; [apply Hk|..]; assumption.
Qed.

Lemma preserves_try_except {A : Type} (m : M A) (h : exn -> M A) :
  preserves P m -> (forall e, preserves P (h e)) -> preserves P (try_except m h).
Proof.
  intros Hm Hh w Hw. unfold try_except. specialize (Hm w Hw).
  destruct (m w) as [a w'|e w'|w']; simpl in *; [|apply Hh|]; assumption.
Qed.

Lemma preserves_try_finally {A : Type} (m : M A) (f : M unit) :
  preserves P m -> preserves P f -> preserves P (try_finally m f).
Proof.
  intros Hm Hf w Hw. unfold try_finally. specialize (Hm w Hw).
  destruct (m w) as [a w'|e w'|w']; simpl in *; [| |assumption];
    specialize (Hf w' Hm); destruct (f w'); simpl in *; assumption.
Qed.

Lemma preserves_for_each {A : Type} (l : list A) (body : A -> M unit) :
  (forall x, preserves P (body x)) -> preserves P (for_each l body).
Proof.
  intros Hb; induction l as [|x l IH]; simpl.
  - apply preserves_ret.
  - apply preserves_bind; auto.
Qed.

Lemma preserves_for_fold {A S : Type} (l : list A) (s : S) (body : S -> A -> M S) :
  (forall s x, preserves P (body s x)) -> preserves P (for_fold l s body).
Proof.
  intros Hb; revert s; induction l as [|x l IH]; intros s; simpl.
  - apply preserves_ret.
  - apply preserves_bind; auto.
Qed.

Lemma preserves_lift {A : Type} (r : exn + A) : preserves P (lift r).
Proof. destruct r; [apply preserves_raise | apply preserves_ret]. Qed.

Lemma preserves_get_self : preserves P get_self.
Proof. intros w Hw; exact Hw. Qed.

Lemma preserves_sh_now : preserves P sh_now.
Proof. intros w Hw; exact Hw. Qed.

Lemma preserves_tell (e : event) : blind_to_events P -> preserves P (tell e).
Proof. intros He w Hw; apply He, Hw. Qed.

Lemma preserves_modify (f : DbLog -> DbLog) : blind_to P f -> preserves P (modify f).
Proof. intros Hf w Hw; apply Hf, Hw. Qed.

End Preserves.

Section Total.

Lemma total_ret {A : Type} (a : A) : total (ret a).
Proof. intros w; exact I. Qed.

Lemma total_raise {A : Type} (e : exn) : total (@raise _ A e).
Proof. intros w; exact I. Qed.

Lemma total_bind {A B : Type} (m : M A) (k : A -> M B) :
  total m -> (forall a, total (k a)) -> total (bind m k).
Proof.
  intros Hm Hk w. unfold bind. specialize (Hm w).
  destruct (m w) as [a w'|e w'|w']; [apply Hk | exact I | exact Hm].
Qed.

Lemma total_try_except {A : Type} (m : M A) (h : exn -> M A) :
  total m -> (forall e, total (h e)) -> total (try_except m h).
Proof.
  intros Hm Hh w. unfold try_except. specialize (Hm w).
  destruct (m w) as [a w'|e w'|w']; [exact I | apply Hh | exact Hm].
Qed.

Lemma total_for_fold {A S : Type} (l : list A) (s : S) (body : S -> A -> M S) :
  (forall s x, total (body s x)) -> total (for_fold l s body).
Proof.
  intros Hb; revert s; induction l as [|x l IH]; intros s; simpl.
  - apply total_ret.
  - apply total_bind; auto.
Qed.

Lemma total_lift {A : Type} (r : exn + A) : total (lift r).
Proof. destruct r; [apply total_raise | apply total_ret]. Qed.

Lemma total_get_self : total get_self.
Proof. intros w; exact I. Qed.

Lemma total_tell (e : event) : total (tell e).
Proof. intros w; exact I. Qed.

Lemma total_modify (f : DbLog -> DbLog) : total (modify f).
Proof. intros w; exact I. Qed.

End Total.

End Frames.

Create HintDb frames.

#[export] Hint Resolve preserves_ret preserves_raise preserves_hang preserves_lift
  preserves_get_self preserves_sh_now preserves_tell preserves_modify : frames.
#[export] Hint Resolve total_ret total_raise total_lift total_get_self total_tell
  total_modify : frames.

(** Walk down a computation, one construct at a time. *)
Ltac frame_step :=
  match goal with
  | |- preserves _ (bind _ _) => apply preserves_bind; [|intros ?]
  | |- preserves _ (try_except _ _) => apply preserves_try_except; [|intros ?]
  | |- preserves _ (try_finally _ _) => apply preserves_try_finally
  | |- preserves _ (for_each _ _) => apply preserves_for_each; intros ?
  | |- preserves _ (for_fold _ _ _) => apply preserves_for_fold; intros ? ?
  | |- preserves _ (log _ _) => unfold log
  | |- preserves _ (match ?x with _ => _ end) => destruct x
  | |- total (bind _ _) => apply total_bind; [|intros ?]
  | |- total (try_except _ _) => apply total_try_except; [|intros ?]
  | |- total (for_fold _ _ _) => apply total_for_fold; intros ? ?
  | |- total (log _ _) => unfold log
  | |- total (match ?x with _ => _ end) => destruct x
  end.

Ltac frames := repeat frame_step; auto with frames.

(** ** Frames of the plugin's methods *)

Section MethodFrames.
Context {types : Types} {clock : Clock} {builtins : Builtins}.
Variable P : world -> Prop.

Hypothesis P_events : blind_to_events P.
Hypothesis P_fdb : forall x, blind_to P (set_fdb x).

Lemma preserves_on_fdb {A : Type} (cl : call) (op : conn -> (exn + A) * conn) :
  preserves P (on_fdb cl op).
Proof. unfold on_fdb; frames. Qed.

Lemma preserves_execute (stmt : string) (params : list sqlval) (cur : option cursor) :
  preserves P (_execute stmt params cur).
Proof.
  unfold _execute, fdb_cursor, cur_execute, cur_close; frames;
    apply preserves_on_fdb.
Qed.

Lemma preserves_fetchone (stmt : string) (params : list sqlval) (cur : option cursor) :
  preserves P (_fetchone stmt params cur).
Proof.
  unfold _fetchone, fdb_cursor, cur_fetchone, cur_close; frames;
    solve [apply preserves_on_fdb | apply preserves_execute].
Qed.

Lemma preserves_subscript0 (x : option row) : preserves P (subscript0 x).
Proof. unfold subscript0; frames. Qed.

Lemma preserves_subscript_last {A : Type} (l : list A) :
  preserves P (subscript_last l).
Proof. unfold subscript_last; frames. Qed.

Lemma preserves_resolve (name : string) : preserves P (resolve name).
Proof.
  unfold resolve, fdb_cursor, cur_close; frames;
    solve [apply preserves_on_fdb | apply preserves_execute
          | apply preserves_fetchone | apply preserves_subscript0].
Qed.

Lemma preserves_flush_locked (name : string) (tuples : list obs) :
  preserves P (flush_locked name tuples).
Proof.
  unfold flush_locked, fdb_cursor, cur_close, fdb_commit; frames;
    solve [apply preserves_on_fdb | apply preserves_execute
          | apply preserves_resolve | apply preserves_subscript_last].
Qed.

Hypothesis P_fdb_lock : forall x, blind_to P (set_fdb_lock x).
Hypothesis P_buffer_lock : forall x, blind_to P (set_buffer_lock x).

Lemma preserves_fdb_lock_acquire : preserves P fdb_lock_acquire.
Proof. unfold fdb_lock_acquire; frames. Qed.

Lemma preserves_fdb_lock_release : preserves P fdb_lock_release.
Proof. unfold fdb_lock_release; frames. Qed.

Lemma preserves_buffer_lock_acquire : preserves P buffer_lock_acquire.
Proof. unfold buffer_lock_acquire; frames. Qed.

Lemma preserves_buffer_lock_release : preserves P buffer_lock_release.
Proof. unfold buffer_lock_release; frames. Qed.

Lemma preserves_flush_item (name : string) (tuples : list obs) :
  preserves P (flush_item name tuples).
Proof.
  unfold flush_item; frames;
    solve [apply preserves_fdb_lock_acquire | apply preserves_flush_locked].
Qed.

Hypothesis P_clear :
  forall name, blind_to P (fun s => set_buffer (dict_set name [] (_buffer s)) s).

Lemma preserves_buffer_get (name : string) : preserves P (buffer_get name).
Proof. unfold buffer_get; frames. Qed.

Lemma preserves_drain (name : string) : preserves P (drain name).
Proof.
  unfold drain; frames;
    solve [apply preserves_buffer_lock_acquire | apply preserves_buffer_lock_release
          | apply preserves_buffer_get].
Qed.

Lemma preserves_dump_item (name : string) : preserves P (dump_item name).
Proof.
  unfold dump_item; frames;
    solve [apply preserves_drain | apply preserves_flush_item
          | apply preserves_fdb_lock_release].
Qed.

Lemma preserves_dump : preserves P _dump.
Proof. unfold _dump; frames; apply preserves_dump_item. Qed.

Lemma preserves_parse_item (it : item) : preserves P (parse_item it).
Proof. unfold parse_item; frames. Qed.

Hypothesis P_connected : forall x, blind_to P (set_connected x).
Hypothesis P_alive : forall x, blind_to P (set_alive x).

Lemma preserves_stop : preserves P stop.
Proof.
  unfold stop, fdb_close; frames;
    solve [apply preserves_dump | apply preserves_fdb_lock_acquire
          | apply preserves_fdb_lock_release | apply preserves_on_fdb].
Qed.

Lemma preserves_run : preserves P run.
Proof. unfold run; frames. Qed.

End MethodFrames.

Section MethodsTotal.
Context {types : Types} {clock : Clock} {builtins : Builtins}.

Lemma total_on_fdb {A : Type} (cl : call) (op : conn -> (exn + A) * conn) :
  total (on_fdb cl op).
Proof. unfold on_fdb; frames. Qed.

Lemma total_execute (stmt : string) (params : list sqlval) (cur : option cursor) :
  total (_execute stmt params cur).
Proof.
  unfold _execute, fdb_cursor, cur_execute, cur_close; frames; apply total_on_fdb.
Qed.

Lemma total_fetchone (stmt : string) (params : list sqlval) (cur : option cursor) :
  total (_fetchone stmt params cur).
Proof.
  unfold _fetchone, fdb_cursor, cur_fetchone, cur_close; frames;
    solve [apply total_on_fdb | apply total_execute].
Qed.

Lemma total_subscript0 (x : option row) : total (subscript0 x).
Proof. unfold subscript0; frames. Qed.

Lemma total_subscript_last {A : Type} (l : list A) : total (subscript_last l).
Proof. unfold subscript_last; frames. Qed.

Lemma total_resolve (name : string) : total (resolve name).
Proof.
  unfold resolve, fdb_cursor, cur_close; frames;
    solve [apply total_on_fdb | apply total_execute
          | apply total_fetchone | apply total_subscript0].
Qed.

Lemma total_flush_locked (name : string) (tuples : list obs) :
  total (flush_locked name tuples).
Proof.
  unfold flush_locked, fdb_cursor, cur_close, fdb_commit; frames;
    solve [apply total_on_fdb | apply total_execute
          | apply total_resolve | apply total_subscript_last].
Qed.

End MethodsTotal.

(** ** Observation ingestion *)

Section Ingestion.
Context {types : Types} {clock : Clock} {builtins : Builtins}.

Lemma dict_get_In {V : Type} (k : string) (d : list (string * V)) (v : V) :
  dict_get k d = Some v -> In (k, v) d.
Proof.
  induction d as [|[k' v'] d IH]; simpl; [discriminate|].
  destruct (String.eqb_spec k' k) as [->|_].
  - intros [= ->]. now left.
  - intros Hd. right. now apply IH.
Qed.

Lemma tuples_ok_set (k : string) (l : list obs) (d : list (string * list obs)) :
  tuples_ok d -> Forall (fun o => one_field o = true) l ->
  tuples_ok (dict_set k l d).
Proof.
  unfold tuples_ok. intros Hd Hl.
  induction d as [|[k' v'] d IH]; simpl.
  - constructor; [exact Hl | constructor].
  - inversion Hd as [|? ? Hv Hd']; subst.
    destruct (String.eqb k' k); constructor; auto.
Qed.

Lemma tuples_ok_get (k : string) (l : list obs) (d : list (string * list obs)) :
  tuples_ok d -> dict_get k d = Some l -> Forall (fun o => one_field o = true) l.
Proof.
  unfold tuples_ok. intros Hd Hg. apply dict_get_In in Hg.
  rewrite Forall_forall in Hd. exact (Hd _ Hg).
Qed.

Lemma buffer_ok_events : blind_to_events buffer_ok.
Proof. intros e w Hw; exact Hw. Qed.

Lemma buffer_ok_clear (name : string) :
  blind_to buffer_ok (fun s => set_buffer (dict_set name [] (_buffer s)) s).
Proof. intros w Hw. apply tuples_ok_set; [exact Hw | constructor]. Qed.

(** What [update_item] does when it returns: it appends one tuple to the
    list of its item, and the tuple is made from the clock and from the
    item's value according to the item's type. *)
Lemma update_item_returns (it : item) (w w' : world) :
  update_item it w = Ret tt w' ->
  exists l o,
    dict_get (item_id it) (_buffer (self w)) = Some l /\
    w' = on_self (set_buffer (dict_set (item_id it) (l ++ [o]) (_buffer (self w)))) w /\
    o_time o = _timestamp (now w) /\
    ((item_type it = "num" /\
      exists f, py_float (item_value it) = inr f /\ fields o = (None, Some f, None)) \/
     (item_type it = "bool" /\
      fields o = (None, None, Some (py_bool (item_value it)))) \/
     (item_type it <> "num" /\ item_type it <> "bool" /\
      fields o = (Some (py_str (item_value it)), None, None))).
Proof.
  unfold update_item, bind, buffer_get, get_self, sh_now, modify, lift, ret, raise.
  destruct (String.eqb_spec (item_type it) "num") as [Hn|Hn].
  - destruct (py_float (item_value it)) as [e|f] eqn:Hf; cbn; [discriminate|].
    destruct (dict_get (item_id it) (_buffer (self w))) as [l|] eqn:Hg;
      cbn; [|discriminate].
    intros [= <-]. eexists l, _. repeat split; try reflexivity.
    left. split; [exact Hn|]. exists f. split; reflexivity.
  - destruct (String.eqb_spec (item_type it) "bool") as [Hb|Hb]; cbn;
      (destruct (dict_get (item_id it) (_buffer (self w))) as [l|] eqn:Hg;
       cbn; [|discriminate]);
      intros [= <-]; eexists l, _; repeat split; try reflexivity.
    + right; left. split; [exact Hb | reflexivity].
    + right; right. repeat split; assumption.
Qed.

(** When [update_item] does not return, it has appended nothing. *)
Lemma update_item_fails (it : item) (w : world) :
  match update_item it w with
  | Ret _ _ => True
  | Raise _ w' => w' = w
  | Hang w' => w' = w
  end.
Proof.
  unfold update_item, bind, buffer_get, get_self, sh_now, modify, lift, ret, raise.
  destruct (String.eqb (item_type it) "num");
    [destruct (py_float (item_value it)); [reflexivity|] |
     destruct (String.eqb (item_type it) "bool")];
    cbn; destruct (dict_get (item_id it) (_buffer (self w))); cbn; auto.
Qed.

Lemma fields_one (o : obs) :
  (exists f, fields o = (None, Some f, None)) \/
  (exists b, fields o = (None, None, Some b)) \/
  (exists s, fields o = (Some s, None, None)) ->
  one_field o = true.
Proof.
  unfold fields, one_field.
  intros [[f E]|[[b E]|[s E]]]; injection E as -> -> ->; reflexivity.
Qed.

Lemma preserves_update_item (it : item) : preserves buffer_ok (update_item it).
Proof.
  intros w Hw.
  pose proof (update_item_fails it w) as Hf.
  destruct (update_item it w) as [[] w'|e w'|w'] eqn:E; simpl;
    [|subst; exact Hw..].
  apply update_item_returns in E as (l & o & Hg & -> & _ & Ho).
  apply tuples_ok_set; [exact Hw|].
  apply Forall_app; split; [exact (tuples_ok_get _ _ _ Hw Hg)|].
  constructor; [|constructor]. apply fields_one.
  destruct Ho as [(_ & f & _ & E)|[(_ & E)|(_ & _ & E)]]; eauto.
Qed.

Lemma buffer_ok_init (api : dbapi) (cycle : Z) (w : world) :
  buffer_ok (world_of (__init__ api cycle w)).
Proof.
  unfold __init__.
  match goal with |- buffer_ok (world_of (bind (modify ?f) ?k w)) =>
    change (buffer_ok (world_of (k tt (on_self f w))));
    assert (Hk : preserves buffer_ok (k tt)); [|apply Hk; constructor]
  end.
  cbv beta.
  unfold fdb_cursor, cur_execute, cur_close; frames;
    try solve [intros ? Hw; exact Hw | apply buffer_ok_events
              | apply preserves_on_fdb; solve [apply buffer_ok_events | intros ? ? Hw; exact Hw]
              | apply preserves_fdb_lock_acquire; solve [apply buffer_ok_events | intros ? ? Hw; exact Hw]
              | apply preserves_fdb_lock_release; solve [apply buffer_ok_events | intros ? ? Hw; exact Hw] ].
Qed.

Lemma buffer_ok_exec_op (o : op) : forall w, buffer_ok w -> buffer_ok (exec_op o w).
Proof.
  assert (Hs : forall (f : DbLog -> DbLog),
             (forall s, _buffer (f s) = _buffer s) -> blind_to buffer_ok f).
  { intros f Hf w Hw. unfold buffer_ok; simpl. rewrite Hf. exact Hw. }
  destruct o; simpl.
  - apply preserves_parse_item. apply buffer_ok_clear.
  - apply preserves_run. intros x; apply Hs; reflexivity.
  - apply preserves_update_item.
  - apply preserves_dump;
      solve [apply buffer_ok_events | apply buffer_ok_clear | intros x; apply Hs; reflexivity].
  - apply preserves_stop;
      solve [apply buffer_ok_events | apply buffer_ok_clear | intros x; apply Hs; reflexivity].
  - intros w Hw; exact Hw.
Qed.

Lemma buffer_ok_session (api : dbapi) (cycle : Z) (ops : list op) (w0 : world) :
  buffer_ok (session api cycle ops w0).
Proof.
  unfold session. generalize (buffer_ok_init api cycle w0).
  generalize (world_of (__init__ api cycle w0)).
  induction ops as [|op ops IH]; intros w Hw; simpl; [exact Hw|].
  apply IH, buffer_ok_exec_op, Hw.
Qed.

(** C8. Whenever [update_item] returns it has appended one tuple to the
    buffer of its item, stamped with the clock, in which exactly one of
    [val_str], [val_num], [val_bool] is set: for type [num] the number
    [float(value)], for type [bool] the boolean [bool(value)], for any other
    type the text [str(value)]. And after [__init__] and any calls of the
    plugin's methods, every tuple of every buffer has exactly one of the
    three fields set. *)
Theorem update_item_one_field :
  (forall (it : item) (w w' : world),
      update_item it w = Ret tt w' ->
      exists l o,
        dict_get (item_id it) (_buffer (self w)) = Some l /\
        _buffer (self w') = dict_set (item_id it) (l ++ [o]) (_buffer (self w)) /\
        o_time o = _timestamp (now w) /\
        one_field o = true /\
        ((item_type it = "num" /\
          exists f, py_float (item_value it) = inr f /\
                    fields o = (None, Some f, None)) \/
         (item_type it = "bool" /\
          fields o = (None, None, Some (py_bool (item_value it)))) \/
         (item_type it <> "num" /\ item_type it <> "bool" /\
          fields o = (Some (py_str (item_value it)), None, None)))) /\
  (forall (api : dbapi) (cycle : Z) (ops : list op) (w0 : world)
          (name : string) (l : list obs) (o : obs),
      dict_get name (_buffer (self (session api cycle ops w0))) = Some l ->
      In o l -> one_field o = true).
Proof.
  split.
  - intros it w w' E.
    apply update_item_returns in E as (l & o & Hg & -> & Ht & Ho).
    exists l, o. repeat split; try assumption; try reflexivity.
    apply fields_one.
    destruct Ho as [(_ & f & _ & E)|[(_ & E)|(_ & _ & E)]]; eauto.
  - intros api cycle ops w0 name l o Hg Hin.
    pose proof (tuples_ok_get _ _ _ (buffer_ok_session api cycle ops w0) Hg) as Hl.
    rewrite Forall_forall in Hl. exact (Hl _ Hin).
Qed.

End Ingestion.

(** ** One round of the flush loop *)

Section Rounds.
Context {types : Types} {clock : Clock} {builtins : Builtins}.

Lemma dict_get_set {V : Type} (k k' : string) (v : V) (d : list (string * V)) :
  dict_get k (dict_set k' v d) = if String.eqb k' k then Some v else dict_get k d.
Proof.
  induction d as [|[k0 v0] d IH]; simpl.
  - destruct (String.eqb k' k); reflexivity.
  - destruct (String.eqb_spec k0 k') as [->|Hne]; simpl.
    + destruct (String.eqb k' k); reflexivity.
    + rewrite IH. destruct (String.eqb_spec k0 k) as [->|Hne'];
        [|reflexivity].
      destruct (String.eqb_spec k' k) as [->|_]; [contradiction | reflexivity].
Qed.

Lemma drain_returns (name : string) (l : list obs) (w : world) :
  _buffer_lock (self w) = false ->
  dict_get name (_buffer (self w)) = Some l ->
  drain name w = Ret l (drained name w).
Proof.
  intros Hl Hg.
  unfold drain, buffer_lock_acquire, buffer_lock_release, buffer_get, bind,
    get_self, modify, tell, ret; simpl.
  rewrite Hl; simpl. rewrite Hg. reflexivity.
Qed.

Lemma fdb_lock_acquire_free (w : world) :
  _fdb_lock (self w) = Some false -> fdb_lock_acquire w = Ret tt (fdb_locked w).
Proof.
  intros Hl. unfold fdb_lock_acquire, bind, get_self; simpl. rewrite Hl. reflexivity.
Qed.

Lemma fdb_lock_release_held (w : world) :
  _fdb_lock (self w) = Some true -> fdb_lock_release w = Ret tt (fdb_released w).
Proof.
  intros Hl. unfold fdb_lock_release, bind, get_self; simpl. rewrite Hl. reflexivity.
Qed.

Lemma held_events (w0 : world) : blind_to_events (held w0).
Proof. intros e w Hw; exact Hw. Qed.

Lemma held_fdb (w0 : world) (x : option conn) : blind_to (held w0) (set_fdb x).
Proof. intros w Hw; exact Hw. Qed.

Lemma held_fdb_locked (w : world) : held w (fdb_locked w).
Proof. repeat split. Qed.

(** The outcome of one round, from the outcome of its [try] body. *)
Lemma dump_item_round (name : string) (x : obs) (l : list obs) (w : world) :
  locks_free w ->
  dict_get name (_buffer (self w)) = Some (x :: l) ->
  match flush_item name (x :: l) (drained name w) with
  | Ret _ w2 => dump_item name w = Ret tt (fdb_released w2)
  | Raise e w2 =>
      dump_item name w
      = Ret tt (fdb_released (emit (EvLog WARNING (MsgProblemUpdating name e)) w2))
  | Hang _ => False
  end
  /\ held (drained name w) (world_of (flush_item name (x :: l) (drained name w))).
Proof.
  intros [Hb Hf] Hg.
  unfold dump_item. rewrite (bind_ret _ _ _ _ _ (drain_returns _ _ _ Hb Hg)).
  unfold try_finally, try_except, flush_item.
  rewrite (bind_ret _ _ _ _ _ (fdb_lock_acquire_free (drained name w) Hf)).
  pose proof (preserves_flush_locked (held (drained name w))
                (held_events _) (held_fdb _) name (x :: l) _
                (held_fdb_locked (drained name w))) as Hk.
  pose proof (total_flush_locked name (x :: l) (fdb_locked (drained name w))) as Ht.
  destruct (flush_locked name (x :: l) (fdb_locked (drained name w)))
    as [[] w2|e w2|w2]; simpl in Hk; [| |contradiction]; split; try exact Hk.
  - rewrite fdb_lock_release_held by apply Hk. reflexivity.
  - unfold log, tell. rewrite fdb_lock_release_held by apply Hk. reflexivity.
Qed.

(** A round always returns, with the item's buffer empty, the other
    buffers untouched and the locks free again. *)
Lemma dump_item_returns (name : string) (tuples : list obs) (w : world) :
  locks_free w ->
  dict_get name (_buffer (self w)) = Some tuples ->
  exists w',
    dump_item name w = Ret tt w' /\
    locks_free w' /\
    _buffer (self w') = dict_set name [] (_buffer (self w)).
Proof.
  intros Hlf Hg. destruct tuples as [|x l].
  - exists (drained name w). destruct Hlf as [Hb Hf].
    unfold dump_item. rewrite (bind_ret _ _ _ _ _ (drain_returns _ _ _ Hb Hg)).
    repeat split; assumption.
  - destruct (dump_item_round name x l w Hlf Hg) as [Hr (Hl & Hbuf & Hbl)].
    destruct (flush_item name (x :: l) (drained name w)) as [[] w2|e w2|w2];
      [| |contradiction]; simpl in *;
      eexists; (split; [exact Hr|]); repeat split; assumption.
Qed.

Lemma for_each_dump_item (ks : list string) :
  forall w,
    locks_free w ->
    (forall k, In k ks -> dict_get k (_buffer (self w)) <> None) ->
    exists w',
      for_each ks dump_item w = Ret tt w' /\
      locks_free w' /\
      forall k, dict_get k (_buffer (self w'))
                = if in_dec string_dec k ks then Some []
                  else dict_get k (_buffer (self w)).
Proof.
  induction ks as [|k0 ks IH]; intros w Hlf Hks.
  - exists w. split; [reflexivity | split; [exact Hlf | reflexivity]].
  - destruct (dict_get k0 (_buffer (self w))) as [l|] eqn:Hg;
      [|exfalso; apply (Hks k0); [now left | exact Hg]].
    destruct (dump_item_returns k0 l w Hlf Hg) as (w1 & Hr & Hlf1 & Hb1).
    destruct (IH w1 Hlf1) as (w' & Hr' & Hlf' & Hb').
    { intros k Hk. rewrite Hb1, dict_get_set.
      destruct (String.eqb k0 k); [discriminate | apply Hks; now right]. }
    exists w'. split; [|split; [exact Hlf'|]].
    + simpl. rewrite (bind_ret _ _ _ _ _ Hr). exact Hr'.
    + intros k. rewrite Hb'. rewrite Hb1, dict_get_set.
      destruct (in_dec string_dec k ks) as [Hin|Hnin];
        destruct (in_dec string_dec k (k0 :: ks)) as [Hin'|Hnin']; try reflexivity.
      * exfalso; apply Hnin'; now right.
      * destruct Hin' as [->|Hin']; [|contradiction].
        now rewrite String.eqb_refl.
      * destruct (String.eqb_spec k0 k) as [->|_]; [|reflexivity].
        exfalso; apply Hnin'; now left.
Qed.

Lemma dict_get_keys {V : Type} (k : string) (d : list (string * V)) :
  In k (dict_keys d) <-> dict_get k d <> None.
Proof.
  induction d as [|[k0 v0] d IH]; simpl.
  - split; [intros [] | intros H; now apply H].
  - destruct (String.eqb_spec k0 k) as [->|Hne].
    + split; [discriminate | now left].
    + rewrite <- IH. split; [intros [E|Hin]; [contradiction | exact Hin] | now right].
Qed.

(** [_dump] always returns; it leaves every buffer empty and the locks
    free. *)
Lemma dump_returns (w : world) :
  locks_free w ->
  exists w',
    _dump w = Ret tt w' /\
    locks_free w' /\
    forall k, dict_get k (_buffer (self w'))
              = option_map (fun _ => []) (dict_get k (_buffer (self w))).
Proof.
  intros Hlf.
  destruct (for_each_dump_item (dict_keys (_buffer (self w)))
              (emit (EvLog DEBUG MsgStartingDump) w) Hlf)
    as (w' & Hr & Hlf' & Hb).
  { intros k Hk. now apply dict_get_keys. }
  exists w'. split; [|split; [exact Hlf'|]].
  - unfold _dump, bind, get_self, log, tell, ret.
    destruct (negb (connected (self w))); exact Hr.
  - intros k. rewrite Hb. simpl.
    destruct (in_dec string_dec k (dict_keys (_buffer (self w)))) as [Hin|Hnin].
    + apply dict_get_keys in Hin.
      destruct (dict_get k (_buffer (self w))); [reflexivity | contradiction].
    + destruct (dict_get k (_buffer (self w))) eqn:Hg; [|reflexivity].
      exfalso; apply Hnin, dict_get_keys. now rewrite Hg.
Qed.


End Rounds.

(** ** The locks between the calls, and instances that never connected *)

Section Unconnected.
Context {types : Types} {clock : Clock} {builtins : Builtins}.

(** *** The locks between the calls *)

Lemma bind_inv {A B : Type} (m : M A) (k : A -> M B) (w w2 : world) (b : B) :
  bind m k w = Ret b w2 -> exists a w1, m w = Ret a w1 /\ k a w1 = Ret b w2.
Proof.
  unfold bind. destruct (m w) as [a w1|e w1|w1]; [|discriminate..].
  intros H. now exists a, w1.
Qed.

Lemma during_init_setup (c : cursor) :
  preserves during_init
    (bind (for_each _setup (fun '(n, q) =>
             try_except (bind (cur_execute (Some q) []) (fun _ => ret tt))
                        (fun e => log WARNING (MsgQueryFailed n e))))
          (fun _ => cur_close)).
Proof.
  assert (He : blind_to_events during_init) by (intros e w Hw; exact Hw).
  assert (Hf : forall x, blind_to during_init (set_fdb x))
    by (intros x w Hw; exact Hw).
  apply preserves_bind; [|intros _; apply preserves_on_fdb; assumption].
  apply preserves_for_each. intros [n q].
  apply preserves_try_except.
  - apply preserves_bind; [apply preserves_on_fdb; assumption|].
    intros _. apply preserves_ret.
  - intros e. apply preserves_tell, He.
Qed.

(** When [__init__] returns on a driver of a supported style, both locks
    exist and are free, whether the connection was made or not. *)
Lemma init_locks_free (api : dbapi) (cycle : Z) (w0 w : world) :
  In (paramstyle api) styles ->
  __init__ api cycle w0 = Ret tt w ->
  locks_free w.
Proof.
  intros Hsty. unfold __init__.
  assert (Hex : existsb (String.eqb (paramstyle api)) styles = true).
  { apply existsb_exists. exists (paramstyle api).
    split; [exact Hsty | apply String.eqb_refl]. }
  rewrite Hex. cbn [negb].
  unfold bind at 1, modify at 1. unfold bind at 1, modify at 1. cbn [on_self self].
  unfold bind at 1. unfold fdb_lock_acquire at 1, bind at 1, get_self at 1.
  cbn [self _fdb_lock set_fdb_lock]. unfold bind at 1, modify at 1, tell at 1.
  unfold bind at 1, tell at 1.
  destruct (connect api) as [e|c].
  - unfold log, tell, bind, fdb_lock_release, get_self, modify. cbn.
    intros [= <-]. split; reflexivity.
  - unfold bind at 1, modify at 1. unfold bind at 1, modify at 1.
    unfold bind at 1, log at 1, tell at 1.
    intros H. apply bind_inv in H as (cu & w1 & Hcur & H).
    assert (H1 : during_init w1).
    { pose proof (preserves_on_fdb during_init
                    (fun e w Hw => Hw) (fun x w Hw => Hw) Cursor conn_cursor) as Hp.
      match type of Hcur with ?m ?w = _ =>
        specialize (Hp w (conj eq_refl eq_refl)) end.
      unfold fdb_cursor in Hcur. rewrite Hcur in Hp. exact Hp. }
    apply bind_inv in H as ([] & w2 & Hsetup & H).
    apply bind_inv in H as ([] & w3 & Hclose & H).
    assert (H3 : during_init w3).
    { pose proof (during_init_setup cu w1 H1) as Hp.
      unfold bind at 1 in Hp. rewrite Hsetup in Hp.
      rewrite Hclose in Hp. exact Hp. }
    destruct H3 as [Hb Hl].
    apply bind_inv in H as ([] & w4 & Hrel & H).
    rewrite (fdb_lock_release_held w3 Hl) in Hrel. injection Hrel as <-.
    unfold tell in H. injection H as <-. split; [exact Hb | reflexivity].
Qed.

(** [stop] returns with both locks free again. *)
Lemma stop_locks_free (w : world) :
  locks_free w -> exists w2, stop w = Ret tt w2 /\ locks_free w2.
Proof.
  intros Hlf.
  destruct (dump_returns (on_self (set_alive (Some false)) w) Hlf)
    as (w1 & Hd & [Hb Hf] & _).
  assert (Hs : stop w
               = try_finally (try_except fdb_close (fun _ : exn => ret tt))
                   (bind (modify (set_connected false))
                      (fun _ : unit => fdb_lock_release))
                   (fdb_locked w1)).
  { unfold stop. unfold bind at 1. unfold modify at 1.
    rewrite (bind_ret _ _ _ _ _ Hd).
    rewrite (bind_ret _ _ _ _ _ (fdb_lock_acquire_free w1 Hf)). reflexivity. }
  rewrite Hs. clear Hs.
  unfold try_finally, try_except, fdb_close, on_fdb, bind, get_self, modify, tell,
    lift, ret, raise, fdb_lock_release.
  simpl. destruct (_fdb (self w1)) as [c|]; simpl.
  - destruct (fst (conn_close c)) as [e|[]]; simpl;
      eexists; (split; [reflexivity|]); split; solve [assumption | reflexivity].
  - eexists; (split; [reflexivity|]); split; solve [assumption | reflexivity].
Qed.

Lemma locks_free_exec_op (o : op) (w : world) :
  locks_free w -> locks_free (exec_op o w).
Proof.
  assert (He : blind_to_events locks_free) by (intros e x Hx; exact Hx).
  intros Hw. destruct o as [it| |it| | |dt]; cbn [exec_op].
  - apply preserves_parse_item; [|exact Hw]. intros name x Hx; exact Hx.
  - apply preserves_run; [|exact Hw]. intros a x Hx; exact Hx.
  - pose proof (update_item_fails it w) as Hf.
    destruct (update_item it w) as [[] w'|e w'|w'] eqn:E; cbn [world_of];
      [|subst; exact Hw..].
    apply update_item_returns in E as (l & ob & _ & -> & _). exact Hw.
  - destruct (dump_returns w Hw) as (w' & -> & Hlf & _). exact Hlf.
  - destruct (stop_locks_free w Hw) as (w2 & -> & Hlf). exact Hlf.
  - exact Hw.
Qed.

(** On an instance built with a supported style, the locks are free after
    any calls of the plugin's methods. *)
Lemma session_locks_free (api : dbapi) (cycle : Z) (ops : list op) (w0 w : world) :
  In (paramstyle api) styles ->
  __init__ api cycle w0 = Ret tt w ->
  locks_free (session api cycle ops w0).
Proof.
  intros Hsty Hinit. unfold session. rewrite Hinit. cbn [world_of].
  pose proof (init_locks_free api cycle w0 w Hsty Hinit) as Hw.
  clear Hinit. revert w Hw. induction ops as [|o ops IH]; intros w Hw; [exact Hw|].
  cbn [fold_left]. apply IH, locks_free_exec_op, Hw.
Qed.

Lemma execute_events (sty stmt : string) (params : list sqlval)
  (cur : option cursor) (w : world) (s : option string) (p : list sqlval) :
  style (self w) = sty ->
  In (EvDriver (Execute s p)) (events (world_of (_execute stmt params cur w))) ->
  In (EvDriver (Execute s p)) (events w) \/ (s = _format sty stmt /\ p = params).
Proof.
  intros <-.
  unfold _execute, fdb_cursor, cur_execute, cur_close, on_fdb, bind, get_self,
    modify, tell, lift, ret, raise.
  destruct cur as [cur|]; simpl;
    (destruct (_fdb (self w)) as [c|]; simpl; [|now left]).
  - destruct (fst (cursor_execute _ params c)); simpl;
      (intros [[= <- <-]|Hin]; [right; split; reflexivity | now left]).
  - destruct (fst (conn_cursor c)) as [e|cu]; simpl.
    + intros [[=]|Hin]; now left.
    + destruct (fst (cursor_execute _ params (snd (conn_cursor c)))); simpl.
      * intros [[= <- <-]|[[=]|Hin]]; [right; split; reflexivity | now left].
      * destruct (fst (cursor_close _)); simpl;
          (intros [[=]|[[= <- <-]|[[=]|Hin]]];
           [right; split; reflexivity | now left]).
Qed.

(** *** An instance built with a style that is not supported *)

Lemma dump_item_no_lock (name : string) (l : list obs) (w : world) :
  _fdb_lock (self w) = None ->
  _buffer_lock (self w) = false ->
  dict_get name (_buffer (self w)) = Some l ->
  dump_item name w
  = match l with
    | [] => Ret tt (drained name w)
    | _ :: _ =>
        Raise (AttributeError "_fdb_lock")
          (emit (EvLog WARNING
                   (MsgProblemUpdating name (AttributeError "_fdb_lock")))
             (drained name w))
    end.
Proof.
  intros Hl Hb Hg. unfold dump_item.
  rewrite (bind_ret _ _ _ _ _ (drain_returns _ _ _ Hb Hg)).
  destruct l as [|x l]; [reflexivity|].
  unfold try_finally, try_except, flush_item, fdb_lock_acquire, fdb_lock_release,
    bind, get_self, log, tell, raise.
  cbn. rewrite Hl. cbn. rewrite Hl. reflexivity.
Qed.

Lemma unconnected_drained (sty name : string) (w : world) :
  unconnected sty w -> unconnected sty (drained name w).
Proof. intros (Hs & Hf & Hl & Hb). repeat split; assumption. Qed.

Lemma unconnected_for_each (sty : string) (ks : list string) :
  forall w,
    unconnected sty w ->
    (forall k, In k ks -> dict_get k (_buffer (self w)) <> None) ->
    unconnected sty (world_of (for_each ks dump_item w)).
Proof.
  induction ks as [|k ks IH]; intros w Hu Hks; [exact Hu|].
  destruct (dict_get k (_buffer (self w))) as [l|] eqn:Hg;
    [|exfalso; apply (Hks k); [now left | exact Hg]].
  pose proof Hu as (_ & _ & Hl & Hb).
  cbn [for_each]. unfold bind.
  rewrite (dump_item_no_lock k l w Hl Hb Hg).
  destruct l as [|x l].
  - apply IH; [now apply unconnected_drained|].
    intros k' Hk'. cbn. rewrite dict_get_set.
    destruct (String.eqb k k'); [discriminate | apply Hks; now right].
  - cbn [world_of]. apply (unconnected_drained sty k w Hu).
Qed.

Lemma unconnected_dump (sty : string) (w : world) :
  unconnected sty w -> unconnected sty (world_of (_dump w)).
Proof.
  intros Hu.
  assert (Hd : _dump w = for_each (dict_keys (_buffer (self w))) dump_item
                           (emit (EvLog DEBUG MsgStartingDump) w)).
  { unfold _dump, bind, get_self, log, tell, ret.
    destruct (negb (connected (self w))); reflexivity. }
  rewrite Hd. apply unconnected_for_each; [exact Hu|].
  intros k Hk. now apply dict_get_keys.
Qed.

Lemma unconnected_stop (sty : string) (w : world) :
  unconnected sty w -> unconnected sty (world_of (stop w)).
Proof.
  intros Hu.
  assert (Hu0 : unconnected sty (on_self (set_alive (Some false)) w)) by exact Hu.
  pose proof (unconnected_dump sty _ Hu0) as Hd.
  unfold stop.
  rewrite (bind_ret (modify (set_alive (Some false))) _ w
             (on_self (set_alive (Some false)) w) tt eq_refl).
  cbv beta.
  destruct (_dump (on_self (set_alive (Some false)) w)) as [[] w1|e w1|w1] eqn:E;
    cbn [world_of] in Hd.
  - rewrite (bind_ret _ _ _ _ _ E).
    assert (Ha : fdb_lock_acquire w1 = Raise (AttributeError "_fdb_lock") w1).
    { destruct Hd as (_ & _ & Hl & _).
      unfold fdb_lock_acquire, bind, get_self, raise. rewrite Hl. reflexivity. }
    rewrite (bind_raise _ _ _ _ _ Ha). exact Hd.
  - rewrite (bind_raise _ _ _ _ _ E). exact Hd.
  - unfold bind at 1. rewrite E. exact Hd.
Qed.

Lemma unconnected_exec_op (sty : string) (o : op) (w : world) :
  unconnected sty w -> unconnected sty (exec_op o w).
Proof.
  intros Hu. destruct o as [it| |it| | |dt]; cbn [exec_op].
  - unfold parse_item.
    destruct (existsb (String.eqb "dblog") (item_conf it)); exact Hu.
  - exact Hu.
  - pose proof (update_item_fails it w) as Hf.
    destruct (update_item it w) as [[] w'|e w'|w'] eqn:E; cbn [world_of];
      [|subst; exact Hu..].
    apply update_item_returns in E as (l & ob & _ & -> & _). exact Hu.
  - now apply unconnected_dump.
  - now apply unconnected_stop.
  - exact Hu.
Qed.

(** Whatever is called on an instance built with a style that is not
    supported, it stays without connection and without connection lock. *)
Lemma session_unconnected (api : dbapi) (cycle : Z) (ops : list op) (w0 : world) :
  ~ In (paramstyle api) styles ->
  unconnected (paramstyle api) (session api cycle ops w0).
Proof.
  intros Hn. unfold session.
  assert (Hi : unconnected (paramstyle api) (world_of (__init__ api cycle w0))).
  { unfold __init__.
    assert (Hex : existsb (String.eqb (paramstyle api)) styles = false).
    { destruct (existsb (String.eqb (paramstyle api)) styles) eqn:E; [|reflexivity].
      apply existsb_exists in E as (x & Hin & Hx). apply String.eqb_eq in Hx.
      subst. contradiction. }
    rewrite Hex. repeat split. }
  revert Hi. generalize (world_of (__init__ api cycle w0)).
  induction ops as [|o ops IH]; intros w Hw; [exact Hw|].
  cbn [fold_left]. apply IH, unconnected_exec_op, Hw.
Qed.

(** C10, as amended. For a style that is none of [qmark], [format] and
    [numeric], [_format] returns [None] in place of a statement. But
    [__init__] has then returned at its style check, before it made the
    connection: after any calls of the plugin's methods the instance still
    has this style and no connection, so that [_execute] without a cursor
    and [_fetchone] raise [AttributeError] on the missing [_fdb], the world
    being as before: nothing is passed to the driver. No call of
    [cur.execute] that [_execute] makes carries a statement. *)
Theorem unsupported_style_raises
  (api : dbapi) (cycle : Z) (ops : list op) (w0 : world)
  (stmt : string) (params : list sqlval) :
  ~ In (paramstyle api) styles ->
  let w := session api cycle ops w0 in
  style (self w) = paramstyle api /\
  _format (style (self w)) stmt = None /\
  _fdb (self w) = None /\
  _execute stmt params None w = Raise (AttributeError "_fdb") w /\
  (forall cur : option cursor,
      _fetchone stmt params cur w = Raise (AttributeError "_fdb") w) /\
  (forall (cur : option cursor) (s : option string) (p : list sqlval),
      In (EvDriver (Execute s p)) (events (world_of (_execute stmt params cur w))) ->
      In (EvDriver (Execute s p)) (events w) \/ (s = None /\ p = params)).
Proof.
  intros Hn w.
  destruct (session_unconnected api cycle ops w0 Hn) as (Hs & Hf & _ & _).
  fold w in Hs, Hf.
  assert (Hfmt : _format (style (self w)) stmt = None)
    by (rewrite Hs; now apply format_unsupported_style).
  split; [exact Hs|]. split; [exact Hfmt|]. split; [exact Hf|].
  split; [|split].
  - unfold _execute, fdb_cursor, on_fdb, bind, get_self, raise.
    rewrite Hf. reflexivity.
  - intros cur. unfold _fetchone, fdb_cursor, on_fdb, bind, get_self, raise.
    rewrite Hf. reflexivity.
  - intros cur s p Hin.
    destruct (execute_events _ stmt params cur w s p eq_refl Hin) as [H|[H1 H2]];
      [now left | right]. rewrite Hfmt in H1. split; assumption.
Qed.

End Unconnected.

(** C1, on the code: an instance whose [connect] raised at construction
    (so [connected] is [False]) and one buffered observation. [_dump]
    does not return early: it takes the item's list out of the buffer,
    leaves an empty list in its place, takes the connection lock, fails on
    the missing [self._fdb], logs the warning and releases the lock. The
    observation is gone. *)
Theorem dump_after_failed_connect :
  let api := {| paramstyle := "qmark";
                connect := inl (DatabaseError "unable to open database file") |} in
  let w1 := session api 10 [OpParseItem temp1; OpUpdateItem temp1] boot in
  connected (self w1) = false /\
  _fdb (self w1) = None /\
  _buffer (self w1)
  = [("temp1", [{| o_time := 1609459200250; o_str := None;
                   o_num := Some (inject_Z 21); o_bool := None |}])] /\
  exists w2,
    _dump w1 = Ret tt w2 /\
    _buffer (self w2) = [("temp1", [])] /\
    events w2
    = [ EvRelease FdbLock;
        EvLog WARNING (MsgProblemUpdating "temp1" (AttributeError "_fdb"));
        EvAcquire FdbLock;
        EvRelease BufferLock;
        EvAcquire BufferLock;
        EvLog DEBUG MsgStartingDump ] ++ events w1.
Proof.
  intros api w1.
  split; [vm_compute; reflexivity|].
  split; [vm_compute; reflexivity|].
  split; [vm_compute; reflexivity|].
  exists (world_of (_dump w1)).
  split; [vm_compute; reflexivity|].
  split; vm_compute; reflexivity.
Qed.

(** ** The flush on a backend that answers every call *)

Section Healthy.
Context {types : Types}.

Lemma healthy_shape (w : world) (c : conn) (items : list item_row)
  (logs : list log_row) :
  healthy w c items logs ->
  w = hworld (connected (self w)) (alive (self w)) (_dump_cycle (self w))
        (_buffer (self w)) false (style (self w))
        (hconn (style (self w)) items logs (log_item_id_idx (work c))
           (item_name_idx (work c)) (durable c))
        (now w) (events w).
Proof.
  intros (Hb & Hf & _ & Hc & Hd & Hcl & Hfa & Hi & Hl).
  destruct w as [[cn al cy buf bl sty fl fdb] nw ev]; simpl in *.
  destruct c as [d [it lg x1 x2] du cl fa]; simpl in *. subst.
  reflexivity.
Qed.

Section Steps.
Variables (cn : bool) (al : option bool) (cy : Z) (sty : string) (nw : datetime)
  (i1 i2 : bool).
Hypothesis Hsty : In sty styles.

Local Abbreviation W buf fl items logs du ev :=
  (hworld cn al cy buf fl sty (hconn sty items logs i1 i2 du) nw ev).

Ltac by_style :=
  destruct Hsty as [<-|[<-|[<-|[]]]]; vm_compute; reflexivity.

Lemma fetchone_select_id name cur buf fl items logs du ev :
  _fetchone "SELECT id FROM item where name = ?;" [SText name] cur
    (W buf fl items logs du ev)
  = Ret (select_id name items)
      (W buf fl items logs du
         (EvDriver CursorClose :: EvDriver Fetchone
          :: EvDriver (Execute (_format sty "SELECT id FROM item where name = ?;")
                         [SText name])
          :: EvDriver Cursor :: ev)).
Proof. by_style. Qed.

Lemma fetchone_select_max cur buf fl items logs du ev :
  _fetchone "SELECT MAX(id) FROM item;" [] cur (W buf fl items logs du ev)
  = Ret (Some [max_id items])
      (W buf fl items logs du
         (EvDriver CursorClose :: EvDriver Fetchone
          :: EvDriver (Execute (_format sty "SELECT MAX(id) FROM item;") [])
          :: EvDriver Cursor :: ev)).
Proof. by_style. Qed.

Lemma execute_insert_item i name cur buf fl items logs du ev :
  _execute "INSERT INTO item(id, name) VALUES(?,?);" [SInt i; SText name] (Some cur)
    (W buf fl items logs du ev)
  = Ret []
      (W buf fl (items ++ [new_item_row i name]) logs du
         (EvDriver (Execute (_format sty "INSERT INTO item(id, name) VALUES(?,?);")
                      [SInt i; SText name]) :: ev)).
Proof. by_style. Qed.

Lemma execute_insert_log i t cur buf fl items logs du ev :
  _execute insert_stmt (insert_params (Some i) t) (Some cur)
    (W buf fl items logs du ev)
  = Ret []
      (W buf fl items (logs ++ [log_row_of i t]) du
         (EvDriver (Execute (_format sty insert_stmt) (insert_params (Some i) t))
          :: ev)).
Proof.
  destruct t as [tm [s|] [n|] [b|]];
    destruct Hsty as [<-|[<-|[<-|[]]]]; vm_compute; reflexivity.
Qed.

Lemma execute_update_item i t buf fl items logs du ev :
  _execute update_stmt (update_params (Some i) t) None (W buf fl items logs du ev)
  = Ret []
      (W buf fl (map (snapshot_of i t) items) logs du
         (EvDriver CursorClose
          :: EvDriver (Execute (_format sty update_stmt) (update_params (Some i) t))
          :: EvDriver Cursor :: ev)).
Proof.
  destruct t as [tm [s|] [n|] [b|]];
    destruct Hsty as [<-|[<-|[<-|[]]]]; vm_compute; reflexivity.
Qed.

Lemma fdb_cursor_healthy buf fl items logs du ev :
  fdb_cursor (W buf fl items logs du ev)
  = Ret [] (W buf fl items logs du (EvDriver Cursor :: ev)).
Proof. reflexivity. Qed.

Lemma cur_close_healthy buf fl items logs du ev :
  cur_close (W buf fl items logs du ev)
  = Ret tt (W buf fl items logs du (EvDriver CursorClose :: ev)).
Proof. reflexivity. Qed.

Lemma fdb_commit_healthy buf fl items logs du ev :
  fdb_commit (W buf fl items logs du ev)
  = Ret tt (W buf fl items logs
              {| item_tbl := Some items; log_tbl := Some logs;
                 log_item_id_idx := i1; item_name_idx := i2 |}
              (EvDriver Commit :: ev)).
Proof. reflexivity. Qed.

Lemma select_id_find (name : string) (items : list item_row) :
  select_id name items = option_map (fun i => [Some i]) (lookup_id name items).
Proof.
  unfold select_id, lookup_id.
  induction items as [|r items IH]; simpl; [reflexivity|].
  destruct (name_is name r); [reflexivity | exact IH].
Qed.

Lemma max_id_next (items : list item_row) :
  match max_id items with None => 1 | Some m => m + 1 end = next_id items.
Proof.
  unfold max_id, next_id. destruct items as [|r rest]; simpl; [reflexivity|].
  generalize (r_id r). induction rest as [|r' rest IH]; intros a; simpl;
    [reflexivity | apply IH].
Qed.

Lemma lookup_id_app_new (name : string) (items : list item_row) (i : Z) :
  lookup_id name items = None ->
  lookup_id name (items ++ [new_item_row i name]) = Some i.
Proof.
  unfold lookup_id. induction items as [|r items IH]; simpl.
  - unfold name_is; simpl. now rewrite String.eqb_refl.
  - destruct (name_is name r); [discriminate | exact IH].
Qed.

Lemma resolve_healthy name buf fl items logs du ev :
  resolve name (W buf fl items logs du ev)
  = Ret (Some (fst (resolve_spec name items)))
      (W buf fl (snd (resolve_spec name items)) logs du
         (resolve_events sty name items ++ ev)).
Proof.
  unfold resolve.
  erewrite bind_ret by apply fetchone_select_id.
  rewrite select_id_find. unfold resolve_spec, resolve_events.
  destruct (lookup_id name items) as [i|] eqn:Hl; simpl option_map; cbv iota.
  - unfold bind, ret. reflexivity.
  - erewrite bind_ret.
    2:{ erewrite bind_ret by apply fetchone_select_max.
        erewrite bind_ret by apply fdb_cursor_healthy.
        simpl subscript0. erewrite bind_ret by reflexivity.
        rewrite max_id_next.
        erewrite bind_ret by apply execute_insert_item.
        erewrite bind_ret by apply fetchone_select_id.
        erewrite bind_ret by apply cur_close_healthy.
        rewrite select_id_find, (lookup_id_app_new _ _ _ Hl).
        reflexivity. }
    reflexivity.
Qed.

Lemma insert_loop_healthy i tuples :
  forall cur buf fl items logs du ev,
    for_fold tuples cur
      (fun cur t => _execute insert_stmt (insert_params (Some i) t) (Some cur))
      (W buf fl items logs du ev)
    = Ret (match tuples with [] => cur | _ :: _ => [] end)
        (W buf fl items (logs ++ map (log_row_of i) tuples) du
           (insert_events sty i tuples ++ ev)).
Proof.
  unfold insert_events.
  induction tuples as [|t l IH]; intros cur buf fl items logs du ev; simpl.
  - now rewrite app_nil_r.
  - erewrite bind_ret by apply execute_insert_log.
    rewrite IH, <- !app_assoc. simpl. destruct l; reflexivity.
Qed.

Lemma subscript_last_cons {A : Type} (x : A) (l : list A) (w : world) :
  subscript_last (x :: l) w = Ret (last (x :: l) x) w.
Proof.
  unfold subscript_last.
  assert (H : exists y, rev (x :: l) = last (x :: l) x :: y).
  { exists (rev (removelast (x :: l))).
    rewrite (app_removelast_last x (l := x :: l)) at 1 by discriminate.
    apply rev_unit. }
  destruct H as [y ->]. reflexivity.
Qed.

Lemma flush_locked_healthy name t0 l buf fl items logs du ev :
  flush_locked name (t0 :: l) (W buf fl items logs du ev)
  = Ret tt
      (W buf fl
         (fst (flush_tables name (t0 :: l) (items, logs)))
         (snd (flush_tables name (t0 :: l) (items, logs)))
         (tables_of i1 i2 (fst (flush_tables name (t0 :: l) (items, logs)))
                    (snd (flush_tables name (t0 :: l) (items, logs))))
         (flush_events sty name (t0 :: l) items ++ ev)).
Proof.
  unfold flush_locked.
  erewrite bind_ret by apply resolve_healthy.
  erewrite bind_ret by reflexivity.
  erewrite bind_ret by apply fdb_cursor_healthy.
  erewrite bind_ret by
    apply (insert_loop_healthy (fst (resolve_spec name items)) (t0 :: l)).
  erewrite bind_ret by apply subscript_last_cons.
  erewrite bind_ret by
    apply (execute_update_item (fst (resolve_spec name items)) (last (t0 :: l) t0)).
  erewrite bind_ret by apply cur_close_healthy.
  rewrite fdb_commit_healthy.
  unfold flush_tables, flush_events, tables_of. cbn [fst snd].
  destruct (resolve_spec name items) as [i items1]. cbn [fst snd].
  unfold hworld at 1. cbn [events app].
  rewrite <- !app_assoc. reflexivity.
Qed.

Lemma dump_item_healthy name tuples buf items logs du ev :
  dict_get name buf = Some tuples ->
  dump_item name (W buf false items logs du ev)
  = Ret tt
      (W (dict_set name [] buf) false
         (fst (flush_tables name tuples (items, logs)))
         (snd (flush_tables name tuples (items, logs)))
         (match tuples with
          | [] => du
          | _ :: _ => tables_of i1 i2 (fst (flush_tables name tuples (items, logs)))
                                (snd (flush_tables name tuples (items, logs)))
          end)
         (round_events sty name tuples items ++ ev)).
Proof.
  intros Hg. unfold dump_item.
  erewrite bind_ret by (apply drain_returns; [reflexivity | exact Hg]).
  destruct tuples as [|t0 l]; [reflexivity|].
  unfold try_finally, try_except, flush_item.
  rewrite (bind_ret fdb_lock_acquire (fun _ => flush_locked name (t0 :: l))
             (drained name (W buf false items logs du ev))
             (W (dict_set name [] buf) true items logs du
                (EvAcquire FdbLock :: EvRelease BufferLock
                 :: EvAcquire BufferLock :: ev)) tt eq_refl).
  rewrite flush_locked_healthy.
  unfold round_events. cbn [app]. rewrite <- !app_assoc. reflexivity.
Qed.

Lemma for_each_healthy (entries : list (string * list obs)) :
  forall buf items logs du ev,
    NoDup (map fst entries) ->
    (forall k v, In (k, v) entries -> dict_get k buf = Some v) ->
    exists du' ev',
      for_each (map fst entries) dump_item (W buf false items logs du ev)
      = Ret tt (W (cleared (map fst entries) buf) false
                  (fst (flush_all entries (items, logs)))
                  (snd (flush_all entries (items, logs))) du' ev').
Proof.
  induction entries as [|[k v] rest IH]; intros buf items logs du ev Hnd Hget.
  - exists du, ev. reflexivity.
  - inversion Hnd as [|? ? Hk Hnd']; subst.
    cbn [map fst for_each].
    erewrite bind_ret by (apply dump_item_healthy, Hget; now left).
    edestruct (IH (dict_set k [] buf)) as (du' & ev' & E); [exact Hnd'| |].
    { intros k' v' Hin. rewrite dict_get_set.
      destruct (String.eqb_spec k k') as [->|_].
      - exfalso. apply Hk. apply (in_map fst) in Hin. exact Hin.
      - apply Hget. now right. }
    exists du', ev'. rewrite E. unfold flush_all, cleared. cbn [fold_left fst snd].
    rewrite <- surjective_pairing. reflexivity.
Qed.

Lemma dump_healthy buf items logs du ev :
  NoDup (dict_keys buf) ->
  exists du' ev',
    _dump (W buf false items logs du ev)
    = Ret tt (W (cleared (dict_keys buf) buf) false
                (fst (flush_all buf (items, logs)))
                (snd (flush_all buf (items, logs))) du' ev').
Proof.
  intros Hnd.
  destruct (for_each_healthy buf buf items logs du
              (EvLog DEBUG MsgStartingDump :: ev) Hnd) as (du' & ev' & E).
  { clear -Hnd. induction buf as [|[k0 v0] buf IH]; intros k v; [intros []|].
    inversion Hnd as [|? ? Hk Hnd']; subst. simpl.
    intros [[= -> ->]|Hin].
    - now rewrite String.eqb_refl.
    - destruct (String.eqb_spec k0 k) as [->|_]; [|now apply IH].
      exfalso. apply Hk. apply (in_map fst) in Hin. exact Hin. }
  exists du', ev'. unfold dict_keys. rewrite <- E.
  unfold _dump, bind, get_self, log, tell, ret. destruct cn; reflexivity.
Qed.

(** The same with the durable state followed: it is the state left by the
    commit of the last round that had tuples. *)
Lemma flush_all_nothing (entries : list (string * list obs))
  (tb : list item_row * list log_row) :
  any_tuples entries = false -> flush_all entries tb = tb.
Proof.
  unfold flush_all, any_tuples. revert tb.
  induction entries as [|[k v] rest IH]; intros tb; [reflexivity|].
  cbn [existsb fold_left fst snd]. destruct v as [|t0 l]; [|discriminate].
  cbn [orb]. intros H. now apply IH.
Qed.

Lemma for_each_healthy_durable (entries : list (string * list obs)) :
  forall buf items logs du ev,
    NoDup (map fst entries) ->
    (forall k v, In (k, v) entries -> dict_get k buf = Some v) ->
    exists ev',
      for_each (map fst entries) dump_item (W buf false items logs du ev)
      = Ret tt (W (cleared (map fst entries) buf) false
                  (fst (flush_all entries (items, logs)))
                  (snd (flush_all entries (items, logs)))
                  (if any_tuples entries
                   then tables_of i1 i2 (fst (flush_all entries (items, logs)))
                                        (snd (flush_all entries (items, logs)))
                   else du)
                  ev').
Proof.
  induction entries as [|[k v] rest IH]; intros buf items logs du ev Hnd Hget.
  - exists ev. reflexivity.
  - inversion Hnd as [|? ? Hk Hnd']; subst.
    cbn [map fst for_each].
    erewrite bind_ret by (apply dump_item_healthy, Hget; now left).
    edestruct (IH (dict_set k [] buf)) as (ev' & E); [exact Hnd'| |].
    { intros k' v' Hin. rewrite dict_get_set.
      destruct (String.eqb_spec k k') as [->|_].
      - exfalso. apply Hk. apply (in_map fst) in Hin. exact Hin.
      - apply Hget. now right. }
    exists ev'. rewrite E.
    change (flush_all ((k, v) :: rest) (items, logs))
      with (flush_all rest (flush_tables k v (items, logs))).
    change (any_tuples ((k, v) :: rest))
      with (match v with [] => false | _ :: _ => true end || any_tuples rest)%bool.
    change (cleared (map fst rest) (dict_set k [] buf))
      with (cleared (k :: map fst rest) buf).
    rewrite <- (surjective_pairing (flush_tables k v (items, logs))).
    destruct (any_tuples rest) eqn:Hr.
    + rewrite Bool.orb_true_r. reflexivity.
    + rewrite Bool.orb_false_r, (flush_all_nothing rest _ Hr).
      destruct v as [|t0 l]; reflexivity.
Qed.

Lemma dump_healthy_durable buf items logs du ev :
  NoDup (dict_keys buf) ->
  exists ev',
    _dump (W buf false items logs du ev)
    = Ret tt (W (cleared (dict_keys buf) buf) false
                (fst (flush_all buf (items, logs)))
                (snd (flush_all buf (items, logs)))
                (if any_tuples buf
                 then tables_of i1 i2 (fst (flush_all buf (items, logs)))
                                      (snd (flush_all buf (items, logs)))
                 else du)
                ev').
Proof.
  intros Hnd.
  destruct (for_each_healthy_durable buf buf items logs du
              (EvLog DEBUG MsgStartingDump :: ev) Hnd) as (ev' & E).
  { clear -Hnd. induction buf as [|[k0 v0] buf IH]; intros k v; [intros []|].
    inversion Hnd as [|? ? Hk Hnd']; subst. simpl.
    intros [[= -> ->]|Hin].
    - now rewrite String.eqb_refl.
    - destruct (String.eqb_spec k0 k) as [->|_]; [|now apply IH].
      exfalso. apply Hk. apply (in_map fst) in Hin. exact Hin. }
  exists ev'. unfold dict_keys. rewrite <- E.
  unfold _dump, bind, get_self, log, tell, ret. destruct cn; reflexivity.
Qed.

End Steps.


Lemma cleared_get (ks : list string) :
  forall (buf : list (string * list obs)) (k : string),
    dict_get k (cleared ks buf)
    = if in_dec string_dec k ks then Some [] else dict_get k buf.
Proof.
  unfold cleared. induction ks as [|k0 ks IH]; intros buf k; [reflexivity|].
  cbn [fold_left]. rewrite IH, dict_get_set.
  destruct (in_dec string_dec k ks) as [Hin|Hnin];
    destruct (in_dec string_dec k (k0 :: ks)) as [Hin'|Hnin']; try reflexivity.
  - exfalso; apply Hnin'; now right.
  - destruct Hin' as [->|Hin']; [|contradiction]. now rewrite String.eqb_refl.
  - destruct (String.eqb_spec k0 k) as [->|_]; [|reflexivity].
    exfalso; apply Hnin'; now left.
Qed.

(** *** The keys of the buffer are distinct *)

Lemma dict_set_keys {V : Type} (k : string) (v : V) (d : list (string * V)) :
  dict_keys (dict_set k v d)
  = if in_dec string_dec k (dict_keys d) then dict_keys d else dict_keys d ++ [k].
Proof.
  unfold dict_keys. induction d as [|[k0 v0] d IH]; [reflexivity|].
  cbn [dict_set map fst].
  destruct (String.eqb_spec k0 k) as [->|Hne]; cbn [map fst].
  - destruct (in_dec string_dec k (k :: map fst d)) as [_|Hn];
      [reflexivity | exfalso; apply Hn; now left].
  - rewrite IH.
    destruct (in_dec string_dec k (map fst d)) as [Hin|Hnin];
      destruct (in_dec string_dec k (k0 :: map fst d)) as [Hin'|Hnin'];
      try reflexivity.
    + exfalso; apply Hnin'; now right.
    + destruct Hin' as [->|Hin']; contradiction.
Qed.

Lemma dict_set_nodup {V : Type} (k : string) (v : V) (d : list (string * V)) :
  NoDup (dict_keys d) -> NoDup (dict_keys (dict_set k v d)).
Proof.
  intros Hd. rewrite dict_set_keys.
  destruct (in_dec string_dec k (dict_keys d)) as [_|Hn]; [exact Hd|].
  apply NoDup_app; [exact Hd | repeat constructor; intros [] |].
  intros x Hx [<-|[]]. contradiction.
Qed.

Lemma keys_nodup_exec_op `{clock : Clock} `{builtins : Builtins} (o : op)
  (w : world) :
  NoDup (dict_keys (_buffer (self w))) ->
  NoDup (dict_keys (_buffer (self (exec_op o w)))).
Proof.
  set (P := fun x : world => NoDup (dict_keys (_buffer (self x)))).
  assert (He : blind_to_events P) by (intros e x Hx; exact Hx).
  assert (Hc : forall name,
             blind_to P (fun s => set_buffer (dict_set name [] (_buffer s)) s))
    by (intros name x Hx; apply dict_set_nodup, Hx).
  change (P w -> P (exec_op o w)).
  intros Hw. destruct o as [it| |it| | |dt]; cbn [exec_op].
  - apply preserves_parse_item; assumption.
  - apply preserves_run; [|exact Hw]. intros a x Hx; exact Hx.
  - pose proof (update_item_fails it w) as Hf.
    destruct (update_item it w) as [[] w'|e w'|w'] eqn:E; cbn [world_of];
      [|subst; exact Hw..].
    apply update_item_returns in E as (l & ob & _ & -> & _).
    apply dict_set_nodup, Hw.
  - apply preserves_dump; try assumption; intros a x Hx; exact Hx.
  - apply preserves_stop; try assumption; intros a x Hx; exact Hx.
  - exact Hw.
Qed.

(** After [__init__] has returned and any calls of the plugin's methods,
    no key occurs twice in the buffer. *)
Lemma session_keys_nodup `{clock : Clock} `{builtins : Builtins}
  (api : dbapi) (cycle : Z) (ops : list op) (w0 w : world) :
  __init__ api cycle w0 = Ret tt w ->
  NoDup (dict_keys (_buffer (self (session api cycle ops w0)))).
Proof.
  intros Hinit. unfold session. rewrite Hinit. cbn [world_of].
  assert (Hw : NoDup (dict_keys (_buffer (self w)))).
  { set (P := fun x : world => NoDup (dict_keys (_buffer (self x)))).
    assert (Hk : forall k : M unit,
               preserves P k -> forall x, P x -> forall y, k x = Ret tt y -> P y).
    { intros k Hp x Hx y E. specialize (Hp x Hx). now rewrite E in Hp. }
    revert Hinit. unfold __init__.
    match goal with |- bind (modify ?f) ?k w0 = _ -> _ =>
      change (k tt (on_self f w0) = Ret tt w -> P w);
      apply (Hk (k tt)); [|constructor]
    end.
    cbv beta.
    unfold fdb_cursor, cur_execute, cur_close; frames;
      try solve [intros ? Hx; exact Hx
                | intros ? ? Hx; exact Hx
                | apply preserves_on_fdb; intros ? ? Hx; exact Hx
                | apply preserves_fdb_lock_acquire; intros ? ? Hx; exact Hx
                | apply preserves_fdb_lock_release; intros ? ? Hx; exact Hx ]. }
  clear Hinit. revert w Hw. induction ops as [|o ops IH]; intros w Hw; [exact Hw|].
  cbn [fold_left]. apply IH, keys_nodup_exec_op, Hw.
Qed.

Lemma rev_round {A : Type} (r c1 c2 c3 c4 c5 c6 c7 a1 a2 a3 : A) (ins res : list A) :
  rev (r :: (c1 :: c2 :: c3 :: c4 :: c5 :: ins ++ c6 :: c7 :: res) ++ [a1; a2; a3])
  = [a3; a2; a1] ++ rev res ++ [c7; c6] ++ rev ins ++ [c5; c4; c3; c2; c1; r].
Proof.
  cbn [rev app]. rewrite !rev_app_distr. cbn [rev app].
  rewrite <- !app_assoc. reflexivity.
Qed.

(** C3. On a connected instance with a backend that answers every call,
    one round of the flush loop for an item whose buffer holds the tuples
    [t0 :: l] resolves the item's id [i], appends to the [log] table one
    row [(time, i, val_str, val_num, val_bool)] per tuple, in the order of
    the buffer, then sets the snapshot of the rows with id [i] in the
    [item] table to the fields of the last tuple, and commits; the calls
    reach the driver in this order: the inserts, the update, the commit.
    The item's buffer is empty afterwards. [_dump] does this for every key
    of the buffer, in the order of the buffer, and leaves every buffer
    empty (the keys of a buffer are distinct, [session_keys_nodup]). *)
Theorem flush_persists
  (name : string) (t0 : obs) (l : list obs) (w : world) (c : conn)
  (items : list item_row) (logs : list log_row) :
  healthy w c items logs ->
  dict_get name (_buffer (self w)) = Some (t0 :: l) ->
  let tuples := t0 :: l in
  let i := fst (resolve_spec name items) in
  let sty := style (self w) in
  (exists w' c' pre,
      dump_item name w = Ret tt w' /\
      healthy w' c'
        (map (snapshot_of i (last tuples t0)) (snd (resolve_spec name items)))
        (logs ++ map (log_row_of i) tuples) /\
      durable c' = work c' /\
      dict_get name (_buffer (self w')) = Some [] /\
      trace w'
      = trace w ++ pre
        ++ map (fun t => EvDriver
                           (Execute (_format sty "INSERT INTO log VALUES (?,?,?,?,?);")
                              [SInt (o_time t); SInt i; sql_text (o_str t);
                               sql_real (o_num t); sql_bool (o_bool t)])) tuples
        ++ [ EvDriver Cursor;
             EvDriver
               (Execute
                  (_format sty
                     "UPDATE item SET time = ?, val_str = ?, val_num = ?, val_bool = ? WHERE id = ?;")
                  [SInt (o_time (last tuples t0)); sql_text (o_str (last tuples t0));
                   sql_real (o_num (last tuples t0));
                   sql_bool (o_bool (last tuples t0)); SInt i]);
             EvDriver CursorClose; EvDriver CursorClose; EvDriver Commit;
             EvRelease FdbLock ]) /\
  (NoDup (dict_keys (_buffer (self w))) ->
   exists w' c',
     _dump w = Ret tt w' /\
     healthy w' c' (fst (flush_all (_buffer (self w)) (items, logs)))
                   (snd (flush_all (_buffer (self w)) (items, logs))) /\
     forall k, dict_get k (_buffer (self w'))
               = option_map (fun _ => []) (dict_get k (_buffer (self w)))).
Proof.
  intros (Hb & Hf & Hsty & Hc & Hd & Hcl & Hfa & Hi & Hl) Hg tuples i sty.
  subst tuples i sty.
  destruct w as [[cn al cy buf bl sty fl fdb] nw ev].
  destruct c as [d [it lg x1 x2] du cl fa].
  cbn [self _buffer _buffer_lock style _fdb_lock _fdb dialect work closed faults
       item_tbl log_tbl durable] in *.
  subst.
  split.
  - pose proof (dump_item_healthy cn al cy sty nw x1 x2 Hsty name (t0 :: l)
                  buf items logs du ev Hg) as E.
    unfold hworld, hconn, round_events, flush_events, flush_tables, tables_of in E.
    cbn [fst snd] in E.
    destruct (resolve_spec name items) as [i items1]. cbn [fst snd] in E |- *.
    eexists; eexists.
    exists ([EvAcquire BufferLock; EvRelease BufferLock; EvAcquire FdbLock]
            ++ rev (resolve_events sty name items)
            ++ [EvLog DEBUG (MsgDumping name (Some i) (length (t0 :: l)));
                EvDriver Cursor]).
    split; [exact E|].
    split; [repeat split; solve [assumption | reflexivity]|].
    split; [reflexivity|].
    split; [cbn [self _buffer]; now rewrite dict_get_set, String.eqb_refl|].
    unfold trace. cbn [events].
    rewrite rev_app_distr, rev_round. unfold insert_events.
    rewrite rev_involutive, <- !app_assoc. reflexivity.
  - intros Hnd.
    destruct (dump_healthy cn al cy sty nw x1 x2 Hsty buf items logs du ev Hnd)
      as (du' & ev' & E).
    unfold hworld, hconn in E.
    eexists; eexists. split; [exact E|].
    split; [repeat split; solve [assumption | reflexivity]|].
    intros k. cbn [self _buffer]. rewrite cleared_get.
    destruct (in_dec string_dec k (dict_keys buf)) as [Hin|Hnin].
    + apply dict_get_keys in Hin.
      destruct (dict_get k buf); [reflexivity | contradiction].
    + destruct (dict_get k buf) eqn:Hk; [|reflexivity].
      exfalso; apply Hnin, dict_get_keys. now rewrite Hk.
Qed.

(** *** Names and ids in the [item] table *)

Lemma set_snapshot_name (i tm : Z) s n b (r : item_row) :
  r_name (set_snapshot i tm s n b r) = r_name r /\
  r_id (set_snapshot i tm s n b r) = r_id r.
Proof. unfold set_snapshot. destruct (r_id r =? i); split; reflexivity. Qed.

Lemma name_is_snapshot (n : string) (i : Z) (t : obs) (r : item_row) :
  name_is n (snapshot_of i t r) = name_is n r.
Proof.
  unfold name_is, snapshot_of.
  now destruct (set_snapshot_name i (o_time t) (o_str t) (o_num t) (o_bool t) r)
    as [-> _].
Qed.

Lemma lookup_id_snapshot (n : string) (i : Z) (t : obs) (items : list item_row) :
  lookup_id n (map (snapshot_of i t) items) = lookup_id n items.
Proof.
  unfold lookup_id. induction items as [|r items IH]; [reflexivity|].
  cbn [map find]. rewrite name_is_snapshot.
  destruct (name_is n r); [|exact IH].
  cbn [option_map]. unfold snapshot_of.
  now destruct (set_snapshot_name i (o_time t) (o_str t) (o_num t) (o_bool t) r)
    as [_ ->].
Qed.

Lemma rows_named_snapshot (n : string) (i : Z) (t : obs) (items : list item_row) :
  rows_named n (map (snapshot_of i t) items) = rows_named n items.
Proof.
  unfold rows_named. induction items as [|r items IH]; [reflexivity|].
  cbn [map filter]. rewrite name_is_snapshot.
  destruct (name_is n r); cbn [length]; now rewrite IH.
Qed.

Lemma lookup_id_app (n : string) (j : Z) (items more : list item_row) :
  lookup_id n items = Some j -> lookup_id n (items ++ more) = Some j.
Proof.
  unfold lookup_id. induction items as [|r items IH]; [discriminate|].
  cbn [app find]. destruct (name_is n r); [trivial | exact IH].
Qed.

Lemma rows_named_app (n : string) (items more : list item_row) :
  rows_named n (items ++ more) = (rows_named n items + rows_named n more)%nat.
Proof. unfold rows_named. now rewrite filter_app, length_app. Qed.

Lemma lookup_none_rows (n : string) (items : list item_row) :
  lookup_id n items = None -> rows_named n items = O.
Proof.
  unfold lookup_id, rows_named. induction items as [|r items IH]; [reflexivity|].
  cbn [find filter]. destruct (name_is n r); [discriminate | exact IH].
Qed.

Lemma fold_max_bound (l : list Z) :
  forall a, a <= fold_left Z.max l a /\
            (forall x, In x l -> x <= fold_left Z.max l a) /\
            (fold_left Z.max l a = a \/ In (fold_left Z.max l a) l).
Proof.
  induction l as [|y l IH]; intros a; cbn [fold_left].
  - repeat split; [lia | intros x [] | now left].
  - destruct (IH (Z.max a y)) as (H1 & H2 & H3). repeat split.
    + lia.
    + intros x [<-|Hx]; [lia | now apply H2].
    + destruct H3 as [H3|H3]; [|right; now right].
      rewrite H3. destruct (Z.max_spec a y) as [[_ ->]|[_ ->]];
        [right; now left | now left].
Qed.

(** [next_id] is [1] on the empty table; otherwise it is one more than an
    id of the table that no id of the table exceeds. *)
Lemma next_id_spec (items : list item_row) :
  (items = [] -> next_id items = 1) /\
  (items <> [] ->
   exists r, In r items /\ next_id items = r_id r + 1 /\
             forall r', In r' items -> r_id r' <= r_id r).
Proof.
  split; [intros ->; reflexivity|].
  destruct items as [|r rest]; [contradiction|]. intros _.
  unfold next_id.
  destruct (fold_max_bound (map r_id rest) (r_id r)) as (H1 & H2 & H3).
  assert (Hall : forall r', In r' (r :: rest) ->
                            r_id r' <= fold_left Z.max (map r_id rest) (r_id r)).
  { intros r' [<-|Hin]; [exact H1 | apply H2, in_map, Hin]. }
  destruct H3 as [H3|H3].
  - exists r. rewrite H3 in *. repeat split; [now left | exact Hall].
  - apply in_map_iff in H3 as (r0 & Hr0 & Hin).
    exists r0. rewrite <- Hr0 in *. repeat split; [now right | exact Hall].
Qed.

Lemma resolve_spec_keeps (name n : string) (j : Z) (items : list item_row) :
  lookup_id n items = Some j ->
  lookup_id n (snd (resolve_spec name items)) = Some j.
Proof.
  intros Hn. unfold resolve_spec.
  destruct (lookup_id name items); cbn [snd]; [exact Hn|].
  now apply lookup_id_app.
Qed.

Lemma resolve_spec_rows (name n : string) (items : list item_row) :
  (rows_named n items <= 1)%nat ->
  (rows_named n (snd (resolve_spec name items)) <= 1)%nat.
Proof.
  intros Hn. unfold resolve_spec.
  destruct (lookup_id name items) eqn:Hl; cbn [snd]; [exact Hn|].
  rewrite rows_named_app. unfold rows_named at 2. cbn [filter].
  unfold name_is at 1. cbn [r_name new_item_row].
  destruct (String.eqb_spec name n) as [->|_]; cbn [length]; [|lia].
  rewrite (lookup_none_rows _ _ Hl). lia.
Qed.

Lemma flush_tables_keeps (name n : string) (tuples : list obs) (j : Z)
  (items : list item_row) (logs : list log_row) :
  lookup_id n items = Some j ->
  lookup_id n (fst (flush_tables name tuples (items, logs))) = Some j.
Proof.
  intros Hn. unfold flush_tables. destruct tuples as [|t0 l]; [exact Hn|].
  cbn [fst snd]. pose proof (resolve_spec_keeps name n j items Hn) as Hk.
  destruct (resolve_spec name items) as [i items1]. cbn [fst snd] in *.
  now rewrite lookup_id_snapshot.
Qed.

Lemma flush_tables_rows (name n : string) (tuples : list obs)
  (items : list item_row) (logs : list log_row) :
  (rows_named n items <= 1)%nat ->
  (rows_named n (fst (flush_tables name tuples (items, logs))) <= 1)%nat.
Proof.
  intros Hn. unfold flush_tables. destruct tuples as [|t0 l]; [exact Hn|].
  cbn [fst snd]. pose proof (resolve_spec_rows name n items Hn) as Hk.
  destruct (resolve_spec name items) as [i items1]. cbn [fst snd] in *.
  now rewrite rows_named_snapshot.
Qed.

Lemma flush_all_keeps (buf : list (string * list obs)) (n : string) (j : Z) :
  forall items logs,
    lookup_id n items = Some j ->
    lookup_id n (fst (flush_all buf (items, logs))) = Some j.
Proof.
  unfold flush_all. induction buf as [|[k v] buf IH]; intros items logs Hn;
    [exact Hn|].
  cbn [fold_left fst snd].
  rewrite (surjective_pairing (flush_tables k v (items, logs))).
  apply IH, flush_tables_keeps, Hn.
Qed.

Lemma flush_all_rows (buf : list (string * list obs)) (n : string) :
  forall items logs,
    (rows_named n items <= 1)%nat ->
    (rows_named n (fst (flush_all buf (items, logs))) <= 1)%nat.
Proof.
  unfold flush_all. induction buf as [|[k v] buf IH]; intros items logs Hn;
    [exact Hn|].
  cbn [fold_left fst snd].
  rewrite (surjective_pairing (flush_tables k v (items, logs))).
  apply IH, flush_tables_rows, Hn.
Qed.

(** C5. On a backend that answers every call, [resolve name] returns the
    id stored for a name that is in the [item] table and writes nothing.
    For a name that is not, it takes [next_id]: [1] on an empty table, one
    more than the greatest id otherwise; it appends the row
    [(next_id, name)] and returns the id that the second select finds, which
    is [next_id]. Afterwards the name resolves to the id returned, every
    name keeps the id it resolved to, and a name that had at most one row
    still has at most one. The same holds across a whole [_dump]. *)
Theorem resolve_identifier :
  (forall (name : string) (w : world) (c : conn)
          (items : list item_row) (logs : list log_row),
      answering w c items logs ->
      exists w' c' i items',
        resolve name w = Ret (Some i) w' /\
        answering w' c' items' logs /\
        match lookup_id name items with
        | Some j => i = j /\ items' = items
        | None =>
            i = next_id items /\
            items' = items ++ [new_item_row i name] /\
            (items = [] -> i = 1) /\
            (items <> [] ->
             exists r, In r items /\ i = r_id r + 1 /\
                       forall r', In r' items -> r_id r' <= r_id r)
        end /\
        lookup_id name items' = Some i /\
        (forall n j, lookup_id n items = Some j -> lookup_id n items' = Some j) /\
        (forall n, (rows_named n items <= 1)%nat -> (rows_named n items' <= 1)%nat)) /\
  (forall (w : world) (c : conn) (items : list item_row) (logs : list log_row),
      healthy w c items logs ->
      NoDup (dict_keys (_buffer (self w))) ->
      exists w' c' items' logs',
        _dump w = Ret tt w' /\
        healthy w' c' items' logs' /\
        (forall n j, lookup_id n items = Some j -> lookup_id n items' = Some j) /\
        (forall n, (rows_named n items <= 1)%nat -> (rows_named n items' <= 1)%nat)).
Proof.
  split.
  - intros name w c items logs (Hb & Hf & Hsty & Hc & Hd & Hcl & Hfa & Hi & Hl).
    destruct w as [[cn al cy buf bl sty fl fdb] nw ev].
    destruct c as [d [it lg x1 x2] du cl fa].
    cbn [self _buffer _buffer_lock style _fdb_lock _fdb dialect work closed faults
         item_tbl log_tbl durable] in *.
    subst. destruct fl as [fl|]; [|contradiction].
    pose proof (resolve_healthy cn al cy sty nw x1 x2 Hsty name buf fl items logs
                  du ev) as E.
    unfold hworld, hconn in E.
    eexists; eexists; eexists; eexists. split; [exact E|].
    split; [repeat split; solve [assumption | reflexivity | discriminate]|].
    split; [|split; [|split]].
    + unfold resolve_spec. destruct (lookup_id name items) as [j|] eqn:Hl;
        cbn [fst snd]; [split; reflexivity|].
      destruct (next_id_spec items) as [H0 H1].
      repeat split; assumption.
    + unfold resolve_spec. destruct (lookup_id name items) as [j|] eqn:Hl;
        cbn [fst snd]; [exact Hl | now apply lookup_id_app_new].
    + intros n j. apply resolve_spec_keeps.
    + intros n. apply resolve_spec_rows.
  - intros w c items logs (Hb & Hf & Hsty & Hc & Hd & Hcl & Hfa & Hi & Hl) Hnd.
    destruct w as [[cn al cy buf bl sty fl fdb] nw ev].
    destruct c as [d [it lg x1 x2] du cl fa].
    cbn [self _buffer _buffer_lock style _fdb_lock _fdb dialect work closed faults
         item_tbl log_tbl durable] in *.
    subst.
    destruct (dump_healthy cn al cy sty nw x1 x2 Hsty buf items logs du ev Hnd)
      as (du' & ev' & E).
    unfold hworld, hconn in E.
    eexists; eexists; eexists; eexists. split; [exact E|].
    split; [repeat split; solve [assumption | reflexivity]|].
    split.
    + intros n j. apply flush_all_keeps.
    + intros n. apply flush_all_rows.
Qed.

End Healthy.

(** ** Shutdown *)

Section Shutdown.
Context {types : Types} {clock : Clock} {builtins : Builtins}.

(** C9. [stop], called with both locks free (as they are on every
    instance built with a supported style), first runs [_dump] to its end
    (on the instance with [alive] cleared): this final flush leaves every
    buffer empty. Then [stop] takes the connection lock, calls [close] on
    the connection if there is one, sets [connected] to [False] and
    releases the lock. It returns normally whatever [close] does: the
    events after the flush are the acquire, the call of [close] and the
    release, in this order, and no exception leaves [stop].

    On a backend that answers every call, the final flush has written and
    committed the tuples that were buffered: the connection that [stop]
    leaves is closed, and if a tuple was buffered its durable state holds
    the tables of that flush, [flush_all] of the buffer on the tables as
    they were; if none was, the durable state is as before. *)
Theorem stop_closes (w : world) :
  locks_free w ->
  (exists w1 w2,
      _dump (on_self (set_alive (Some false)) w) = Ret tt w1 /\
      (forall k, dict_get k (_buffer (self w1))
                 = option_map (fun _ => []) (dict_get k (_buffer (self w)))) /\
      stop w = Ret tt w2 /\
      connected (self w2) = false /\
      trace w2 = trace w1 ++ [EvAcquire FdbLock]
                 ++ match _fdb (self w1) with
                    | Some _ => [EvDriver Close]
                    | None => []
                    end
                 ++ [EvRelease FdbLock] /\
      _fdb (self w2) = option_map (fun c => snd (conn_close c)) (_fdb (self w1)) /\
      _buffer (self w2) = _buffer (self w1) /\
      locks_free w2) /\
  (forall (c : conn) (items : list item_row) (logs : list log_row),
      healthy w c items logs ->
      NoDup (dict_keys (_buffer (self w))) ->
      let flushed := flush_all (_buffer (self w)) (items, logs) in
      exists w2 c2,
        stop w = Ret tt w2 /\
        connected (self w2) = false /\
        _fdb (self w2) = Some c2 /\
        closed c2 = true /\
        durable c2
        = (if any_tuples (_buffer (self w))
           then tables_of (log_item_id_idx (work c)) (item_name_idx (work c))
                  (fst flushed) (snd flushed)
           else durable c) /\
        work c2 = durable c2).
Proof.
  intros Hlf. split.
  - destruct (dump_returns (on_self (set_alive (Some false)) w) Hlf)
      as (w1 & Hd & [Hb Hf] & Hbuf).
    exists w1.
    assert (Hs : stop w
                 = try_finally (try_except fdb_close (fun _ : exn => ret tt))
                     (bind (modify (set_connected false))
                        (fun _ : unit => fdb_lock_release))
                     (fdb_locked w1)).
    { unfold stop. unfold bind at 1. unfold modify at 1.
      rewrite (bind_ret _ _ _ _ _ Hd).
      rewrite (bind_ret _ _ _ _ _ (fdb_lock_acquire_free w1 Hf)). reflexivity. }
    rewrite Hs. clear Hs.
    unfold try_finally, try_except, fdb_close, on_fdb, bind, get_self, modify, tell,
      lift, ret, raise, fdb_lock_release, trace.
    simpl. destruct (_fdb (self w1)) as [c|] eqn:Hfdb; simpl.
    + destruct (fst (conn_close c)) as [e|[]]; simpl;
        eexists; (split; [exact Hd|]); (split; [exact Hbuf|]);
        (split; [reflexivity|]); simpl;
        rewrite <- ?app_assoc; repeat split; assumption.
    + eexists; (split; [exact Hd|]); (split; [exact Hbuf|]);
        (split; [reflexivity|]); simpl;
        rewrite <- ?app_assoc; repeat split; assumption.
  - intros c items logs (Hb & Hf & Hsty & Hc & Hd & Hcl & Hfa & Hi & Hl) Hnd flushed.
    subst flushed. clear Hlf.
    destruct w as [[cn al cy buf bl sty fl fdb] nw ev].
    destruct c as [d [it lg x1 x2] du cl fa].
    cbn [self _buffer _buffer_lock style _fdb_lock _fdb dialect work closed faults
         item_tbl log_tbl durable log_item_id_idx item_name_idx] in *.
    subst.
    destruct (dump_healthy_durable cn (Some false) cy sty nw x1 x2 Hsty buf items
                logs du ev Hnd) as (ev' & E).
    unfold hworld, hconn in E.
    unfold stop.
    rewrite (bind_ret (modify (set_alive (Some false))) _ _ _ tt eq_refl).
    cbv beta. unfold on_self, set_alive. cbn [self now events connected _dump_cycle
      _buffer _buffer_lock style _fdb_lock _fdb].
    rewrite (bind_ret _ _ _ _ _ E).
    eexists. eexists. split; [reflexivity|].
    split; [reflexivity|]. split; [reflexivity|].
    split; [reflexivity|]. split; reflexivity.
Qed.

End Shutdown.

(** ** Concurrent appends and drains *)

(** C2, on the code. [update_item] takes no lock: it leaves no lock event,
    and its code holds no acquire. With one item whose buffer is empty, let
    a producer thread run [update_item] for the observation [o] and the
    scheduler thread run [_dump], in this order: the producer loads the
    item's list; the flusher swaps it for a new list, finds it empty and
    flushes nothing; the producer appends [o] to the list it had loaded.
    Both threads are done, [o] is in no buffer and in no row, and a second
    [_dump] finds nothing to flush: [o] is drained zero times. *)
Theorem update_item_races :
  (forall (types : Types) (clock : Clock) (builtins : Builtins)
          (it : item) (w : world),
      events (world_of (update_item it w)) = events w) /\
  (forall (types : Types) (name : string) (o : obs),
      ~ In IAcquire (update_item_code name o)) /\
  (forall (types : Types) (o : obs),
      let s0 := {| heap := [[]]; buffer_of := [("temp1", O)];
                   lock_owner := None; logged := [] |} in
      let producer := {| code := update_item_code "temp1" o; local := None |} in
      let flusher := {| code := dump_code ["temp1"]; local := None |} in
      let done := {| code := []; local := Some O |} in
      let s1 := {| heap := [[o]; []]; buffer_of := [("temp1", 1%nat)];
                   lock_owner := None; logged := [] |} in
      let s2 := {| heap := [[o]; []; []]; buffer_of := [("temp1", 2%nat)];
                   lock_owner := None; logged := [] |} in
      run_schedule [0; 1; 1; 1; 1; 1; 0]%nat s0 [producer; flusher]
      = Some (s1, [done; done]) /\
      buffered "temp1" s1 = [] /\
      run_schedule [0; 0; 0; 0; 0]%nat s1 [flusher]
      = Some (s2, [{| code := []; local := Some 1%nat |}]) /\
      buffered "temp1" s2 = []).
Proof.
  split; [|split].
  - intros types clock builtins it w.
    pose proof (update_item_fails it w) as Hf.
    destruct (update_item it w) as [[] w'|e w'|w'] eqn:E; simpl;
      [|subst; reflexivity..].
    apply update_item_returns in E as (l & o & _ & -> & _). reflexivity.
  - intros types name o [H|[H|[]]]; discriminate.
  - intros types o s0 producer flusher done s1 s2.
    repeat split; vm_compute; reflexivity.
Qed.

(** ** Worked examples *)

(** The session of three updates on a fresh database leaves a healthy
    instance with the three readings in the buffer of [temp1]. *)
Lemma three_updates_healthy :
  healthy (session qmark_api 10 three_updates boot)
    (hconn "qmark" [] [] true true empty_schema) [] [] /\
  _buffer (self (session qmark_api 10 three_updates boot))
  = [("temp1", [reading 1609459200250; reading 1609459201250;
                reading 1609459202250])].
Proof.
  split.
  - unfold healthy. repeat split; try (vm_compute; reflexivity).
    vm_compute. now left.
  - vm_compute. reflexivity.
Defined.

(** Three readings of [temp1], then one round of the flush on an empty
    database: three rows in [log] for id [1], one row in [item] with the
    third reading, an empty buffer. *)
Lemma flush_persists_witness :
  let w := session qmark_api 10 three_updates boot in
  let c := hconn "qmark" [] [] true true empty_schema in
  healthy w c [] [] /\
  dict_get "temp1" (_buffer (self w))
  = Some [reading 1609459200250; reading 1609459201250; reading 1609459202250] /\
  exists w' c',
    dump_item "temp1" w = Ret tt w' /\
    healthy w' c'
      [ {| r_id := 1; r_name := "temp1"; r_time := Some 1609459202250;
           r_val_str := None; r_val_num := Some (inject_Z 21);
           r_val_bool := None |} ]
      [ log_row_of 1 (reading 1609459200250);
        log_row_of 1 (reading 1609459201250);
        log_row_of 1 (reading 1609459202250) ] /\
    durable c' = work c' /\
    dict_get "temp1" (_buffer (self w')) = Some [].
Proof.
  intros w c.
  pose proof (proj1 three_updates_healthy) as H.
  assert (Hg : dict_get "temp1" (_buffer (self w))
               = Some [reading 1609459200250; reading 1609459201250;
                       reading 1609459202250])
    by (vm_compute; reflexivity).
  split; [exact H | split; [exact Hg|]].
  destruct (flush_persists "temp1" _ _ w c [] [] H Hg)
    as [(w' & c' & pre & E & Hh & Hd & Hb & _) _].
  exists w', c'. repeat split; try assumption; apply Hh.
Defined.


(** The first sight of [temp1] on an empty [item] table: the id is [1]. *)
Lemma resolve_identifier_witness :
  let w := session qmark_api 10 three_updates boot in
  answering w (hconn "qmark" [] [] true true empty_schema) [] [] /\
  exists w' c',
    resolve "temp1" w = Ret (Some 1) w' /\
    answering w' c' [new_item_row 1 "temp1"] [].
Proof.
  intros w.
  assert (H : answering w (hconn "qmark" [] [] true true empty_schema) [] []).
  { unfold answering. repeat split; try (vm_compute; reflexivity).
    - vm_compute. discriminate.
    - vm_compute. now left. }
  split; [exact H|].
  destruct (proj1 resolve_identifier "temp1" w _ [] [] H)
    as (w' & c' & i & items' & E & Ha & Hm & _).
  cbn in Hm. destruct Hm as (-> & -> & _).
  exists w', c'. split; assumption.
Defined.

(** One update of the numeric item [temp1] holding [21]. *)
Lemma update_item_one_field_witness :
  let w := session qmark_api 10 [OpParseItem temp1] boot in
  let w' := world_of (update_item temp1 w) in
  update_item temp1 w = Ret tt w' /\
  exists l o,
    dict_get "temp1" (_buffer (self w)) = Some l /\
    _buffer (self w') = dict_set "temp1" (l ++ [o]) (_buffer (self w)) /\
    one_field o = true /\
    fields o = (None, Some (inject_Z 21), None).
Proof.
  intros w w'.
  assert (H : update_item temp1 w = Ret tt w') by (vm_compute; reflexivity).
  split; [exact H|].
  destruct (proj1 update_item_one_field temp1 w w' H)
    as (l & o & Hg & Hb & _ & Ho & [(_ & f & Hf & Hfl)|[(Hb' & _)|(Hn & _)]]).
  - exists l, o. repeat split; try assumption.
    injection Hf as <-. exact Hfl.
  - discriminate Hb'.
  - exfalso. now apply Hn.
Defined.

(** [stop] after the three updates: the final flush has emptied the
    buffer of [temp1], and the three rows are durable on the closed
    connection. *)
Lemma stop_closes_witness :
  let w := session qmark_api 10 three_updates boot in
  locks_free w /\
  healthy w (hconn "qmark" [] [] true true empty_schema) [] [] /\
  exists w2 c2,
    stop w = Ret tt w2 /\
    connected (self w2) = false /\
    dict_get "temp1" (_buffer (self w2)) = Some [] /\
    _fdb (self w2) = Some c2 /\
    closed c2 = true /\
    log_tbl (durable c2)
    = Some [ log_row_of 1 (reading 1609459200250);
             log_row_of 1 (reading 1609459201250);
             log_row_of 1 (reading 1609459202250) ].
Proof.
  intros w.
  assert (H : locks_free w) by (split; vm_compute; reflexivity).
  pose proof (proj1 three_updates_healthy) as Hh. fold w in Hh.
  assert (Hnd : NoDup (dict_keys (_buffer (self w)))).
  { unfold w. rewrite (proj2 three_updates_healthy). cbn.
    constructor; [intros []|constructor]. }
  split; [exact H | split; [exact Hh|]].
  destruct (stop_closes w H) as [(w1 & w2 & _ & Hbuf & E & _ & _ & _ & Hb2 & _) Hflush].
  destruct (Hflush _ _ _ Hh Hnd) as (w2' & c2 & E' & Hc & Hf & Hcl & Hdu & _).
  exists w2', c2.
  assert (Hw : w2' = w2) by congruence. subst w2'.
  split; [exact E|]. split; [exact Hc|].
  split; [rewrite Hb2, Hbuf; vm_compute; reflexivity|].
  split; [exact Hf|]. split; [exact Hcl|].
  rewrite Hdu. vm_compute. reflexivity.
Defined.

(** A driver with [paramstyle = 'pyformat'], after the three updates:
    the select of the id resolution raises on the missing connection. *)
Lemma unsupported_style_raises_witness :
  let w := session pyformat_api 10 three_updates boot in
  ~ In (paramstyle pyformat_api) styles /\
  style (self w) = "pyformat" /\
  _format "pyformat" "SELECT MAX(id) FROM item;" = None /\
  _execute "SELECT MAX(id) FROM item;" [] None w
  = Raise (AttributeError "_fdb") w.
Proof.
  intros w.
  assert (H1 : ~ In (paramstyle pyformat_api) styles)
    by (intros [H|[H|[H|[]]]]; discriminate).
  split; [exact H1|].
  destruct (unsupported_style_raises pyformat_api 10 three_updates boot
              "SELECT MAX(id) FROM item;" [] H1) as (Hs & Hf & _ & He & _).
  fold w in Hs, Hf, He.
  split; [exact Hs|]. split; [rewrite <- Hs at 1; exact Hf | exact He].
Defined.

(** C10, as it was stated, fails on the instance built with the
    [pyformat] driver: [_execute] passes no statement to the driver, not
    even [None]; it raises before it has a cursor, and no call of
    [execute] is made. *)
Lemma execute_passes_none_refuted :
  let w := session pyformat_api 10 [] boot in
  style (self w) = "pyformat" /\
  _execute "SELECT MAX(id) FROM item;" [] None w
  = Raise (AttributeError "_fdb") w /\
  events (world_of (_execute "SELECT MAX(id) FROM item;" [] None w)) = events w /\
  ~ In (EvDriver (Execute None []))
       (events (world_of (_execute "SELECT MAX(id) FROM item;" [] None w))).
Proof.
  intros w.
  split; [vm_compute; reflexivity|].
  split; [vm_compute; reflexivity|].
  split; [vm_compute; reflexivity|].
  vm_compute. intros [H|[]]. discriminate.
Qed.

(* ===================================================================== *)
(** * Further properties of the code *)
(* ===================================================================== *)

(** ** More on the statement formatter *)

Section FormatterMore.

Lemma printf_markers_clean (s : string) :
  str_count "?" s = O -> printf_markers s = s.
Proof.
  induction s as [|a s IH]; simpl; [reflexivity|].
  destruct (Ascii.eqb a "?"); [discriminate|]. intros Hs. now rewrite IH.
Qed.

Lemma printf_markers_no_qmark (s : string) : str_count "?" (printf_markers s) = O.
Proof.
  induction s as [|a s IH]; simpl; [reflexivity|].
  destruct (Ascii.eqb a "?") eqn:E; simpl; [exact IH | now rewrite E].
Qed.

Lemma numbered_markers_no_qmark (s : string) :
  forall k, str_count "?" (numbered_markers k s) = O.
Proof.
  induction s as [|a s IH]; intros k; simpl; [reflexivity|].
  destruct (Ascii.eqb a "?") eqn:E.
  - change (str_count "?" (str_int k ++ numbered_markers (k + 1) s) = O).
    now rewrite str_count_app, str_int_no_qmark, IH.
  - simpl. now rewrite E.
Qed.

Lemma format_numeric (s : string) :
  _format "numeric" s = Some (numbered_markers 1 s).
Proof.
  unfold _format; simpl.
  pose proof (numeric_loop_numbers _ "" s 1 eq_refl eq_refl) as E.
  change ("" ++ s)%string with s in E.
  change ("" ++ numbered_markers 1 s)%string with (numbered_markers 1 s) in E.
  now rewrite E.
Qed.

Lemma format_printf (s : string) :
  _format "format" s = Some (printf_markers s).
Proof. unfold _format; simpl. now rewrite str_replace_all_printf. Qed.

(** X1. For each of the three styles [_format] returns a statement, and
    formatting that statement again gives it back: with [format] and
    [numeric] no [?] is left in it. *)
Theorem format_twice (sty s : string) :
  In sty styles ->
  exists s',
    _format sty s = Some s' /\
    _format sty s' = Some s' /\
    (sty <> "qmark" -> str_contains "?" s' = false).
Proof.
  intros [<-|[<-|[<-|[]]]].
  - exists s. repeat split. intros H; now elim H.
  - exists (printf_markers s). rewrite !format_printf.
    pose proof (printf_markers_no_qmark s) as Hc.
    rewrite (printf_markers_clean _ Hc). repeat split.
    intros _. now rewrite str_contains_count, Hc.
  - exists (numbered_markers 1 s). rewrite !format_numeric.
    pose proof (numbered_markers_no_qmark s 1) as Hc.
    rewrite (numbered_markers_clean _ _ Hc). repeat split.
    intros _. now rewrite str_contains_count, Hc.
Qed.

(** X2. A statement without [?] comes back unchanged in each of the three
    styles. *)
Theorem format_without_placeholder (sty s : string) :
  In sty styles -> str_contains "?" s = false -> _format sty s = Some s.
Proof.
  intros Hsty Hs.
  assert (Hc : str_count "?" s = O).
  { rewrite str_contains_count in Hs. destruct (str_count "?" s); [reflexivity|].
    discriminate. }
  destruct Hsty as [<-|[<-|[<-|[]]]].
  - reflexivity.
  - now rewrite format_printf, printf_markers_clean.
  - now rewrite format_numeric, numbered_markers_clean.
Qed.

Lemma str_length_app (s t : string) :
  String.length (s ++ t) = (String.length s + String.length t)%nat.
Proof. induction s as [|a s IH]; simpl; [reflexivity | now rewrite IH]. Qed.

Lemma str_int_no_colon (z : Z) : str_count ":" (str_int z) = O.
Proof.
  assert (Hu : forall d, str_count ":" (NilEmpty.string_of_uint d) = O)
    by (induction d; simpl; auto).
  assert (Hz : forall d, str_count ":" (NilZero.string_of_uint d) = O)
    by (destruct d; try reflexivity; apply (Hu (_ _))).
  unfold str_int, NilZero.string_of_int.
  destruct (Z.to_int z); simpl; apply Hz.
Qed.

Lemma printf_markers_count (s : string) :
  str_count "%" (printf_markers s) = (str_count "%" s + str_count "?" s)%nat /\
  String.length (printf_markers s) = (String.length s + str_count "?" s)%nat.
Proof.
  induction s as [|a s [IH1 IH2]]; [split; reflexivity|].
  cbn [printf_markers str_count String.length].
  destruct (Ascii.eqb_spec a "?") as [->|Hq].
  - cbn. rewrite IH1, IH2. split; lia.
  - cbn [str_count String.length].
    destruct (Ascii.eqb a "%"); rewrite IH1, IH2; split; lia.
Qed.

Lemma numbered_markers_count (s : string) :
  forall k,
    str_count ":" (numbered_markers k s) = (str_count ":" s + str_count "?" s)%nat.
Proof.
  induction s as [|a s IH]; intros k; [reflexivity|].
  cbn [numbered_markers str_count].
  destruct (Ascii.eqb_spec a "?") as [->|Hq].
  - change (str_count ":" (String ":" (str_int k ++ numbered_markers (k + 1) s))
            = (str_count ":" s + S (str_count "?" s))%nat).
    cbn [str_count]. change (Ascii.eqb ":" ":") with true. cbv iota.
    rewrite str_count_app, str_int_no_colon, IH. lia.
  - cbn [str_count]. destruct (Ascii.eqb a ":"); rewrite IH; lia.
Qed.

(** X3. Every placeholder becomes exactly one marker: with [format] the
    statement gains one [%] and one character per [?]; with [numeric] it
    gains one [:] per [?]. *)
Theorem format_marker_count (s : string) :
  exists s1 s2,
    _format "format" s = Some s1 /\
    _format "numeric" s = Some s2 /\
    str_count "%" s1 = (str_count "%" s + str_count "?" s)%nat /\
    String.length s1 = (String.length s + str_count "?" s)%nat /\
    str_count ":" s2 = (str_count ":" s + str_count "?" s)%nat.
Proof.
  exists (printf_markers s), (numbered_markers 1 s).
  rewrite format_printf, format_numeric.
  destruct (printf_markers_count s) as [H1 H2].
  repeat split; try assumption. apply numbered_markers_count.
Qed.

End FormatterMore.

Lemma format_twice_witness :
  In "numeric" styles /\
  _format "numeric" "INSERT INTO item(id, name) VALUES(?,?);"
  = Some "INSERT INTO item(id, name) VALUES(:1,:2);" /\
  _format "numeric" "INSERT INTO item(id, name) VALUES(:1,:2);"
  = Some "INSERT INTO item(id, name) VALUES(:1,:2);".
Proof.
  assert (H : In "numeric" styles) by (vm_compute; tauto).
  split; [exact H|].
  destruct (format_twice "numeric" "INSERT INTO item(id, name) VALUES(?,?);" H)
    as (s' & E1 & E2 & _).
  assert (Es : s' = "INSERT INTO item(id, name) VALUES(:1,:2);").
  { assert (E : _format "numeric" "INSERT INTO item(id, name) VALUES(?,?);"
                = Some "INSERT INTO item(id, name) VALUES(:1,:2);")
      by (vm_compute; reflexivity).
    rewrite E in E1. now injection E1. }
  subst s'. split; assumption.
Defined.

Lemma format_without_placeholder_witness :
  In "format" styles /\
  str_contains "?" "SELECT MAX(id) FROM item;" = false /\
  _format "format" "SELECT MAX(id) FROM item;" = Some "SELECT MAX(id) FROM item;".
Proof.
  assert (H : In "format" styles) by (vm_compute; tauto).
  split; [exact H|]. split; [reflexivity|].
  exact (format_without_placeholder "format" "SELECT MAX(id) FROM item;" H eq_refl).
Defined.

(** ** More on timestamps and on the buffer *)

Section TimestampMore.
Context {clock : Clock}.

(** X4. For a datetime with [0 <= microsecond < 1000000] the timestamp
    splits back into the seconds of [time.mktime] and the milliseconds of
    the datetime; what is below a millisecond is dropped, and within one
    second the timestamp does not decrease when the microseconds grow. *)
Theorem timestamp_decode (dt : datetime) :
  0 <= microsecond dt < 1000000 ->
  _timestamp dt / 1000 = mktime (timetuple dt) /\
  _timestamp dt mod 1000 = microsecond dt / 1000 /\
  (forall dt',
      0 <= microsecond dt' < 1000000 ->
      timetuple dt' = timetuple dt ->
      (microsecond dt' / 1000 = microsecond dt / 1000 ->
       _timestamp dt' = _timestamp dt) /\
      (microsecond dt <= microsecond dt' -> _timestamp dt <= _timestamp dt')).
Proof.
  intros Hm.
  assert (E : forall d, 0 <= microsecond d ->
                        _timestamp d = mktime (timetuple d) * 1000
                                       + microsecond d / 1000).
  { intros d Hd. unfold _timestamp, time_mktime.
    now rewrite py_int_whole, py_int_millis. }
  assert (Hq : 0 <= microsecond dt / 1000 < 1000).
  { split; [apply Z.div_pos; lia | apply Z.div_lt_upper_bound; lia]. }
  rewrite (E dt) by lia. repeat split.
  - rewrite Z.add_comm, Z.div_add by lia. rewrite Z.div_small by lia. lia.
  - rewrite Z.add_comm, Z.mod_add by lia. apply Z.mod_small; lia.
  - intros Hms. rewrite (E dt') by lia. now rewrite H0, Hms.
  - intros Hle. rewrite (E dt') by lia. rewrite H0.
    apply Z.add_le_mono_l, Z.div_le_mono; lia.
Qed.

End TimestampMore.

Lemma timestamp_decode_witness :
  0 <= microsecond new_year < 1000000 /\
  _timestamp new_year / 1000 = 1609459200 /\
  _timestamp new_year mod 1000 = 250.
Proof.
  assert (H : 0 <= microsecond new_year < 1000000) by (vm_compute; split; [discriminate | reflexivity]).
  split; [exact H|].
  destruct (timestamp_decode new_year H) as (H1 & H2 & _).
  split; [exact H1 | exact H2].
Defined.

Section BufferMore.
Context {types : Types} {clock : Clock} {builtins : Builtins}.

Lemma existsb_dblog (conf : list string) :
  existsb (String.eqb "dblog") conf = true <-> In "dblog" conf.
Proof.
  rewrite existsb_exists. split.
  - intros (x & Hin & Hx). apply String.eqb_eq in Hx. now subst.
  - intros Hin. exists "dblog". split; [exact Hin | apply String.eqb_refl].
Qed.

(** What [update_item] appends for an item at a given time. *)
Lemma update_item_registered (it : item) (l : list obs) (w : world) :
  dict_get (item_id it) (_buffer (self w)) = Some l ->
  (item_type it = "num" -> exists f, py_float (item_value it) = inr f) ->
  exists o,
    update_item it w
    = Ret tt (on_self (set_buffer (dict_set (item_id it) (l ++ [o])
                                     (_buffer (self w)))) w) /\
    o_time o = _timestamp (now w) /\ one_field o = true.
Proof.
  intros Hg Hnum.
  unfold update_item, bind, buffer_get, get_self, sh_now, modify, lift, ret, raise.
  destruct (String.eqb_spec (item_type it) "num") as [Hn|Hn].
  - destruct (Hnum Hn) as [f ->]. cbn. rewrite Hg. cbn.
    eexists. split; [reflexivity|]. split; reflexivity.
  - destruct (String.eqb (item_type it) "bool"); cbn; rewrite Hg; cbn;
      eexists; (split; [reflexivity|]); split; reflexivity.
Qed.

(** X5. [parse_item] on an item with [dblog] in its configuration
    registers it with an empty list, dropping what its buffer held, and
    touches no other buffer. The next [update_item] of the item depends on
    the conversion of its value: when that does not raise (only [float]
    on the value of a [num] item can), [update_item] returns and the
    item's buffer holds exactly the new tuple, stamped with the clock;
    when [float] raises on the value of a [num] item, [update_item] raises
    the same exception and the buffer stays empty. *)
Theorem parse_then_update (it : item) (w : world) :
  In "dblog" (item_conf it) ->
  exists w1,
    parse_item it w = Ret true w1 /\
    dict_get (item_id it) (_buffer (self w1)) = Some [] /\
    (forall k, k <> item_id it ->
               dict_get k (_buffer (self w1)) = dict_get k (_buffer (self w))) /\
    ((item_type it = "num" -> exists f, py_float (item_value it) = inr f) ->
     exists w2 o,
       update_item it w1 = Ret tt w2 /\
       dict_get (item_id it) (_buffer (self w2)) = Some [o] /\
       o_time o = _timestamp (now w) /\
       (forall k, k <> item_id it ->
                  dict_get k (_buffer (self w2)) = dict_get k (_buffer (self w)))) /\
    (forall e, item_type it = "num" -> py_float (item_value it) = inl e ->
               update_item it w1 = Raise e w1).
Proof.
  intros Hconf.
  set (w1 := on_self (fun s => set_buffer (dict_set (item_id it) [] (_buffer s)) s) w).
  assert (Hg : dict_get (item_id it) (_buffer (self w1)) = Some []).
  { unfold w1. cbn. now rewrite dict_get_set, String.eqb_refl. }
  assert (Hoth : forall k, k <> item_id it ->
                           dict_get k (_buffer (self w1)) = dict_get k (_buffer (self w))).
  { intros k Hk. unfold w1. cbn. rewrite dict_get_set.
    destruct (String.eqb_spec (item_id it) k) as [<-|_];
      [contradiction | reflexivity]. }
  exists w1. split; [|split; [exact Hg|split; [exact Hoth|split]]].
  - unfold parse_item. apply existsb_dblog in Hconf. rewrite Hconf. reflexivity.
  - intros Hnum.
    destruct (update_item_registered it [] w1 Hg Hnum) as (o & E & Ht & _).
    eexists _, o. split; [exact E|]. cbn.
    rewrite !dict_get_set, String.eqb_refl.
    split; [reflexivity|]. split; [exact Ht|].
    intros k Hk. rewrite !dict_get_set.
    destruct (String.eqb_spec (item_id it) k) as [<-|_];
      [contradiction | reflexivity].
  - intros e Hn He.
    unfold update_item, bind, buffer_get, get_self, sh_now, modify, lift, ret, raise.
    rewrite Hn. cbn. rewrite He. reflexivity.
Qed.

(** X6. An item without [dblog] in its configuration is not registered:
    [parse_item] returns no callback and changes nothing, and [update_item]
    on an item that has no buffer raises, [KeyError] when the value could
    be converted, and appends nothing. *)
Theorem update_unregistered (it : item) (w : world) :
  ~ In "dblog" (item_conf it) ->
  dict_get (item_id it) (_buffer (self w)) = None ->
  parse_item it w = Ret false w /\
  exists e,
    update_item it w = Raise e w /\
    ((item_type it = "num" -> exists f, py_float (item_value it) = inr f) ->
     e = KeyError (item_id it)).
Proof.
  intros Hconf Hg. split.
  - unfold parse_item.
    destruct (existsb (String.eqb "dblog") (item_conf it)) eqn:E; [|reflexivity].
    apply existsb_dblog in E. contradiction.
  - unfold update_item, bind, buffer_get, get_self, sh_now, modify, lift, ret, raise.
    destruct (String.eqb_spec (item_type it) "num") as [Hn|Hn].
    + destruct (py_float (item_value it)) as [e|f] eqn:Hf; cbn.
      * exists e. split; [reflexivity|]. intros H. destruct (H Hn) as [f [=]].
      * rewrite Hg. cbn. eexists. split; reflexivity.
    + destruct (String.eqb (item_type it) "bool"); cbn; rewrite Hg; cbn;
        eexists; split; reflexivity.
Qed.

(** X7. However it ends, [update_item] changes nothing but the list of
    its own item: the connection, the locks, the flags, the clock, the
    events and the other buffers are as before, and it waits for no lock. *)
Theorem update_item_frame (it : item) (w : world) :
  let w' := world_of (update_item it w) in
  set_buffer [] (self w') = set_buffer [] (self w) /\
  now w' = now w /\
  events w' = events w /\
  (forall k, k <> item_id it ->
             dict_get k (_buffer (self w')) = dict_get k (_buffer (self w))) /\
  (forall x, update_item it w <> Hang x).
Proof.
  intros w'. subst w'.
  pose proof (update_item_fails it w) as Hf.
  destruct (update_item it w) as [[] w1|e w1|w1] eqn:E; cbn [world_of].
  - apply update_item_returns in E as (l & o & _ & -> & _).
    repeat split; try discriminate.
    intros k Hk. cbn. rewrite dict_get_set.
    destruct (String.eqb_spec (item_id it) k) as [<-|_];
      [contradiction | reflexivity].
  - subst. repeat split; discriminate.
  - exfalso. revert E.
    unfold update_item, bind, buffer_get, get_self, sh_now, modify, lift, ret, raise.
    destruct (String.eqb (item_type it) "num");
      [destruct (py_float (item_value it)); [discriminate|] |
       destruct (String.eqb (item_type it) "bool")];
      cbn; destruct (dict_get (item_id it) (_buffer (self w))); cbn; discriminate.
Qed.

(** X8. Two updates of one item that return, the clock having moved in
    between, leave their tuples at the end of the item's list in the order
    of the calls, each with the timestamp of its call. *)
Theorem update_twice_in_order (it1 it2 : item) (dt : datetime) (w w1 w2 : world) :
  item_id it2 = item_id it1 ->
  update_item it1 w = Ret tt w1 ->
  update_item it2 {| self := self w1; now := dt; events := events w1 |}
  = Ret tt w2 ->
  exists l o1 o2,
    dict_get (item_id it1) (_buffer (self w)) = Some l /\
    dict_get (item_id it1) (_buffer (self w2)) = Some (l ++ [o1; o2]) /\
    o_time o1 = _timestamp (now w) /\
    o_time o2 = _timestamp dt.
Proof.
  intros Hid E1 E2.
  apply update_item_returns in E1 as (l & o1 & Hg & -> & Ht1 & _).
  apply update_item_returns in E2 as (l2 & o2 & Hg2 & -> & Ht2 & _).
  rewrite Hid in *. cbn in Hg2, Ht2 |- *.
  rewrite dict_get_set, String.eqb_refl in Hg2. injection Hg2 as <-.
  exists l, o1, o2. repeat split; try assumption.
  rewrite dict_get_set, String.eqb_refl, <- app_assoc. reflexivity.
Qed.

End BufferMore.

(** ** Construction *)

Section Construction.
Context {types : Types}.

(** X9. With a parameter style that is not supported, [__init__] logs
    the error and returns at once: [connect] is not called, nothing is
    scheduled, the connection and its lock are never assigned, and the
    instance is not connected. *)
Theorem init_unsupported_style (api : dbapi) (cycle : Z) (w0 : world) :
  ~ In (paramstyle api) styles ->
  exists w,
    __init__ api cycle w0 = Ret tt w /\
    events w = EvLog ERROR (MsgStyleNotSupported (paramstyle api)) :: events w0 /\
    connected (self w) = false /\
    _fdb_lock (self w) = None /\
    _fdb (self w) = None /\
    _buffer (self w) = [].
Proof.
  intros Hn. unfold __init__.
  assert (Hex : existsb (String.eqb (paramstyle api)) styles = false).
  { destruct (existsb (String.eqb (paramstyle api)) styles) eqn:E; [|reflexivity].
    apply existsb_exists in E as (x & Hin & Hx). apply String.eqb_eq in Hx.
    subst. contradiction. }
  rewrite Hex. eexists. split; [reflexivity|]. repeat split.
Qed.

Lemma existsb_styles (sty : string) :
  In sty styles -> existsb (String.eqb sty) styles = true.
Proof.
  intros H. apply existsb_exists. exists sty. split; [exact H | apply String.eqb_refl].
Qed.

(** X10. When [connect] raises, [__init__] logs the error under the
    connection lock, gives the lock back and returns: the instance is not
    connected, has no connection, and the flush is not scheduled. *)
Theorem init_connect_fails (api : dbapi) (cycle : Z) (w0 : world) (e : exn) :
  In (paramstyle api) styles ->
  connect api = inl e ->
  exists w,
    __init__ api cycle w0 = Ret tt w /\
    trace w = trace w0 ++ [ EvAcquire FdbLock; EvDriver Connect;
                            EvLog ERROR (MsgConnectFailed e);
                            EvRelease FdbLock ] /\
    connected (self w) = false /\
    _fdb (self w) = None /\
    locks_free w.
Proof.
  intros Hsty Hc. unfold __init__. rewrite (existsb_styles _ Hsty), Hc.
  eexists. split; [reflexivity|]. unfold trace. cbn.
  rewrite <- !app_assoc. repeat split.
Qed.

Lemma init_unfold (api : dbapi) (cycle : Z) (c : conn) (w0 : world) :
  In (paramstyle api) styles ->
  connect api = inr c ->
  __init__ api cycle w0
  = bind fdb_cursor (fun _ =>
      bind setup_loop (fun _ =>
        bind cur_close (fun _ =>
          bind fdb_lock_release (fun _ =>
            tell (EvSchedule "DbLog dump" cycle 5)))))
      (init_connected api cycle c w0 []).
Proof.
  intros Hsty Hc. unfold __init__. rewrite (existsb_styles _ Hsty), Hc.
  reflexivity.
Qed.

Lemma in_setup_on_fdb {A : Type} (cl : call) (op : conn -> (exn + A) * conn)
  (w : world) :
  in_setup w ->
  in_setup (world_of (on_fdb cl op w)) /\
  (forall x, on_fdb cl op w <> Hang x) /\
  (forall e x, on_fdb cl op w = Raise e x -> last_call cl x) /\
  (forall a x, on_fdb cl op w = Ret a x -> last_call cl x).
Proof.
  intros (Hf & Hc & Hd). unfold on_fdb, bind, get_self, tell, modify, lift, ret, raise.
  destruct (_fdb (self w)) as [c|]; [|contradiction]. cbn.
  destruct (fst (op c)); cbn; repeat split;
    try discriminate; try assumption; try apply Hd;
    try (intros ? ? [= <- <-]; eexists; reflexivity);
    try (intros ? ? [= <-]; eexists; reflexivity).
Qed.

Lemma setup_loop_returns (w : world) :
  in_setup w -> exists w', setup_loop w = Ret tt w' /\ in_setup w'.
Proof.
  unfold setup_loop. generalize _setup. intros l. revert w.
  induction l as [|[n q] l IH]; intros w Hw; [now exists w|].
  cbn [for_each].
  assert (Hr : exists w1,
             try_except (bind (cur_execute (Some q) []) (fun _ => ret tt))
               (fun e => log WARNING (MsgQueryFailed n e)) w = Ret tt w1
             /\ in_setup w1).
  { unfold try_except, bind, cur_execute.
    destruct (in_setup_on_fdb (Execute (Some q) []) (cursor_execute (Some q) []) w Hw)
      as (Hs & Hh & _).
    destruct (on_fdb (Execute (Some q) []) (cursor_execute (Some q) []) w)
      as [a w1|e w1|w1]; cbn in Hs.
    - exists w1. split; [reflexivity | exact Hs].
    - eexists. split; [reflexivity | exact Hs].
    - exfalso. now apply (Hh w1). }
  destruct Hr as (w1 & E & Hw1). rewrite (bind_ret _ _ _ _ _ E).
  apply IH, Hw1.
Qed.

(** X11. With a supported style and a connection made, an exception
    leaves [__init__] only from [cursor()] or from the closing of the
    cursor: a setup statement that fails is logged and the next one is
    tried. [__init__] never blocks, and when it returns the instance is
    connected, the locks are free and the flush has just been scheduled. *)
Theorem init_setup_tolerant (api : dbapi) (cycle : Z) (c : conn) (w0 : world) :
  In (paramstyle api) styles ->
  connect api = inr c ->
  match __init__ api cycle w0 with
  | Ret _ w =>
      connected (self w) = true /\ locks_free w /\
      exists rest, events w = EvSchedule "DbLog dump" cycle 5 :: rest
  | Raise _ w => last_call Cursor w \/ last_call CursorClose w
  | Hang _ => False
  end.
Proof.
  intros Hsty Hc. rewrite (init_unfold api cycle c w0 Hsty Hc).
  assert (H0 : in_setup (init_connected api cycle c w0 [])).
  { repeat split. discriminate. }
  unfold bind at 1, fdb_cursor.
  destruct (in_setup_on_fdb Cursor conn_cursor _ H0) as (H1 & Hh & Hr & _).
  destruct (on_fdb Cursor conn_cursor (init_connected api cycle c w0 []))
    as [cu w1|e w1|w1]; cbn [world_of] in H1.
  - destruct (setup_loop_returns w1 H1) as (w2 & E2 & H2).
    rewrite (bind_ret _ _ _ _ _ E2).
    unfold bind at 1, cur_close.
    destruct (in_setup_on_fdb CursorClose cursor_close _ H2) as (H3 & Hh3 & Hr3 & _).
    destruct (on_fdb CursorClose cursor_close w2) as [[] w3|e w3|w3];
      cbn [world_of] in H3.
    + destruct H3 as (_ & Hcn & Hb & Hl).
      rewrite (bind_ret _ _ _ _ _ (fdb_lock_release_held w3 Hl)).
      unfold tell. repeat split; try assumption. eexists; reflexivity.
    + right. now apply (Hr3 e).
    + now apply (Hh3 w3).
  - left. now apply (Hr e).
  - now apply (Hh w1).
Qed.


End Construction.


(** ** An instance without its connection lock *)

Section NoLock.
Context {types : Types}.

Lemma for_each_no_lock (ks : list string) :
  forall w,
    _fdb_lock (self w) = None ->
    _buffer_lock (self w) = false ->
    (forall k, In k ks -> dict_get k (_buffer (self w)) <> None) ->
    exists w',
      (for_each ks dump_item w = Ret tt w' \/
       for_each ks dump_item w = Raise (AttributeError "_fdb_lock") w') /\
      _fdb_lock (self w') = None /\
      connected (self w') = connected (self w).
Proof.
  induction ks as [|k ks IH]; intros w Hl Hb Hks.
  - exists w. split; [now left | split; [exact Hl | reflexivity]].
  - destruct (dict_get k (_buffer (self w))) as [l|] eqn:Hg;
      [|exfalso; apply (Hks k); [now left | exact Hg]].
    cbn [for_each]. unfold bind.
    rewrite (dump_item_no_lock k l w Hl Hb Hg).
    destruct l as [|x l].
    + destruct (IH (drained k w)) as (w' & Hr & Hl' & Hc');
        [exact Hl | reflexivity | |].
      { intros k' Hk'. cbn. rewrite dict_get_set.
        destruct (String.eqb k k'); [discriminate | apply Hks; now right]. }
      exists w'. split; [exact Hr | split; [exact Hl' | exact Hc']].
    + eexists. split; [now right | split; [exact Hl | reflexivity]].
Qed.

(** X13. On an instance whose connection lock was never created (one
    built with an unsupported style), [stop] always raises
    [AttributeError]: from the flush, when a buffer holds a tuple, or else
    from the acquire of the lock. The connected flag is as before. *)
Theorem stop_without_lock (w : world) :
  _fdb_lock (self w) = None ->
  _buffer_lock (self w) = false ->
  exists w',
    stop w = Raise (AttributeError "_fdb_lock") w' /\
    connected (self w') = connected (self w).
Proof.
  intros Hl Hb.
  destruct (for_each_no_lock (dict_keys (_buffer (self w)))
              (emit (EvLog DEBUG MsgStartingDump)
                 (on_self (set_alive (Some false)) w)) Hl Hb)
    as (w1 & Hr & Hl1 & Hc1).
  { intros k Hk. now apply dict_get_keys. }
  assert (Hd : _dump (on_self (set_alive (Some false)) w)
               = for_each (dict_keys (_buffer (self w))) dump_item
                   (emit (EvLog DEBUG MsgStartingDump)
                      (on_self (set_alive (Some false)) w))).
  { unfold _dump, bind, get_self, log, tell, ret. cbn.
    destruct (negb (connected (self w))); reflexivity. }
  unfold stop.
  rewrite (bind_ret (modify (set_alive (Some false))) _ w
             (on_self (set_alive (Some false)) w) tt eq_refl).
  cbv beta. rewrite <- Hd in Hr. destruct Hr as [Hr | Hr].
  - rewrite (bind_ret _ _ _ _ _ Hr).
    assert (Ha : fdb_lock_acquire w1 = Raise (AttributeError "_fdb_lock") w1).
    { unfold fdb_lock_acquire, bind, get_self, raise. rewrite Hl1. reflexivity. }
    rewrite (bind_raise _ _ _ _ _ Ha).
    exists w1. split; [reflexivity | exact Hc1].
  - rewrite (bind_raise _ _ _ _ _ Hr).
    exists w1. split; [reflexivity | exact Hc1].
Qed.

End NoLock.

(** ** [_execute] and [_fetchone] *)

Section Statements.
Context {types : Types}.

(** X14. The calls that [_execute] makes on a connection. On the cursor
    it is given, one call of [execute] with the formatted statement and
    the parameters as they are. Without a cursor it opens one, executes and
    closes it; when [cursor()] raises nothing else is called, and when
    [execute] raises the cursor it opened is not closed. *)
Theorem execute_calls (stmt : string) (params : list sqlval) (w : world) (c : conn) :
  _fdb (self w) = Some c ->
  let f := _format (style (self w)) stmt in
  (forall cu,
      events (world_of (_execute stmt params (Some cu) w))
      = EvDriver (Execute f params) :: events w) /\
  exists w',
    match fst (conn_cursor c) with
    | inl e =>
        _execute stmt params None w = Raise e w' /\
        events w' = EvDriver Cursor :: events w
    | inr _ =>
        match fst (cursor_execute f params (snd (conn_cursor c))) with
        | inl e =>
            _execute stmt params None w = Raise e w' /\
            events w' = EvDriver (Execute f params) :: EvDriver Cursor :: events w
        | inr _ =>
            world_of (_execute stmt params None w) = w' /\
            events w' = EvDriver CursorClose :: EvDriver (Execute f params)
                          :: EvDriver Cursor :: events w
        end
    end.
Proof.
  intros Hc f. subst f. split.
  - intros cu.
    unfold _execute, cur_execute, on_fdb, bind, get_self, modify, tell, lift,
      ret, raise.
    rewrite Hc. cbn.
    destruct (fst (cursor_execute _ params c)); reflexivity.
  - unfold _execute, fdb_cursor, cur_execute, cur_close, on_fdb, bind, get_self,
      modify, tell, lift, ret, raise.
    rewrite Hc. cbn.
    destruct (fst (conn_cursor c)) as [e|cu]; cbn.
    + eexists. split; reflexivity.
    + destruct (fst (cursor_execute _ params (snd (conn_cursor c)))) as [e|r]; cbn.
      * eexists. split; reflexivity.
      * eexists. split; [reflexivity|].
        destruct (fst (cursor_close _)); reflexivity.
Qed.

(** X15. On a backend that answers every call, [_fetchone] with the
    select by name returns the id of the first row of that name, or
    [None] when there is none; with [SELECT MAX(id)] it always returns a
    row, holding [None] on an empty table. The cursor passed in plays no
    part, and the connection is left as it was. *)
Theorem fetchone_rows (name : string) (cur : option cursor) (w : world) (c : conn)
  (items : list item_row) (logs : list log_row) :
  answering w c items logs ->
  (exists w',
      _fetchone "SELECT id FROM item where name = ?;" [SText name] cur w
      = Ret (option_map (fun i => [Some i]) (lookup_id name items)) w' /\
      _fdb (self w') = Some c) /\
  (exists w',
      _fetchone "SELECT MAX(id) FROM item;" [] cur w
      = Ret (Some [match items with
                   | [] => None
                   | _ :: _ => Some (next_id items - 1)
                   end]) w' /\
      _fdb (self w') = Some c).
Proof.
  intros (Hb & Hf & Hsty & Hc & Hd & Hcl & Hfa & Hi & Hl).
  destruct w as [[cn al cy buf bl sty fl fdb] nw ev].
  destruct c as [d [it lg x1 x2] du cl fa].
  cbn [self _buffer _buffer_lock style _fdb_lock _fdb dialect work closed faults
       item_tbl log_tbl durable] in *.
  subst. destruct fl as [fl|]; [|contradiction].
  split.
  - pose proof (fetchone_select_id cn al cy sty nw x1 x2 Hsty name cur buf fl
                  items logs du ev) as E.
    rewrite select_id_find in E. unfold hworld, hconn in E.
    eexists. split; [exact E | reflexivity].
  - pose proof (fetchone_select_max cn al cy sty nw x1 x2 Hsty cur buf fl
                  items logs du ev) as E.
    unfold hworld, hconn in E.
    assert (Hm : max_id items = match items with
                                | [] => None
                                | _ :: _ => Some (next_id items - 1)
                                end).
    { pose proof (max_id_next items) as Hn. destruct items as [|r rest];
        [reflexivity|].
      destruct (max_id (r :: rest)) as [m|] eqn:Em.
      - f_equal. lia.
      - exfalso. clear Hn E. revert Em. unfold max_id. cbn [fold_left].
        generalize (r_id r). induction rest as [|r' rest IH]; intros a;
          cbn [fold_left]; [discriminate | apply IH]. }
    rewrite Hm in E. eexists. split; [exact E | reflexivity].
Qed.

End Statements.

(** ** More on the flush *)

Section DumpMore.
Context {types : Types} {clock : Clock} {builtins : Builtins}.

Lemma dict_set_same {V : Type} (k : string) (v : V) (d : list (string * V)) :
  dict_get k d = Some v -> dict_set k v d = d.
Proof.
  induction d as [|[k0 v0] d IH]; cbn [dict_get dict_set]; [discriminate|].
  destruct (String.eqb k0 k); [intros [= ->]; reflexivity|].
  intros Hg. now rewrite IH.
Qed.

Lemma drained_empty (name : string) (w : world) :
  _buffer_lock (self w) = false ->
  dict_get name (_buffer (self w)) = Some [] ->
  self (drained name w) = self w /\
  now (drained name w) = now w /\
  trace (drained name w)
  = trace w ++ [EvAcquire BufferLock; EvRelease BufferLock].
Proof.
  intros Hb Hg. destruct w as [[cn al cy buf bl sty fl fdb] nw ev].
  cbn in Hb, Hg. subst bl. unfold drained, trace. cbn.
  rewrite (dict_set_same _ _ _ Hg), <- app_assoc. repeat split.
Qed.

Lemma for_each_nothing_buffered (ks : list string) :
  forall w,
    _buffer_lock (self w) = false ->
    (forall k, In k ks -> dict_get k (_buffer (self w)) = Some []) ->
    exists w',
      for_each ks dump_item w = Ret tt w' /\
      self w' = self w /\
      trace w'
      = trace w
        ++ flat_map (fun _ => [EvAcquire BufferLock; EvRelease BufferLock]) ks.
Proof.
  induction ks as [|k ks IH]; intros w Hb Hks.
  - exists w. cbn. rewrite app_nil_r. repeat split.
  - assert (Hg : dict_get k (_buffer (self w)) = Some []) by (apply Hks; now left).
    destruct (drained_empty k w Hb Hg) as (Hs & _ & Ht).
    destruct (IH (drained k w)) as (w' & Hr & Hs' & Ht').
    { now rewrite Hs. }
    { intros k' Hk'. rewrite Hs. apply Hks. now right. }
    exists w'. split; [|split].
    + cbn [for_each]. unfold bind, dump_item at 1.
      rewrite (bind_ret _ _ _ _ _ (drain_returns _ _ _ Hb Hg)). exact Hr.
    + now rewrite Hs', Hs.
    + rewrite Ht', Ht, <- app_assoc. reflexivity.
Qed.

(** X16. With nothing buffered, [_dump] only takes and gives back the
    buffer lock, once per registered item: it returns, the instance is as
    before, connection and both tables included, no driver call is made
    and the connection lock is not touched. This needs no connection, and
    not even the connection lock to exist. *)
Theorem dump_nothing_buffered (w : world) :
  _buffer_lock (self w) = false ->
  (forall k l, dict_get k (_buffer (self w)) = Some l -> l = []) ->
  exists w',
    _dump w = Ret tt w' /\
    self w' = self w /\
    trace w'
    = trace w
      ++ EvLog DEBUG MsgStartingDump
         :: flat_map (fun _ => [EvAcquire BufferLock; EvRelease BufferLock])
              (dict_keys (_buffer (self w))).
Proof.
  intros Hb He.
  destruct (for_each_nothing_buffered (dict_keys (_buffer (self w)))
              (emit (EvLog DEBUG MsgStartingDump) w) Hb)
    as (w' & Hr & Hs & Ht).
  { intros k Hk. apply dict_get_keys in Hk. cbn.
    destruct (dict_get k (_buffer (self w))) as [l|] eqn:Hg; [|contradiction].
    now rewrite (He k l Hg). }
  exists w'. split; [|split].
  - unfold _dump, bind, get_self, log, tell, ret.
    destruct (negb (connected (self w))); exact Hr.
  - exact Hs.
  - rewrite Ht. unfold trace. cbn. rewrite <- app_assoc. reflexivity.
Qed.

(** X17. A [_dump] that follows a [_dump] finds every buffer empty: it
    returns with the instance and its connection as the first one left
    them, and reaches neither the driver nor the connection lock. *)
Theorem dump_twice (w : world) :
  locks_free w ->
  exists w1 w2,
    _dump w = Ret tt w1 /\
    _dump w1 = Ret tt w2 /\
    self w2 = self w1 /\
    trace w2
    = trace w1
      ++ EvLog DEBUG MsgStartingDump
         :: flat_map (fun _ => [EvAcquire BufferLock; EvRelease BufferLock])
              (dict_keys (_buffer (self w1))).
Proof.
  intros Hlf. destruct (dump_returns w Hlf) as (w1 & Hr & [Hb1 _] & Hg).
  destruct (dump_nothing_buffered w1 Hb1) as (w2 & Hr2 & Hs & Ht).
  { intros k l. rewrite Hg. destruct (dict_get k (_buffer (self w)));
      cbn; congruence. }
  exists w1, w2. repeat split; assumption.
Qed.

(** X18. There is no rollback. When the [try] body of a round raises,
    the round returns without another call into the driver, with the
    connection as it stood at the raise: what the statements before the
    failure wrote stays in the open transaction, and a cursor that was open
    stays open; the tuples are gone from the buffer. *)
Theorem failed_flush_keeps_writes
  (name : string) (x : obs) (l : list obs) (w w2 : world) (e : exn) :
  locks_free w ->
  dict_get name (_buffer (self w)) = Some (x :: l) ->
  flush_item name (x :: l) (drained name w) = Raise e w2 ->
  exists w',
    dump_item name w = Ret tt w' /\
    _fdb (self w') = _fdb (self w2) /\
    dict_get name (_buffer (self w')) = Some [] /\
    forall ev cl, events w' = ev ++ events w2 -> ~ In (EvDriver cl) ev.
Proof.
  intros Hlf Hg Hr.
  destruct (dump_item_round name x l w Hlf Hg) as [Hd (_ & Hbuf & _)].
  rewrite Hr in Hd, Hbuf. cbn [world_of] in Hbuf.
  eexists. split; [exact Hd|]. split; [reflexivity|]. split.
  - cbn. rewrite Hbuf. cbn. now rewrite dict_get_set, String.eqb_refl.
  - intros ev cl Hev. cbn in Hev.
    change (EvRelease FdbLock :: EvLog WARNING (MsgProblemUpdating name e) :: events w2)
      with ([EvRelease FdbLock; EvLog WARNING (MsgProblemUpdating name e)] ++ events w2)
      in Hev.
    apply app_inv_tail in Hev. subst ev.
    intros [H|[H|[]]]; discriminate.
Qed.

End DumpMore.

(** ** The tables over a flush *)

Section TablesMore.
Context {types : Types}.

Lemma snapshot_ids (i : Z) (t : obs) (items : list item_row) :
  map r_id (map (snapshot_of i t) items) = map r_id items.
Proof.
  rewrite map_map. apply map_ext. intros r.
  unfold snapshot_of, set_snapshot. destruct (Z.eqb (r_id r) i); reflexivity.
Qed.

Lemma next_id_fresh (items : list item_row) :
  ~ In (next_id items) (map r_id items).
Proof.
  destruct items as [|r0 rest]; [intros []|].
  destruct (next_id_spec (r0 :: rest)) as [_ H].
  destruct H as (r & _ & Hn & Hmax); [discriminate|].
  intros Hin. apply in_map_iff in Hin as (r' & Hr' & Hin).
  specialize (Hmax r' Hin). lia.
Qed.

Lemma resolve_spec_ids (name : string) (items : list item_row) :
  NoDup (map r_id items) ->
  NoDup (map r_id (snd (resolve_spec name items))) /\
  exists more, map r_id (snd (resolve_spec name items)) = map r_id items ++ more.
Proof.
  intros Hnd. unfold resolve_spec.
  destruct (lookup_id name items); cbn [snd].
  - split; [exact Hnd | exists []; now rewrite app_nil_r].
  - rewrite map_app. cbn [map r_id new_item_row]. split; [|now eexists].
    apply NoDup_app; [exact Hnd | constructor; [intros [] | constructor] |].
    intros a Ha [<-|[]]. now apply next_id_fresh in Ha.
Qed.

Lemma flush_tables_ids (name : string) (tuples : list obs)
  (items : list item_row) (logs : list log_row) :
  NoDup (map r_id items) ->
  NoDup (map r_id (fst (flush_tables name tuples (items, logs)))) /\
  exists more,
    map r_id (fst (flush_tables name tuples (items, logs))) = map r_id items ++ more.
Proof.
  intros Hnd. unfold flush_tables. destruct tuples as [|t0 l].
  - split; [exact Hnd | exists []; now rewrite app_nil_r].
  - cbn [fst snd]. pose proof (resolve_spec_ids name items Hnd) as H.
    destruct (resolve_spec name items) as [i items1]. cbn [fst snd] in *.
    now rewrite snapshot_ids.
Qed.

Lemma flush_all_ids (buf : list (string * list obs)) :
  forall items logs,
    NoDup (map r_id items) ->
    NoDup (map r_id (fst (flush_all buf (items, logs)))) /\
    exists more,
      map r_id (fst (flush_all buf (items, logs))) = map r_id items ++ more.
Proof.
  unfold flush_all. induction buf as [|[k v] buf IH]; intros items logs Hnd.
  - split; [exact Hnd | exists []; now rewrite app_nil_r].
  - cbn [fold_left fst snd].
    destruct (flush_tables_ids k v items logs Hnd) as [Hnd1 [m1 E1]].
    rewrite (surjective_pairing (flush_tables k v (items, logs))).
    destruct (IH _ (snd (flush_tables k v (items, logs))) Hnd1) as [Hnd2 [m2 E2]].
    split; [exact Hnd2|]. exists (m1 ++ m2). now rewrite E2, E1, app_assoc.
Qed.

(** X19. The ids of the [item] table stay pairwise distinct over a
    [_dump] on a backend that answers every call, and no row changes its
    id: the ids afterwards are the ids before, in place, followed by those
    of the rows created. *)
Theorem dump_ids_distinct
  (w : world) (c : conn) (items : list item_row) (logs : list log_row) :
  healthy w c items logs ->
  NoDup (dict_keys (_buffer (self w))) ->
  NoDup (map r_id items) ->
  exists w' c' items' logs' more,
    _dump w = Ret tt w' /\
    healthy w' c' items' logs' /\
    NoDup (map r_id items') /\
    map r_id items' = map r_id items ++ more.
Proof.
  intros (Hb & Hf & Hsty & Hc & Hd & Hcl & Hfa & Hi & Hl) Hnd Hids.
  destruct w as [[cn al cy buf bl sty fl fdb] nw ev].
  destruct c as [d [it lg x1 x2] du cl fa].
  cbn [self _buffer _buffer_lock style _fdb_lock _fdb dialect work closed faults
       item_tbl log_tbl durable] in *.
  subst.
  destruct (dump_healthy cn al cy sty nw x1 x2 Hsty buf items logs du ev Hnd)
    as (du' & ev' & E).
  unfold hworld, hconn in E.
  destruct (flush_all_ids buf items logs Hids) as [Hnd' [more Hmore]].
  eexists; eexists; eexists; eexists; exists more. split; [exact E|].
  split; [repeat split; solve [assumption | reflexivity]|].
  split; assumption.
Qed.

Lemma nodup_map_inj {A B : Type} (f : A -> B) (l : list A) (a b : A) :
  NoDup (map f l) -> In a l -> In b l -> f a = f b -> a = b.
Proof.
  induction l as [|x l IH]; [intros _ []|].
  cbn [map]. intros Hnd Ha Hb E. inversion Hnd as [|? ? Hx Hnd']; subst.
  destruct Ha as [->|Ha]; destruct Hb as [->|Hb]; [reflexivity | | |now apply IH].
  - exfalso. apply Hx. rewrite E. now apply in_map.
  - exfalso. apply Hx. rewrite <- E. now apply in_map.
Qed.

Lemma lookup_id_row (name : string) (items : list item_row) (i : Z) :
  lookup_id name items = Some i ->
  exists r, In r items /\ r_name r = name /\ r_id r = i.
Proof.
  unfold lookup_id. destruct (find (name_is name) items) as [r|] eqn:Hf;
    [|discriminate].
  intros [= <-]. apply find_some in Hf as [Hin Hn]. exists r.
  unfold name_is in Hn. apply String.eqb_eq in Hn. now repeat split.
Qed.

Lemma resolve_spec_finds (name : string) (items : list item_row) :
  lookup_id name (snd (resolve_spec name items)) = Some (fst (resolve_spec name items)).
Proof.
  unfold resolve_spec. destruct (lookup_id name items) as [j|] eqn:Hl;
    cbn [fst snd]; [exact Hl | now apply lookup_id_app_new].
Qed.

Lemma resolve_spec_incl (name : string) (items : list item_row) (r : item_row) :
  In r items -> In r (snd (resolve_spec name items)).
Proof.
  unfold resolve_spec. destruct (lookup_id name items); cbn [snd];
    [trivial | intros H; apply in_or_app; now left].
Qed.

(** X20. With pairwise distinct ids in the [item] table, one round of the
    flush for [name] on a backend that answers every call leaves the rows
    of every other name as they are, and the table then has a row for
    [name] that carries the fields of the last tuple of the buffer. *)
Theorem flush_snapshot_of_last
  (name : string) (t0 : obs) (l : list obs) (w : world) (c : conn)
  (items : list item_row) (logs : list log_row) :
  healthy w c items logs ->
  NoDup (map r_id items) ->
  dict_get name (_buffer (self w)) = Some (t0 :: l) ->
  let t := last l t0 in
  exists w' c' items' logs',
    dump_item name w = Ret tt w' /\
    healthy w' c' items' logs' /\
    (forall r, In r items -> r_name r <> name -> In r items') /\
    exists r, In r items' /\ r_name r = name /\
              r_time r = Some (o_time t) /\ r_val_str r = o_str t /\
              r_val_num r = o_num t /\ r_val_bool r = o_bool t.
Proof.
  intros (Hb & Hf & Hsty & Hc & Hd & Hcl & Hfa & Hi & Hl) Hids Hg t.
  destruct w as [[cn al cy buf bl sty fl fdb] nw ev].
  destruct c as [d [it lg x1 x2] du cl fa].
  cbn [self _buffer _buffer_lock style _fdb_lock _fdb dialect work closed faults
       item_tbl log_tbl durable] in *.
  subst.
  pose proof (dump_item_healthy cn al cy sty nw x1 x2 Hsty name (t0 :: l)
                buf items logs du ev Hg) as E.
  unfold hworld, hconn, flush_tables in E. cbn [fst snd] in E.
  pose proof (resolve_spec_finds name items) as Hfind.
  pose proof (resolve_spec_incl name items) as Hincl.
  destruct (resolve_spec_ids name items Hids) as [Hids1 _].
  destruct (resolve_spec name items) as [i items1]. cbn [fst snd] in *.
  destruct (lookup_id_row name items1 i Hfind) as (r0 & Hin0 & Hn0 & Hi0).
  assert (Hlast : last (t0 :: l) t0 = last l t0).
  { clear. destruct l as [|y l]; [reflexivity|]. cbn [last].
    generalize y. induction l as [|z l IH]; intros y'; [reflexivity|].
    cbn [last]. apply IH. }
  rewrite Hlast in E. fold t in E.
  eexists; eexists; eexists; eexists. split; [exact E|].
  split; [repeat split; solve [assumption | reflexivity]|].
  split.
  - intros r Hin Hne. apply in_map_iff. exists r. split; [|now apply Hincl].
    unfold snapshot_of, set_snapshot.
    destruct (Z.eqb_spec (r_id r) i) as [Heq|_]; [|reflexivity].
    exfalso. apply Hne. rewrite <- Hn0. f_equal.
    apply (nodup_map_inj r_id items1); [exact Hids1 | now apply Hincl | exact Hin0 |].
    now rewrite Hi0.
  - exists (snapshot_of i t r0). split; [now apply in_map|].
    unfold snapshot_of, set_snapshot. rewrite Hi0, Z.eqb_refl. cbn.
    now repeat split.
Qed.

Lemma flush_all_logs (buf : list (string * list obs)) :
  forall items logs,
  exists new,
    snd (flush_all buf (items, logs)) = logs ++ new /\
    map log_fields new = map obs_fields (concat (map snd buf)).
Proof.
  unfold flush_all. induction buf as [|[k v] buf IH]; intros items logs.
  - exists []. cbn. now rewrite app_nil_r.
  - cbn [fold_left fst snd map concat].
    rewrite (surjective_pairing (flush_tables k v (items, logs))).
    destruct (IH (fst (flush_tables k v (items, logs)))
                 (snd (flush_tables k v (items, logs)))) as (new & E & Hn).
    assert (H1 : exists n1, snd (flush_tables k v (items, logs)) = logs ++ n1 /\
                            map log_fields n1 = map obs_fields v).
    { unfold flush_tables. destruct v as [|t0 l].
      - exists []. cbn. now rewrite app_nil_r.
      - cbn [fst snd]. destruct (resolve_spec k items) as [i items1]. cbn [snd].
        eexists. split; [reflexivity|]. rewrite map_map. reflexivity. }
    destruct H1 as (n1 & E1 & Hn1).
    exists (n1 ++ new). split.
    + rewrite E, E1, app_assoc. reflexivity.
    + rewrite !map_app, Hn, Hn1. reflexivity.
Qed.

(** X21. The [log] table is only appended to. A [_dump] on a backend
    that answers every call leaves the rows that were there in place and
    adds one row per buffered tuple, no more and no fewer: the new rows
    carry, in order, the fields of the tuples of the buffer, item by item
    in the order of the buffer. *)
Theorem dump_appends_log
  (w : world) (c : conn) (items : list item_row) (logs : list log_row) :
  healthy w c items logs ->
  NoDup (dict_keys (_buffer (self w))) ->
  exists w' c' items' new,
    _dump w = Ret tt w' /\
    healthy w' c' items' (logs ++ new) /\
    map log_fields new
    = map obs_fields (concat (map snd (_buffer (self w)))).
Proof.
  intros (Hb & Hf & Hsty & Hc & Hd & Hcl & Hfa & Hi & Hl) Hnd.
  destruct w as [[cn al cy buf bl sty fl fdb] nw ev].
  destruct c as [d [it lg x1 x2] du cl fa].
  cbn [self _buffer _buffer_lock style _fdb_lock _fdb dialect work closed faults
       item_tbl log_tbl durable] in *.
  subst.
  destruct (dump_healthy cn al cy sty nw x1 x2 Hsty buf items logs du ev Hnd)
    as (du' & ev' & E).
  unfold hworld, hconn in E.
  destruct (flush_all_logs buf items logs) as (new & En & Hn).
  rewrite En in E.
  eexists; eexists; eexists; exists new. split; [exact E|].
  split; [repeat split; solve [assumption | reflexivity]|].
  exact Hn.
Qed.

End TablesMore.

(** ** The connection parameters *)

Section ConnectMore.
Context {types : Types} {parsers : Parsers}.

Lemma str_partition_colon (k v : string) :
  str_count ":" k = O ->
  str_partition ":" (k ++ String ":" v)%string = (k, ":"%string, v).
Proof.
  induction k as [|a k IH]; intros Hk; [reflexivity|].
  cbn [String.append str_partition]. cbn [str_count] in Hk.
  destruct (Ascii.eqb a ":").
  - discriminate.
  - rewrite IH by exact Hk. reflexivity.
Qed.

Lemma str_partition_none (s : string) :
  str_count ":" s = O ->
  str_partition ":" s = (s, EmptyString, EmptyString).
Proof.
  induction s as [|a s IH]; intros Hs; [reflexivity|].
  cbn [str_partition]. cbn [str_count] in Hs.
  destruct (Ascii.eqb a ":").
  - discriminate.
  - rewrite IH by exact Hs. reflexivity.
Qed.

Lemma find_snoc {A : Type} (p : A -> bool) (l : list A) (a : A) :
  find p (l ++ [a])
  = match find p l with
    | Some x => Some x
    | None => if p a then Some a else None
    end.
Proof.
  induction l as [|x l IH]; cbn [app find]; [reflexivity|].
  destruct (p x); [reflexivity | exact IH].
Qed.

Lemma connect_fold (k : string) (args : list string) :
  forall params,
    dict_get k
      (fold_left
         (fun params arg =>
            let '(key, _, value) := str_partition ":" arg in
            dict_set key (coerce value) params) args params)
    = match find (fun arg => String.eqb (arg_key arg) k) (rev args) with
      | Some arg => Some (coerce (arg_value arg))
      | None => dict_get k params
      end.
Proof.
  induction args as [|a args IH]; intros params; [reflexivity|].
  cbn [fold_left rev]. rewrite IH, find_snoc.
  destruct (find _ (rev args)); [reflexivity|].
  unfold arg_key, arg_value.
  destruct (str_partition ":" a) as [[key m] value] eqn:E. cbn [fst snd].
  rewrite dict_get_set.
  destruct (String.eqb key k); [rewrite E|]; reflexivity.
Qed.

(** X22. The parameter that [__init__] hands to [connect] under a key is
    read from the last argument that has this key before its first colon;
    a key that no argument has is not passed. *)
Theorem connect_last_wins (k : string) (args : list string) :
  dict_get k (parse_connect (inr args))
  = option_map (fun arg => coerce (arg_value arg))
      (find (fun arg => String.eqb (arg_key arg) k) (rev args)).
Proof.
  unfold parse_connect, connect_list. rewrite connect_fold.
  destruct (find _ (rev args)); reflexivity.
Qed.

(** X23. An argument [k:v] is cut at its first colon: with no colon in
    [k], a single argument gives the one parameter [k], converted from
    [v], which may hold colons itself. An argument without a colon is its
    own key, and its value is converted from the empty string. *)
Theorem connect_single (k v : string) :
  str_count ":" k = O ->
  parse_connect (inl (k ++ String ":" v)%string) = [(k, coerce v)] /\
  parse_connect (inl k) = [(k, coerce EmptyString)].
Proof.
  intros Hk. unfold parse_connect, connect_list. cbn [fold_left].
  rewrite (str_partition_colon k v Hk), (str_partition_none k Hk). split; reflexivity.
Qed.

End ConnectMore.

(** ** Worked examples for these properties *)

(** [temp1] is registered on a new instance and updated once. *)
Lemma parse_then_update_witness :
  In "dblog" (item_conf temp1) /\
  exists w1 w2 o,
    parse_item temp1 boot = Ret true w1 /\
    update_item temp1 w1 = Ret tt w2 /\
    dict_get "temp1" (_buffer (self w2)) = Some [o] /\
    o_time o = 1609459200250.
Proof.
  assert (H1 : In "dblog" (item_conf temp1)) by (vm_compute; now left).
  assert (H2 : item_type temp1 = "num" ->
               exists f, py_float (item_value temp1) = inr f)
    by (intros _; eexists; reflexivity).
  split; [exact H1|].
  destruct (parse_then_update temp1 boot H1) as (w1 & E1 & _ & _ & Hup & _).
  destruct (Hup H2) as (w2 & o & E2 & Hg & Ht & _).
  exists w1, w2, o. repeat split; assumption.
Defined.

(** [hall] did not opt in; after the three updates of [temp1] it has no
    buffer. *)
Lemma update_unregistered_witness :
  let w := session qmark_api 10 three_updates boot in
  ~ In "dblog" (item_conf hall) /\
  dict_get "hall" (_buffer (self w)) = None /\
  parse_item hall w = Ret false w /\
  update_item hall w = Raise (KeyError "hall") w.
Proof.
  intros w.
  assert (H1 : ~ In "dblog" (item_conf hall))
    by (intros [H|[]]; discriminate).
  assert (H2 : dict_get (item_id hall) (_buffer (self w)) = None)
    by (vm_compute; reflexivity).
  split; [exact H1 | split; [exact H2|]].
  destruct (update_unregistered hall w H1 H2) as (E1 & e & E2 & He).
  split; [exact E1|].
  rewrite E2, He; [reflexivity|]. intros H; discriminate.
Defined.

(** Two updates of [temp1], one second apart. *)
Lemma update_twice_in_order_witness :
  let w := session qmark_api 10 [OpParseItem temp1] boot in
  let w1 := world_of (update_item temp1 w) in
  let w2 := world_of (update_item temp1
                        {| self := self w1; now := at_second 1;
                           events := events w1 |}) in
  update_item temp1 w = Ret tt w1 /\
  exists o1 o2,
    dict_get "temp1" (_buffer (self w2)) = Some [o1; o2] /\
    o_time o1 = 1609459200250 /\ o_time o2 = 1609459201250.
Proof.
  intros w w1 w2.
  assert (E1 : update_item temp1 w = Ret tt w1) by (vm_compute; reflexivity).
  assert (E2 : update_item temp1 {| self := self w1; now := at_second 1;
                                    events := events w1 |} = Ret tt w2)
    by (vm_compute; reflexivity).
  split; [exact E1|].
  destruct (update_twice_in_order temp1 temp1 (at_second 1) w w1 w2 eq_refl E1 E2)
    as (l & o1 & o2 & Hl & Hg & H1 & H2).
  assert (Hnil : l = []).
  { assert (Hw : dict_get (item_id temp1) (_buffer (self w)) = Some [])
      by (vm_compute; reflexivity).
    rewrite Hw in Hl. now injection Hl. }
  subst l. exists o1, o2. repeat split; assumption.
Defined.

(** A driver with [paramstyle = 'pyformat']. *)
Lemma init_unsupported_style_witness :
  ~ In (paramstyle pyformat_api) styles /\
  exists w,
    __init__ pyformat_api 10 boot = Ret tt w /\
    events w = [EvLog ERROR (MsgStyleNotSupported "pyformat")] /\
    _fdb_lock (self w) = None.
Proof.
  assert (H : ~ In (paramstyle pyformat_api) styles)
    by (intros [H|[H|[H|[]]]]; discriminate).
  split; [exact H|].
  destruct (init_unsupported_style pyformat_api 10 boot H)
    as (w & E & Hev & _ & Hl & _).
  exists w. repeat split; assumption.
Defined.

(** A database file that cannot be opened. *)
Lemma init_connect_fails_witness :
  In (paramstyle down_api) styles /\
  exists w,
    __init__ down_api 10 boot = Ret tt w /\
    connected (self w) = false /\
    locks_free w.
Proof.
  assert (H : In (paramstyle down_api) styles) by (vm_compute; now left).
  split; [exact H|].
  destruct (init_connect_fails down_api 10 boot _ H eq_refl)
    as (w & E & _ & Hc & _ & Hlf).
  exists w. repeat split; solve [assumption | apply Hlf].
Defined.

(** The first statement of the setup is refused: the instance is
    connected all the same, and the flush is scheduled. *)
Lemma init_setup_tolerant_witness :
  In (paramstyle busy_api) styles /\
  exists w rest,
    __init__ busy_api 10 boot = Ret tt w /\
    connected (self w) = true /\
    events w = EvSchedule "DbLog dump" 10 5 :: rest.
Proof.
  assert (H : In (paramstyle busy_api) styles) by (vm_compute; now left).
  split; [exact H|].
  pose proof (init_setup_tolerant busy_api 10 _ boot H eq_refl) as Ht.
  assert (E : __init__ busy_api 10 boot
              = Ret tt (world_of (__init__ busy_api 10 boot)))
    by (vm_compute; reflexivity).
  rewrite E in Ht. destruct Ht as (Hc & _ & rest & Hev).
  exists (world_of (__init__ busy_api 10 boot)), rest.
  split; [exact E | split; [exact Hc | exact Hev]].
Defined.


(** [stop] on the instance built with the [pyformat] driver. *)
Lemma stop_without_lock_witness :
  let w := session pyformat_api 10 three_updates boot in
  _fdb_lock (self w) = None /\
  exists w', stop w = Raise (AttributeError "_fdb_lock") w'.
Proof.
  intros w.
  assert (H1 : _fdb_lock (self w) = None) by (vm_compute; reflexivity).
  assert (H2 : _buffer_lock (self w) = false) by (vm_compute; reflexivity).
  split; [exact H1|].
  destruct (stop_without_lock w H1 H2) as (w' & E & _).
  exists w'. exact E.
Defined.

(** The select by name on a [numeric] driver. *)
Lemma execute_calls_witness :
  let w := session numeric_api 10 [] boot in
  _fdb (self w) = Some (hconn "numeric" [] [] true true empty_schema) /\
  forall cu,
    events (world_of (_execute "SELECT id FROM item where name = ?;"
                        [SText "temp1"] (Some cu) w))
    = EvDriver (Execute (Some "SELECT id FROM item where name = :1;")
                  [SText "temp1"]) :: events w.
Proof.
  intros w.
  assert (H : _fdb (self w) = Some (hconn "numeric" [] [] true true empty_schema))
    by (vm_compute; reflexivity).
  split; [exact H|].
  exact (proj1 (execute_calls "SELECT id FROM item where name = ?;"
                  [SText "temp1"] w _ H)).
Defined.

(** The session of [two_items]: the first flush has stored [temp1] under
    the id [1]; one tuple of [temp1] and one of [door] are buffered. *)
Lemma two_items_healthy :
  healthy (session qmark_api 10 two_items boot) two_items_conn
    [temp1_row] temp1_logs /\
  _buffer (self (session qmark_api 10 two_items boot))
  = [("temp1", [reading 1609459203250]); ("door", [opened])].
Proof.
  split.
  - unfold healthy.
    split; [vm_compute; reflexivity|]. split; [vm_compute; reflexivity|].
    split; [vm_compute; now left|]. split; [vm_compute; reflexivity|].
    split; [vm_compute; reflexivity|]. split; [vm_compute; reflexivity|].
    split; [vm_compute; reflexivity|]. split; vm_compute; reflexivity.
  - vm_compute. reflexivity.
Defined.

(** The two selects of the id resolution, with [temp1] stored. *)
Lemma fetchone_rows_witness :
  let w := session qmark_api 10 two_items boot in
  answering w two_items_conn [temp1_row] temp1_logs /\
  (exists w', _fetchone "SELECT id FROM item where name = ?;" [SText "temp1"]
                None w = Ret (Some [Some 1]) w') /\
  (exists w', _fetchone "SELECT id FROM item where name = ?;" [SText "door"]
                None w = Ret None w') /\
  (exists w', _fetchone "SELECT MAX(id) FROM item;" [] None w
              = Ret (Some [Some 1]) w').
Proof.
  intros w.
  destruct two_items_healthy as [(Hb & Hf & Hrest) _].
  assert (Ha : answering w two_items_conn [temp1_row] temp1_logs).
  { split; [exact Hb|]. split; [|exact Hrest].
    fold w in Hf. rewrite Hf. discriminate. }
  split; [exact Ha|].
  destruct (fetchone_rows "temp1" None w _ _ _ Ha) as [(w1 & E1 & _) (w3 & E3 & _)].
  destruct (fetchone_rows "door" None w _ _ _ Ha) as [(w2 & E2 & _) _].
  split; [exists w1; exact E1|]. split; [exists w2; exact E2 | exists w3; exact E3].
Defined.

(** [_dump] on the instance built with the [pyformat] driver, after
    [temp1] was registered: it returns, though there is no connection
    and no connection lock. *)
Lemma dump_nothing_buffered_witness :
  let w := session pyformat_api 10 [OpParseItem temp1] boot in
  _buffer_lock (self w) = false /\
  _fdb_lock (self w) = None /\
  exists w',
    _dump w = Ret tt w' /\
    self w' = self w /\
    trace w' = trace w ++ [ EvLog DEBUG MsgStartingDump;
                            EvAcquire BufferLock; EvRelease BufferLock ].
Proof.
  intros w.
  assert (H1 : _buffer_lock (self w) = false) by (vm_compute; reflexivity).
  assert (H2 : forall k l, dict_get k (_buffer (self w)) = Some l -> l = []).
  { intros k l. change (_buffer (self w)) with [("temp1", @nil obs)].
    cbn [dict_get]. destruct (String.eqb "temp1" k); [|discriminate].
    intros E. now injection E. }
  split; [exact H1|]. split; [vm_compute; reflexivity|].
  destruct (dump_nothing_buffered w H1 H2) as (w' & E & Hs & Ht).
  exists w'. split; [exact E | split; [exact Hs | exact Ht]].
Defined.

(** Two flushes in a row after the three updates. *)
Lemma dump_twice_witness :
  let w := session qmark_api 10 three_updates boot in
  locks_free w /\
  exists w1 w2,
    _dump w = Ret tt w1 /\ _dump w1 = Ret tt w2 /\ self w2 = self w1.
Proof.
  intros w.
  assert (H : locks_free w) by (split; vm_compute; reflexivity).
  split; [exact H|].
  destruct (dump_twice w H) as (w1 & w2 & E1 & E2 & Hs & _).
  exists w1, w2. split; [exact E1 | split; [exact E2 | exact Hs]].
Defined.

(** The commit of the flush of [temp1] fails: the three rows are in the
    open transaction and not durable, the buffer is empty. *)
Lemma failed_flush_keeps_writes_witness :
  let w := session commit_fails_api 10 three_updates boot in
  let tuples := [reading 1609459200250; reading 1609459201250;
                 reading 1609459202250] in
  let w2 := world_of (flush_item "temp1" tuples (drained "temp1" w)) in
  locks_free w /\
  flush_item "temp1" tuples (drained "temp1" w)
  = Raise (DatabaseError "disk full") w2 /\
  exists w' c',
    dump_item "temp1" w = Ret tt w' /\
    _fdb (self w') = Some c' /\
    log_tbl (work c') = Some temp1_logs /\
    log_tbl (durable c') = Some [] /\
    dict_get "temp1" (_buffer (self w')) = Some [].
Proof.
  intros w tuples w2.
  assert (H1 : locks_free w) by (split; vm_compute; reflexivity).
  assert (H2 : dict_get "temp1" (_buffer (self w)) = Some tuples)
    by (vm_compute; reflexivity).
  assert (H3 : flush_item "temp1" tuples (drained "temp1" w)
               = Raise (DatabaseError "disk full") w2)
    by (vm_compute; reflexivity).
  split; [exact H1 | split; [exact H3|]].
  destruct (failed_flush_keeps_writes "temp1" _ _ w w2 _ H1 H2 H3)
    as (w' & E & Hf & Hb & _).
  exists w'.
  exists (match _fdb (self w2) with Some c' => c' | None => fresh_db "" [] end).
  split; [exact E|]. split; [rewrite Hf; vm_compute; reflexivity|].
  split; [vm_compute; reflexivity|]. split; [vm_compute; reflexivity | exact Hb].
Defined.

(** The flush of [two_items]: [door] is new and gets the id [2]. *)
Lemma dump_ids_distinct_witness :
  let w := session qmark_api 10 two_items boot in
  healthy w two_items_conn [temp1_row] temp1_logs /\
  NoDup (map r_id [temp1_row]) /\
  exists w' c' items' logs' more,
    _dump w = Ret tt w' /\
    healthy w' c' items' logs' /\
    NoDup (map r_id items') /\
    map r_id items' = [1] ++ more.
Proof.
  intros w.
  destruct two_items_healthy as [Hh Hbuf].
  assert (H1 : NoDup (dict_keys (_buffer (self w)))).
  { unfold w. rewrite Hbuf. cbn.
    constructor; [intros [H|[]]; discriminate|].
    constructor; [intros []|constructor]. }
  assert (H2 : NoDup (map r_id [temp1_row]))
    by (constructor; [intros []|constructor]).
  split; [exact Hh | split; [exact H2|]].
  exact (dump_ids_distinct w _ _ _ Hh H1 H2).
Defined.

(** One round for [door] in the session of [two_items]: the row of
    [temp1] is kept, and [door] has a row with the tuple buffered. *)
Lemma flush_snapshot_of_last_witness :
  let w := session qmark_api 10 two_items boot in
  healthy w two_items_conn [temp1_row] temp1_logs /\
  dict_get "door" (_buffer (self w)) = Some [opened] /\
  exists w' c' items' logs',
    dump_item "door" w = Ret tt w' /\
    healthy w' c' items' logs' /\
    In temp1_row items' /\
    exists r, In r items' /\ r_name r = "door" /\
              r_time r = Some 1609459203250 /\ r_val_bool r = Some true.
Proof.
  intros w.
  destruct two_items_healthy as [Hh Hbuf].
  assert (H1 : NoDup (map r_id [temp1_row]))
    by (constructor; [intros []|constructor]).
  assert (H2 : dict_get "door" (_buffer (self w)) = Some [opened])
    by (unfold w; rewrite Hbuf; reflexivity).
  split; [exact Hh | split; [exact H2|]].
  destruct (flush_snapshot_of_last "door" opened [] w _ _ _ Hh H1 H2)
    as (w' & c' & items' & logs' & E & Hh' & Hkeep & r & Hin & Hn & Ht & _ & _ & Hb).
  exists w', c', items', logs'. split; [exact E | split; [exact Hh'|]].
  split.
  - apply Hkeep; [now left | discriminate].
  - exists r. repeat split; assumption.
Defined.

(** The flush of [two_items] appends two rows to the three of the [log]
    table. *)
Lemma dump_appends_log_witness :
  let w := session qmark_api 10 two_items boot in
  healthy w two_items_conn [temp1_row] temp1_logs /\
  NoDup (dict_keys (_buffer (self w))) /\
  exists w' c' items' new,
    _dump w = Ret tt w' /\
    healthy w' c' items' (temp1_logs ++ new) /\
    map log_fields new
    = [obs_fields (reading 1609459203250); obs_fields opened].
Proof.
  intros w.
  destruct two_items_healthy as [Hh Hbuf].
  assert (H1 : NoDup (dict_keys (_buffer (self w)))).
  { unfold w. rewrite Hbuf. cbn.
    constructor; [intros [H|[]]; discriminate|].
    constructor; [intros []|constructor]. }
  split; [exact Hh | split; [exact H1|]].
  destruct (dump_appends_log w _ _ _ Hh H1) as (w' & c' & items' & new & E & Hh' & Hn).
  exists w', c', items', new. split; [exact E | split; [exact Hh'|]].
  rewrite Hn. unfold w. rewrite Hbuf. reflexivity.
Defined.

(** The argument [port:3306], with the literals read as decimals. *)
Lemma connect_single_witness :
  str_count ":" "port" = O /\
  parse_connect (inl "port:3306") = [("port", ParInt 3306)] /\
  parse_connect (inl "port") = [("port", ParStr "")].
Proof.
  assert (H : str_count ":" "port" = O) by reflexivity.
  split; [exact H|].
  destruct (connect_single "port" "3306" H) as [E1 E2].
  split; [exact E1 | exact E2].
Defined.
